(** * Smart Attendance System: the recognition session of
      [backend/recognize_attendance.py]

    A shallow embedding of the recognition script: the roster index built
    from the dataset folder and the student database, the per-detection
    decision procedure, the frame loop with its sampling and batch-write
    intervals, the batched CSV writer and the [try]/[finally] shutdown.

    Conventions of the embedding.
    - Python dictionaries keyed by strings or integers are [gmap]s, the set
      [marked_names] is a [gset string], the [deque] is a list used from
      its head ([popleft]) and extended at its tail ([append]).
    - [student_db] is kept as the list of its [items()], because the
      case-insensitive search walks it in insertion order.
    - A student record is the dictionary of its string-valued fields, as
      registration writes it; the script reads ['name'], ['rollNo'],
      ['branch'] and ['section'] only. [Raw] gives the roster loop and
      start-up on records of arbitrary JSON values, where [.lower()] can
      raise, and [Api.start_attendance_on] the start route on such a
      request.
    - Strings are byte strings (UTF-8); [PyStr.lower] and [PyStr.upper]
      act on ASCII letters. In [Raw] and [Api.start_attendance_on] the
      case mappings of [str.lower] and [str.upper] are parameters.
    - The confidence returned by the recognizer is a rational number.
    - What the script does to the outside world is appended to a trace of
      [effect]s, so that order and multiplicity can be stated. Of the lines
      it prints, the trace keeps those that report a decision: errors,
      warnings, marks, the reason of the stop and the summary.
    - The CSV file is the list of its rows. The file object is buffered:
      a row handed to [writerow] reaches the file when the buffer is
      written out, which can fail as late as [close()].
    - Frames are a finite list: what the camera delivers before [read]
      fails, the user quits or an exception ends the loop. *)

From Stdlib Require Import ZArith QArith List Ascii.
From stdpp Require Import gmap strings list fin_maps fin_sets sorting pretty.

Local Open Scope string_scope.
Local Open Scope Z_scope.
Local Open Scope list_scope.

(** ** Strings *)

Module PyStr.

Fixpoint map (f : ascii → ascii) (s : string) : string :=
  match s with
  | EmptyString => EmptyString
  | String c r => String (f c) (map f r)
  end.

Definition lower_char (c : ascii) : ascii :=
  let n := nat_of_ascii c in
  if ((65 <=? n)%nat && (n <=? 90)%nat)%bool then ascii_of_nat (n + 32) else c.

Definition upper_char (c : ascii) : ascii :=
  let n := nat_of_ascii c in
  if ((97 <=? n)%nat && (n <=? 122)%nat)%bool then ascii_of_nat (n - 32) else c.

(** [s.lower()] and [s.upper()] *)
Definition lower : string → string := map lower_char.
Definition upper : string → string := map upper_char.

(** [s.replace(" ", "_")] *)
Definition replace_space_underscore : string → string :=
  map (λ c, if Ascii.eqb c " " then "_"%char else c).

End PyStr.

(** ** Configuration ([backend/config.py]) *)

Module Config.
Definition RECOGNITION_CONFIDENCE_THRESHOLD : Q := 75%Q.
Definition BATCH_WRITE_INTERVAL : Z := 10.
Definition ATTENDANCE_COOLDOWN_SECONDS : Z := 5.
End Config.

(** ** Roster index *)

(** A student record: the JSON object of one student. *)
Abbreviation info := (gmap string string).

(** [student_db.items()], in insertion order. *)
Abbreviation student_db := (list (string * info)).

Module Roster.

(** [key in student_db] *)
Definition contains (db : student_db) (key : string) : bool :=
  existsb (λ kv, String.eqb kv.1 key) db.

(** [student_db[key]]; [None] stands for [KeyError]. *)
Definition getitem (db : student_db) (key : string) : option info :=
  snd <$> List.find (λ kv, String.eqb kv.1 key) db.

(** The [for sid, info in student_db.items()] search of lines 107-112:
    the first record whose lower-cased ['name'] is the lower-cased folder
    name. [info.get('name', '')] defaults to the empty string. *)
Definition name_matches (person_name : string) (i : info) : bool :=
  String.eqb (PyStr.lower (default "" (i !! "name"))) (PyStr.lower person_name).

Definition search_by_name (db : student_db) (person_name : string) : option info :=
  snd <$> List.find (λ kv, name_matches person_name kv.2) db.

(** The record bound when neither search succeeds (lines 115-119). *)
Definition placeholder : info :=
  <["rollNo" := "N/A"]> (<["branch" := "UNKNOWN"]> (<["section" := "UNKNOWN"]> ∅)).

(** [person_name.lower().replace(" ", "_")] *)
Definition student_id_of (person_name : string) : string :=
  PyStr.replace_space_underscore (PyStr.lower person_name).

(** Lines 102-119: the record bound to one dataset folder. The result is
    [None] exactly when the script would raise. *)
Definition resolve (db : student_db) (person_name : string) : option info :=
  let student_id := student_id_of person_name in
  if contains db student_id then getitem db student_id
  else
    match search_by_name db person_name with
    | Some i => Some i
    | None => Some placeholder
    end.

(** State of the loop over [os.listdir(Config.DATASET_PATH)]. *)
Record index := {
  label_map : gmap Z string;
  name_to_info : gmap string info;
  label_id : Z
}.

Definition empty_index : index :=
  {| label_map := ∅; name_to_info := ∅; label_id := 0 |}.

(** One iteration of lines 96-121; an entry is a name and whether it is a
    directory. [None] when [resolve] raises. *)
Definition add_entry (db : student_db) (ix : index) (entry : string * bool)
  : option index :=
  let '(person_name, is_dir) := entry in
  if is_dir then
    i ← resolve db person_name;
    Some {| label_map := <[label_id ix := person_name]> (label_map ix);
            name_to_info := <[person_name := i]> (name_to_info ix);
            label_id := label_id ix + 1 |}
  else Some ix.

Fixpoint build_from (db : student_db) (ix : index) (listing : list (string * bool))
  : option index :=
  match listing with
  | [] => Some ix
  | entry :: rest => ix' ← add_entry db ix entry; build_from db ix' rest
  end.

Definition build (db : student_db) (listing : list (string * bool)) : option index :=
  build_from db empty_index listing.

(** What the main loop reads for a predicted label (lines 233-237). *)
Record record := {
  rec_name : string;
  rec_roll_no : string;
  rec_branch : string;
  rec_section : string
}.

Definition lookup (ix : index) (label : Z) : record :=
  let name := default "Unknown" (label_map ix !! label) in
  let student_info := default (∅ : info) (name_to_info ix !! name) in
  {| rec_name := name;
     rec_roll_no := default "N/A" (student_info !! "rollNo");
     rec_branch := default "UNKNOWN" (student_info !! "branch");
     rec_section := default "UNKNOWN" (student_info !! "section") |}.

(** Lines 126-129: the students of the session's class. *)
Definition in_class (branch section : string) (i : info) : Prop :=
  i !! "branch" = Some branch ∧ i !! "section" = Some section.

Definition class_students (branch section : string) (ix : index)
  : gmap string info :=
  filter (λ kv, in_class branch section kv.2) (name_to_info ix).

End Roster.

(** ** Observable effects, rows and session state *)

(** A row of [attendance.csv]:
    [[name, roll_no, branch, section, date_str, time_str]]. *)
Abbreviation row := (list string).

Definition row_name (r : row) : string := hd "" r.

(** [datetime.now()]: the two [strftime] renderings the script uses and the
    instant in seconds. *)
Record datetime := {
  date_str : string;
  time_str : string;
  seconds : Z
}.

(** The messages the script prints. *)
Inductive message :=
| MsgUsage
| MsgNoStudentsWarning (branch section : string)
| MsgClassSize (n : nat) (branch section : string)
| MsgCreatedCsv
| MsgExit (what : string)
| MsgMarked (name roll_no branch section time : string)
| MsgCannotReadCamera
| MsgStoppingByUser
| MsgStoppedCtrlC
| MsgErrorDuringRecognition
| MsgErrorWriting
| MsgSessionCompleted
| MsgTotalPresent (n : nat)
| MsgStudentsPresent (present : list (string * string))
| MsgNoStudentsMarked.

Inductive effect :=
| Print (m : message)
| OpenAppend                     (* [open(filename, "a")] is attempted *)
| WriteRow (r : row)             (* the row [r] of [writer.writerow] reaches the file *)
| QueueAppend (r : row)          (* [attendance_queue.append(r)] *)
| DetectFaces (frame_no : Z)     (* [face_cascade.detectMultiScale] is called *)
| ShowFrame (present : nat)      (* [cv2.imshow], with the count on the overlay *)
| CamRelease
| DestroyAllWindows.

#[global] Instance message_eq_dec : EqDecision message.
Proof. solve_decision. Defined.
#[global] Instance effect_eq_dec : EqDecision effect.
Proof. solve_decision. Defined.

Inductive status := unknown | correct_class | wrong_class.

(** One entry of [last_detection_results]. *)
Record result := {
  res_bbox : Z * Z * Z * Z;
  res_name : string;
  res_roll_no : string;
  res_color : Z * Z * Z;
  res_status : status;
  res_confidence : Q;
  res_marked : option bool;
  res_correct_class : option string
}.

Record state := {
  marked_names : gset string;
  recognition_cooldown : gmap string datetime;
  attendance_queue : list row;
  frame_count : Z;
  last_detection_results : list result;
  csv_file : list row;           (* the rows of [Config.ATTENDANCE_CSV] *)
  trace : list effect
}.

Definition emit (e : effect) (st : state) : state :=
  {| marked_names := marked_names st;
     recognition_cooldown := recognition_cooldown st;
     attendance_queue := attendance_queue st;
     frame_count := frame_count st;
     last_detection_results := last_detection_results st;
     csv_file := csv_file st;
     trace := trace st ++ [e] |}.

Definition print (m : message) : state → state := emit (Print m).

(** The rows appended to the queue, the rows written and the frames handed
    to the detector, as recorded by a trace. *)
Definition appended (t : list effect) : list row :=
  omap (λ e, match e with QueueAppend r => Some r | _ => None end) t.

Definition written (t : list effect) : list row :=
  omap (λ e, match e with WriteRow r => Some r | _ => None end) t.

Definition detected (t : list effect) : list Z :=
  omap (λ e, match e with DetectFaces n => Some n | _ => None end) t.

Definition opens (t : list effect) : nat :=
  length (filter (λ e, e = OpenAppend) t).

(** ** The batched writer *)

(** How the file system behaves during one call of
    [batch_write_attendance]. [open(filename, "a")] returns a buffered
    file: [writerow] hands its row to the buffer, and the rows reach the
    file when the buffer is written out, at the latest by the [close()]
    that leaving the [with] block performs.
    - [NoFault]: every call works.
    - [OpenFails]: [open] raises.
    - [WriteFailsAt k]: the [k]-th call of [writerow] (counted from 0)
      raises on its own row ([csv.Error], [UnicodeEncodeError]); the rows
      handed over before it are written out when the [with] block closes
      the file. A [k] beyond the last row of the queue is a call that meets
      no failure.
    - [DeviceFails calls durable]: writing the buffer out fails (disk full,
      device error), and of the rows handed to [writerow] only the first
      [durable] are in the file afterwards. [calls] calls of [writerow]
      return; the exception is raised by the next call or, when the queue
      is used up first, by [close()]. *)
Inductive io_fault :=
| NoFault
| OpenFails
| WriteFailsAt (k : nat)
| DeviceFails (calls durable : nat).

(** The state after [rows] have reached the file one by one. *)
Definition wrote (rows : list row) (st : state) : state :=
  {| marked_names := marked_names st;
     recognition_cooldown := recognition_cooldown st;
     attendance_queue := attendance_queue st;
     frame_count := frame_count st;
     last_detection_results := last_detection_results st;
     csv_file := csv_file st ++ rows;
     trace := trace st ++ (WriteRow <$> rows) |}.

Module Writer.

(** The [while queue: writer.writerow(queue.popleft())] loop on a device
    that works. [budget] is the number of [writerow] calls that succeed
    before one raises ([None]: all succeed). The argument
    [queue.popleft()] is evaluated before [writerow] is called, so the row
    of the raising call has left the queue. The boolean tells whether an
    exception was raised. *)
Fixpoint write_rows (budget : option nat) (st : state) (queue : list row)
  : state * list row * bool :=
  match queue with
  | [] => (st, [], false)
  | r :: rest =>
    match budget with
    | Some O => (st, rest, true)
    | _ =>
      let st' :=
        {| marked_names := marked_names st;
           recognition_cooldown := recognition_cooldown st;
           attendance_queue := attendance_queue st;
           frame_count := frame_count st;
           last_detection_results := last_detection_results st;
           csv_file := csv_file st ++ [r];
           trace := trace st ++ [WriteRow r] |} in
      write_rows (pred <$> budget) st' rest
    end
  end.

Definition set_queue (q : list row) (st : state) : state :=
  {| marked_names := marked_names st;
     recognition_cooldown := recognition_cooldown st;
     attendance_queue := q;
     frame_count := frame_count st;
     last_detection_results := last_detection_results st;
     csv_file := csv_file st;
     trace := trace st |}.

(** [batch_write_attendance(attendance_queue, Config.ATTENDANCE_CSV)],
    lines 28-39. When the device fails, [popleft] has taken the row of
    every call of [writerow] that was made, the one that raises included
    (all the rows when it is [close()] that raises), and the [except]
    clause prints the error whichever call raised. *)
Definition batch_write_attendance (fault : io_fault) (st : state) : state :=
  match attendance_queue st with
  | [] => st
  | _ :: _ =>
    let st1 := emit OpenAppend st in
    match fault with
    | OpenFails => print MsgErrorWriting st1
    | DeviceFails calls durable =>
      let queue := attendance_queue st1 in
      print MsgErrorWriting
        (set_queue (drop (S calls) queue)
           (wrote (take (Nat.min durable calls) queue) st1))
    | _ =>
      let budget := match fault with WriteFailsAt k => Some k | _ => None end in
      let '(st2, queue', raised) := write_rows budget st1 (attendance_queue st1) in
      let st3 := set_queue queue' st2 in
      if raised then print MsgErrorWriting st3 else st3
    end
  end.

End Writer.

(** ** The session *)

(** What is fixed when the loop starts: the class given on the command
    line, the roster index and the sampling interval (the local
    [process_every_n_frames], 2 in the script). *)
Record session := {
  branch : string;
  section : string;
  roster : Roster.index;
  process_every_n_frames : Z
}.

(** One face of [detectMultiScale]: its box, what [recognizer.predict]
    answers ([None]: it raises, and the face is skipped by the bare
    [except]), and the clock read by [datetime.now()] if it is marked. *)
Record face := {
  bbox : Z * Z * Z * Z;
  prediction : option (Z * Q);
  now : datetime
}.

Inductive exn := KeyboardInterrupt | OtherException.

(** One iteration of [while True] as the outside world decides it. *)
Record frame := {
  current_time : datetime;
  faces : list face;
  capture_raises : option exn;   (* raised by [cv2.flip], line 196 *)
  display_raises : option exn;   (* raised while drawing or showing, lines 276-319 *)
  key : Z;                       (* what [cv2.waitKey] returns *)
  flush_fault : io_fault         (* the file system, should a batch write happen *)
}.

Definition Qltb (a b : Q) : bool := negb (Qle_bool b a).

Module Controller.

Definition add_result (r : result) (st : state) : state :=
  {| marked_names := marked_names st;
     recognition_cooldown := recognition_cooldown st;
     attendance_queue := attendance_queue st;
     frame_count := frame_count st;
     last_detection_results := last_detection_results st ++ [r];
     csv_file := csv_file st;
     trace := trace st |}.

(** Lines 255-265: append the row, add the name, stamp the cooldown. *)
Definition mark (ss : session) (name roll_no : string) (current_time at_ : datetime)
    (st : state) : state :=
  let r := [name; roll_no; branch ss; section ss; date_str at_; time_str at_] in
  {| marked_names := marked_names st ∪ {[name]};
     recognition_cooldown := <[name := current_time]> (recognition_cooldown st);
     attendance_queue := attendance_queue st ++ [r];
     frame_count := frame_count st;
     last_detection_results := last_detection_results st;
     csv_file := csv_file st;
     trace := trace st ++ [QueueAppend r;
                           Print (MsgMarked name roll_no (branch ss) (section ss)
                                            (time_str at_))] |}.

(** The body of [for (x, y, w, h) in faces], lines 216-273. *)
Definition process_face (ss : session) (current_time : datetime)
    (st : state) (f : face) : state :=
  match prediction f with
  | None => st
  | Some (label, confidence) =>
    if Qltb confidence Config.RECOGNITION_CONFIDENCE_THRESHOLD then
      let rc := Roster.lookup (roster ss) label in
      let name := Roster.rec_name rc in
      let roll_no := Roster.rec_roll_no rc in
      let student_branch := Roster.rec_branch rc in
      let student_section := Roster.rec_section rc in
      if (String.eqb student_branch (branch ss)
          && String.eqb student_section (section ss))%bool then
        let last_mark_time := recognition_cooldown st !! name in
        let time_since_last_mark :=
          match last_mark_time with
          | Some t => seconds current_time - seconds t
          | None => 999
          end in
        let st' :=
          if decide (name ∈ marked_names st) then st
          else mark ss name roll_no current_time (now f) st in
        add_result
          {| res_bbox := bbox f; res_name := name; res_roll_no := roll_no;
             res_color := (0, 255, 0); res_status := correct_class;
             res_confidence := confidence;
             res_marked := Some (bool_decide (name ∈ marked_names st'));
             res_correct_class := None |} st'
      else
        add_result
          {| res_bbox := bbox f; res_name := name; res_roll_no := roll_no;
             res_color := (0, 165, 255); res_status := wrong_class;
             res_confidence := confidence;
             res_marked := None;
             res_correct_class :=
               Some (student_branch +:+ "-" +:+ student_section) |} st
    else
      add_result
        {| res_bbox := bbox f; res_name := "Unknown"; res_roll_no := "";
           res_color := (0, 0, 255); res_status := unknown;
           res_confidence := confidence;
           res_marked := None; res_correct_class := None |} st
  end.

Definition set_frame_count (n : Z) (st : state) : state :=
  {| marked_names := marked_names st;
     recognition_cooldown := recognition_cooldown st;
     attendance_queue := attendance_queue st;
     frame_count := n;
     last_detection_results := last_detection_results st;
     csv_file := csv_file st;
     trace := trace st |}.

Definition clear_results (st : state) : state :=
  {| marked_names := marked_names st;
     recognition_cooldown := recognition_cooldown st;
     attendance_queue := attendance_queue st;
     frame_count := frame_count st;
     last_detection_results := [];
     csv_file := csv_file st;
     trace := trace st |}.

(** Lines 203-273 when [should_process] holds. *)
Definition sample (ss : session) (fr : frame) (st : state) : state :=
  let st1 := emit (DetectFaces (frame_count st)) st in
  foldl (process_face ss (current_time fr)) (clear_results st1) (faces fr).

Inductive exit_reason := CameraReadFailed | UserQuit | Raised (e : exn).

Definition is_quit (k : Z) : bool :=
  let key := Z.land k 255 in ((key =? 113)%Z || (key =? 81)%Z)%bool.

(** The [while True] loop, lines 187-328. The list holds the frames the
    camera delivers; once it is used up [cam.read()] answers
    [ret = False]. A zero sampling interval makes [%] raise
    [ZeroDivisionError]. *)
Fixpoint loop (ss : session) (frames : list frame) (st : state)
  : state * exit_reason :=
  match frames with
  | [] => (print MsgCannotReadCamera st, CameraReadFailed)
  | fr :: rest =>
    let st1 := set_frame_count (frame_count st + 1) st in
    match capture_raises fr with
    | Some e => (st1, Raised e)
    | None =>
      if (process_every_n_frames ss =? 0)%Z then (st1, Raised OtherException)
      else
        let should_process :=
          (frame_count st1 mod process_every_n_frames ss =? 0)%Z in
        let st2 := if should_process then sample ss fr st1 else st1 in
        match display_raises fr with
        | Some e => (st2, Raised e)
        | None =>
          let st3 := emit (ShowFrame (size (marked_names st2))) st2 in
          if is_quit (key fr) then (print MsgStoppingByUser st3, UserQuit)
          else
            let st4 :=
              if (frame_count st3 mod Config.BATCH_WRITE_INTERVAL =? 0)%Z then
                match attendance_queue st3 with
                | [] => st3
                | _ :: _ => Writer.batch_write_attendance (flush_fault fr) st3
                end
              else st3 in
            loop ss rest st4
        end
    end
  end.

(** Lines 330-343: the handlers and the [finally] block. *)
Definition handlers (reason : exit_reason) (st : state) : state :=
  match reason with
  | Raised KeyboardInterrupt => print MsgStoppedCtrlC st
  | Raised OtherException => print MsgErrorDuringRecognition st
  | _ => st
  end.

Definition finally (final_fault : io_fault) (st : state) : state :=
  let st1 :=
    match attendance_queue st with
    | [] => st
    | _ :: _ => Writer.batch_write_attendance final_fault st
    end in
  emit DestroyAllWindows (emit CamRelease st1).

(** Lines 345-362: the summary. *)
Definition present_list (ss : session) (st : state) : list (string * string) :=
  (λ name,
     let i := default (∅ : info) (Roster.name_to_info (roster ss) !! name) in
     (name, default "N/A" (i !! "rollNo")))
  <$> merge_sort String.le (elements (marked_names st)).

Definition summary (ss : session) (st : state) : state :=
  let st1 := print MsgSessionCompleted st in
  let st2 := print (MsgTotalPresent (size (marked_names st1))) st1 in
  if decide (marked_names st2 = ∅) then print MsgNoStudentsMarked st2
  else print (MsgStudentsPresent (present_list ss st2)) st2.

(** From the [try] to the end of the script. *)
Definition run (ss : session) (frames : list frame) (final_fault : io_fault)
    (st : state) : state * exit_reason :=
  let '(st1, reason) := loop ss frames st in
  (summary ss (finally final_fault (handlers reason st1)), reason).

End Controller.

(** ** Start-up, lines 42-184 *)

Inductive db_file := DbMissing | DbUnreadable | DbLoaded (db : student_db).

(** [load_student_database()], lines 17-25. *)
Definition load_student_database (f : db_file) : student_db :=
  match f with
  | DbLoaded db => db
  | DbMissing | DbUnreadable => []
  end.

(** What the script finds when it is launched. *)
Record environment := {
  argv : list string;
  student_db_file : db_file;
  trainer_model_exists : bool;
  recognizer_reads : bool;
  face_cascade_empty : bool;
  dataset_exists : bool;
  dataset_listing : list (string * bool);   (* [os.listdir] with [os.path.isdir] *)
  attendance_csv : option (list row);       (* [None]: the file does not exist *)
  camera_opens : bool
}.

Inductive outcome :=
| Exited (code : Z) (out : list effect)      (* [sys.exit(code)] before the loop *)
| Uncaught (out : list effect)               (* an exception outside the [try] *)
| Running (ss : session) (st : state).       (* the [while True] loop is entered *)

Definition header : row := ["Name"; "RollNo"; "Branch"; "Section"; "Date"; "Time"].

Definition startup (env : environment) : outcome :=
  match argv env with
  | _ :: b :: s :: _ =>
    let branch := PyStr.upper b in
    let section := PyStr.upper s in
    let student_db := load_student_database (student_db_file env) in
    if negb (trainer_model_exists env) then
      Exited 1 [Print (MsgExit "trainer model not found")]
    else if negb (recognizer_reads env) then
      Exited 1 [Print (MsgExit "error loading model")]
    else if face_cascade_empty env then
      Exited 1 [Print (MsgExit "could not load face cascade")]
    else if negb (dataset_exists env) then
      Exited 1 [Print (MsgExit "dataset folder not found")]
    else
      match Roster.build student_db (dataset_listing env) with
      | None => Uncaught []
      | Some ix =>
        let class_students := Roster.class_students branch section ix in
        let out1 :=
          if decide (class_students = ∅)
          then [Print (MsgNoStudentsWarning branch section)]
          else [Print (MsgClassSize (size class_students) branch section)] in
        let '(csv, out2) :=
          match attendance_csv env with
          | Some rows => (rows, out1)
          | None => ([header], (out1 ++ [Print MsgCreatedCsv])%list)
          end in
        if negb (camera_opens env) then
          Exited 1 (out2 ++ [Print (MsgExit "cannot open camera")])%list
        else
          Running
            {| branch := branch; section := section; roster := ix;
               process_every_n_frames := 2 |}
            {| marked_names := ∅; recognition_cooldown := ∅;
               attendance_queue := []; frame_count := 0;
               last_detection_results := []; csv_file := csv;
               trace := out2 |}
      end
  | _ => Exited 1 [Print MsgUsage]
  end.

(** The whole script. *)
Inductive completion :=
| NotStarted (o : outcome)
| Completed (st : state) (reason : Controller.exit_reason).

Definition main (env : environment) (frames : list frame) (final_fault : io_fault)
  : completion :=
  match startup env with
  | Running ss st =>
    let '(st', reason) := Controller.run ss frames final_fault st in
    Completed st' reason
  | o => NotStarted o
  end.

(** ** The roster and start-up on the database as [json.load] returns it *)

(** The definitions above take [student_database.json] as registration
    writes it, every field of a record a string, and case mappings that
    act on ASCII letters. The file itself may hold any JSON value in a
    field, and [str.lower] and [str.upper] follow the Unicode tables of
    the interpreter. Lines 42-155 are given here without either
    assumption: a field is a JSON value, on which [.lower()] raises
    [AttributeError] unless it is a string, and the two case mappings are
    parameters. *)

Inductive json :=
| JString (s : string)
| JNumber (n : Z)
| JBool (b : bool)
| JNull
| JCompound.                     (* an array or an object *)

(** A record of the database, and [student_db.items()] in insertion
    order. *)
Abbreviation raw_info := (gmap string json).
Abbreviation raw_db := (list (string * raw_info)).

Inductive error := KeyError | AttributeError | OSError.

Inductive raising (A : Type) :=
| Returns (a : A)
| Raises (e : error).

Arguments Returns {A} a.
Arguments Raises {A} e.

Module Raw.

(** A database of string fields, as a database of JSON values. *)
Definition of_strings (db : student_db) : raw_db :=
  (λ kv : string * info, (kv.1, JString <$> kv.2)) <$> db.

(** Whether [info.get('name', '')] is a string. *)
Definition string_name (i : raw_info) : bool :=
  match default (JString "") (i !! "name") with
  | JString _ => true
  | _ => false
  end.

Definition names_are_strings (db : raw_db) : bool :=
  forallb (λ kv, string_name kv.2) db.

(** The record bound when neither search succeeds (lines 115-119). *)
Definition placeholder : raw_info :=
  <["rollNo" := JString "N/A"]>
    (<["branch" := JString "UNKNOWN"]> (<["section" := JString "UNKNOWN"]> ∅)).

(** State of the loop over [os.listdir(Config.DATASET_PATH)]. *)
Record index := {
  label_map : gmap Z string;
  name_to_info : gmap string raw_info;
  label_id : Z
}.

Definition empty_index : index :=
  {| label_map := ∅; name_to_info := ∅; label_id := 0 |}.

(** What the script finds when it is launched: the facts of
    [environment] other than the database, the dictionary that
    [load_student_database()] returns (empty when the file is missing or
    cannot be parsed), and whether [open(Config.ATTENDANCE_CSV, "w")]
    works. *)
Record world := {
  facts : environment;
  database : raw_db;
  csv_creatable : bool
}.

Inductive verdict :=
| Exits (code : Z)                               (* [sys.exit(code)] *)
| Dies (e : error)                               (* an exception outside the [try] *)
| Enters (branch section : string) (ix : index). (* the loop is reached *)

Section CaseMappings.

(** [str.lower] and [str.upper] *)
Variables lower upper : string → string.

(** [key in student_db] *)
Definition contains (db : raw_db) (key : string) : bool :=
  existsb (λ kv, String.eqb kv.1 key) db.

(** [student_db[key]] *)
Definition getitem (db : raw_db) (key : string) : raising raw_info :=
  match List.find (λ kv, String.eqb kv.1 key) db with
  | Some kv => Returns kv.2
  | None => Raises KeyError
  end.

(** [info.get('name', '').lower() == person_name.lower()], line 109 *)
Definition name_matches (person_name : string) (i : raw_info) : raising bool :=
  match default (JString "") (i !! "name") with
  | JString n => Returns (String.eqb (lower n) (lower person_name))
  | _ => Raises AttributeError
  end.

(** The [for sid, info in student_db.items()] search of lines 107-112. *)
Fixpoint search_by_name (db : raw_db) (person_name : string)
  : raising (option raw_info) :=
  match db with
  | [] => Returns None
  | (sid, i) :: rest =>
    match name_matches person_name i with
    | Returns true => Returns (Some i)
    | Returns false => search_by_name rest person_name
    | Raises e => Raises e
    end
  end.

(** Lines 102-119: the record bound to one dataset folder. *)
Definition resolve (db : raw_db) (person_name : string) : raising raw_info :=
  let student_id := PyStr.replace_space_underscore (lower person_name) in
  if contains db student_id then getitem db student_id
  else
    match search_by_name db person_name with
    | Returns (Some i) => Returns i
    | Returns None => Returns placeholder
    | Raises e => Raises e
    end.

(** One iteration of lines 96-121. *)
Definition add_entry (db : raw_db) (ix : index) (entry : string * bool)
  : raising index :=
  let '(person_name, is_dir) := entry in
  if is_dir then
    match resolve db person_name with
    | Returns i =>
      Returns {| label_map := <[label_id ix := person_name]> (label_map ix);
                 name_to_info := <[person_name := i]> (name_to_info ix);
                 label_id := label_id ix + 1 |}
    | Raises e => Raises e
    end
  else Returns ix.

Fixpoint build_from (db : raw_db) (ix : index) (listing : list (string * bool))
  : raising index :=
  match listing with
  | [] => Returns ix
  | entry :: rest =>
    match add_entry db ix entry with
    | Returns ix' => build_from db ix' rest
    | Raises e => Raises e
    end
  end.

Definition build (db : raw_db) (listing : list (string * bool)) : raising index :=
  build_from db empty_index listing.

(** Lines 42-155: from the first line to the opening of the camera. The
    class roster of lines 126-135 reads the records with [.get] and [==],
    which do not raise, and decides nothing. *)
Definition startup (w : world) : verdict :=
  let env := facts w in
  match argv env with
  | _ :: b :: s :: _ =>
    let branch := upper b in
    let section := upper s in
    if negb (trainer_model_exists env) then Exits 1
    else if negb (recognizer_reads env) then Exits 1
    else if face_cascade_empty env then Exits 1
    else if negb (dataset_exists env) then Exits 1
    else
      match build (database w) (dataset_listing env) with
      | Raises e => Dies e
      | Returns ix =>
        match attendance_csv env, csv_creatable w with
        | None, false => Dies OSError
        | _, _ =>
          if negb (camera_opens env) then Exits 1
          else Enters branch section ix
        end
      end
  | _ => Exits 1
  end.

End CaseMappings.

(** The world of an [environment] whose database holds strings. *)
Definition typed (env : environment) : world :=
  {| facts := env;
     database := of_strings (load_student_database (student_db_file env));
     csv_creatable := true |}.

End Raw.

(** ** A small classroom used in the examples *)

Module Sample.

Definition student (name roll br sec : string) : info :=
  <["name" := name]> (<["rollNo" := roll]> (<["branch" := br]>
    (<["section" := sec]> ∅))).

Definition db : student_db :=
  [("asha_rao", student "Asha Rao" "CSEA001" "CSE" "A");
   ("s17", student "Bala" "ECEB007" "ECE" "B")].

Definition env : environment :=
  {| argv := ["recognize_attendance.py"; "cse"; "a"];
     student_db_file := DbLoaded db;
     trainer_model_exists := true;
     recognizer_reads := true;
     face_cascade_empty := false;
     dataset_exists := true;
     dataset_listing := [("Asha Rao", true); ("bala", true);
                         ("notes.txt", false); ("Chitra", true)];
     attendance_csv := None;
     camera_opens := true |}.

Definition t0 : datetime :=
  {| date_str := "2026-01-05"; time_str := "09:00:00"; seconds := 0 |}.
Definition t1 : datetime :=
  {| date_str := "2026-01-05"; time_str := "09:00:01"; seconds := 1 |}.

Definition seen (label : Z) (confidence : Q) : face :=
  {| bbox := (0, 0, 120, 120); prediction := Some (label, confidence); now := t1 |}.

Definition quiet (fs : list face) : frame :=
  {| current_time := t0; faces := fs; capture_raises := None;
     display_raises := None; key := -1; flush_fault := NoFault |}.

Definition ix : Roster.index :=
  default Roster.empty_index (Roster.build db (dataset_listing env)).

Definition ss : session :=
  {| branch := "CSE"; section := "A"; roster := ix; process_every_n_frames := 2 |}.

Definition st0 : state :=
  {| marked_names := ∅; recognition_cooldown := ∅; attendance_queue := [];
     frame_count := 0; last_detection_results := []; csv_file := [header];
     trace := [] |}.

End Sample.

Example sample_startup_runs :
  startup Sample.env
  = Running Sample.ss
      {| marked_names := ∅; recognition_cooldown := ∅; attendance_queue := [];
         frame_count := 0; last_detection_results := []; csv_file := [header];
         trace := [Print (MsgClassSize 1 "CSE" "A"); Print MsgCreatedCsv] |}.
Proof. vm_compute. reflexivity. Qed.

(** * Properties *)

(** ** Roster resolution *)

Section RosterFacts.

Variable db : student_db.

Lemma contains_getitem (key : string) :
  Roster.contains db key = true → is_Some (Roster.getitem db key).
Proof.
  unfold Roster.contains, Roster.getitem.
  induction db as [|[k i] rest IH]; simpl; [discriminate|].
  destruct (String.eqb k key); simpl; [eauto | exact IH].
Qed.

Lemma getitem_elem (key : string) (i : info) :
  Roster.getitem db key = Some i → (key, i) ∈ db.
Proof.
  unfold Roster.getitem.
  induction db as [|[k j] rest IH]; simpl; [discriminate|].
  destruct (String.eqb_spec k key) as [->|]; simpl.
  - intros [= ->]. left.
  - intros H. right. auto.
Qed.

Lemma contains_false (key : string) (i : info) :
  Roster.contains db key = false → (key, i) ∉ db.
Proof.
  unfold Roster.contains.
  induction db as [|[k j] rest IH]; simpl; intros H Hin.
  - inversion Hin.
  - apply orb_false_iff in H as [Hk Hrest].
    apply elem_of_cons in Hin as [[= <- <-]|Hin].
    + rewrite String.eqb_refl in Hk. discriminate.
    + exact (IH Hrest Hin).
Qed.

Lemma resolve_is_Some (person_name : string) :
  is_Some (Roster.resolve db person_name).
Proof.
  unfold Roster.resolve.
  destruct (Roster.contains db _) eqn:Hc.
  - by apply contains_getitem.
  - destruct (Roster.search_by_name db person_name); eauto.
Qed.

Lemma add_entry_is_Some (ix : Roster.index) (entry : string * bool) :
  is_Some (Roster.add_entry db ix entry).
Proof.
  destruct entry as [person_name [|]]; simpl; [|eauto].
  destruct (resolve_is_Some person_name) as [i ->]. simpl. eauto.
Qed.

Lemma build_from_is_Some (listing : list (string * bool)) (ix : Roster.index) :
  is_Some (Roster.build_from db ix listing).
Proof.
  revert ix. induction listing as [|entry rest IH]; intros ix; simpl; [eauto|].
  destruct (add_entry_is_Some ix entry) as [ix' ->]. simpl. apply IH.
Qed.

End RosterFacts.

(** A label the index does not know, with no folder called "Unknown", reads
    as the placeholder values. *)
Lemma lookup_unbound (ix : Roster.index) (label : Z) :
  Roster.label_map ix !! label = None →
  Roster.name_to_info ix !! "Unknown" = None →
  Roster.lookup ix label
  = {| Roster.rec_name := "Unknown"; Roster.rec_roll_no := "N/A";
       Roster.rec_branch := "UNKNOWN"; Roster.rec_section := "UNKNOWN" |}.
Proof. intros H1 H2. unfold Roster.lookup. rewrite H1. simpl. rewrite H2. reflexivity. Qed.

Example resolve_exact_key :
  Roster.resolve Sample.db "Asha Rao"
  = Some (Sample.student "Asha Rao" "CSEA001" "CSE" "A").
Proof. vm_compute. reflexivity. Qed.

Example resolve_by_name :
  Roster.resolve Sample.db "bala" = Some (Sample.student "Bala" "ECEB007" "ECE" "B").
Proof. vm_compute. reflexivity. Qed.

Example resolve_placeholder :
  Roster.resolve Sample.db "Chitra" = Some Roster.placeholder.
Proof. vm_compute. reflexivity. Qed.

Lemma build_from_binds (db : student_db) (listing : list (string * bool)) :
  ∀ (ix ix' : Roster.index) (name : string),
    Roster.build_from db ix listing = Some ix' →
    Roster.name_to_info ix' !! name
    = if decide ((name, true) ∈ listing) then Roster.resolve db name
      else Roster.name_to_info ix !! name.
Proof.
  induction listing as [|[n d] rest IH]; intros ix ix' name;
    cbn [Roster.build_from Roster.add_entry].
  - intros [= <-]. rewrite decide_False; [reflexivity | apply not_elem_of_nil].
  - destruct d; simpl.
    + destruct (resolve_is_Some db n) as [i Hi]. rewrite Hi. simpl.
      intros Hb. rewrite (IH _ _ name Hb). simpl.
      destruct (decide ((name, true) ∈ rest)) as [Hr|Hr].
      * rewrite decide_True by (by right). reflexivity.
      * destruct (decide (n = name)) as [->|Hne].
        -- rewrite decide_True by left. by rewrite lookup_insert_eq.
        -- rewrite lookup_insert_ne by done.
           rewrite decide_False; [reflexivity|].
           intros Hin. apply elem_of_cons in Hin as [Heq|Hin]; [inversion Heq; congruence | done].
    + intros Hb. rewrite (IH _ _ name Hb).
      destruct (decide ((name, true) ∈ rest)) as [Hr|Hr].
      * rewrite decide_True by (by right). reflexivity.
      * rewrite decide_False; [reflexivity|].
        intros Hin. apply elem_of_cons in Hin as [Heq|Hin]; [inversion Heq; congruence | done].
Qed.

(** ** Resolution on the database as [json.load] returns it *)

(** The record's name is a string that equals the folder name once both
    are lower-cased. *)
Definition same_name (lower : string → string) (person_name : string)
    (i : raw_info) : Prop :=
  ∃ n, default (JString "") (i !! "name") = JString n ∧
       lower n = lower person_name.

Section RawFacts.

Variable lower : string → string.

Lemma raw_contains_iff (db : raw_db) (key : string) :
  Raw.contains db key = true ↔ key ∈ (db.*1).
Proof.
  unfold Raw.contains. induction db as [|[k i] rest IH]; simpl.
  - split; [discriminate | by intros ?%elem_of_nil].
  - rewrite orb_true_iff, IH, elem_of_cons, String.eqb_eq.
    split; (intros [H|H]; [left; by symmetry | by right]).
Qed.

Lemma raw_getitem_first (db : raw_db) (key : string) :
  key ∈ (db.*1) →
  ∃ pre i post, db = pre ++ (key, i) :: post ∧ (key ∉ pre.*1) ∧
                Raw.getitem db key = Returns i.
Proof.
  unfold Raw.getitem. induction db as [|[k i] rest IH]; simpl.
  - by intros ?%elem_of_nil.
  - intros Hin. destruct (String.eqb_spec k key) as [->|Hne].
    + exists [], i, rest. split; [done|]. split; [apply not_elem_of_nil | done].
    + apply elem_of_cons in Hin as [?|Hin]; [congruence|].
      destruct (IH Hin) as (pre & j & post & -> & Hpre & Hg).
      exists ((k, i) :: pre), j, post. split; [done|]. split; [|done].
      simpl. rewrite not_elem_of_cons. split; [congruence | done].
Qed.

Lemma raw_name_matches_spec (person_name : string) (i : raw_info) :
  Raw.string_name i = true →
  ∃ b, Raw.name_matches lower person_name i = Returns b ∧
       (b = true ↔ same_name lower person_name i).
Proof.
  unfold Raw.string_name, Raw.name_matches, same_name.
  destruct (default (JString "") (i !! "name")) as [n| | | |]; try discriminate.
  intros _. eexists. split; [reflexivity|]. rewrite String.eqb_eq. split.
  - intros H. by exists n.
  - by intros (n' & [= <-] & H).
Qed.

Lemma raw_search_spec (db : raw_db) (person_name : string) :
  Raw.names_are_strings db = true →
  (∃ pre sid i post,
     db = pre ++ (sid, i) :: post ∧ same_name lower person_name i ∧
     Forall (λ kv, ¬ same_name lower person_name kv.2) pre ∧
     Raw.search_by_name lower db person_name = Returns (Some i))
  ∨ (Forall (λ kv, ¬ same_name lower person_name kv.2) db ∧
     Raw.search_by_name lower db person_name = Returns None).
Proof.
  unfold Raw.names_are_strings.
  induction db as [|[k i] rest IH]; simpl.
  - intros _. right. by split.
  - intros [Hi Hrest]%andb_true_iff.
    destruct (raw_name_matches_spec person_name i Hi) as (b & -> & Hb).
    destruct b.
    + left. exists [], k, i, rest. split; [done|]. split; [by apply Hb|]. by split.
    + assert (Hn : ¬ same_name lower person_name i).
      { intros H. apply Hb in H. discriminate. }
      destruct (IH Hrest) as [(pre & sid & j & post & -> & Hj & Hpre & Hs)|[Hall Hs]].
      * left. exists ((k, i) :: pre), sid, j, post.
        split; [done|]. split; [done|]. split; [by constructor | done].
      * right. split; [by constructor | done].
Qed.

Lemma raw_resolve_returns (db : raw_db) (person_name : string) :
  Raw.names_are_strings db = true →
  ∃ i, Raw.resolve lower db person_name = Returns i.
Proof.
  intros Hs. unfold Raw.resolve.
  destruct (Raw.contains db _) eqn:Hc.
  - apply raw_contains_iff in Hc.
    destruct (raw_getitem_first db _ Hc) as (_ & i & _ & _ & _ & ->). eauto.
  - destruct (raw_search_spec db person_name Hs)
      as [(_ & _ & i & _ & _ & _ & _ & ->)|[_ ->]]; eauto.
Qed.

Lemma raw_build_from_binds (db : raw_db) (listing : list (string * bool)) :
  Raw.names_are_strings db = true →
  ∀ ix, ∃ ix',
    Raw.build_from lower db ix listing = Returns ix' ∧
    ∀ name,
      Raw.name_to_info ix' !! name
      = if decide ((name, true) ∈ listing)
        then match Raw.resolve lower db name with
             | Returns i => Some i
             | Raises _ => None
             end
        else Raw.name_to_info ix !! name.
Proof.
  intros Hs. induction listing as [|[n d] rest IH]; intros ix;
    cbn [Raw.build_from Raw.add_entry].
  - exists ix. split; [done|]. intros name.
    rewrite decide_False; [done | apply not_elem_of_nil].
  - destruct d.
    + destruct (raw_resolve_returns db n Hs) as [i Hi]. rewrite Hi.
      edestruct IH as (ix' & -> & Hb). exists ix'. split; [done|].
      intros name. rewrite Hb. simpl.
      destruct (decide ((name, true) ∈ rest)) as [Hr|Hr].
      * rewrite decide_True by (by right). done.
      * destruct (decide (n = name)) as [->|Hne].
        -- rewrite decide_True by left. by rewrite lookup_insert_eq, Hi.
        -- rewrite lookup_insert_ne by done.
           rewrite decide_False; [done|].
           intros [Heq|Hin]%elem_of_cons; [congruence | done].
    + destruct (IH ix) as (ix' & -> & Hb). exists ix'. split; [done|].
      intros name. rewrite Hb.
      destruct (decide ((name, true) ∈ rest)) as [Hr|Hr].
      * rewrite decide_True by (by right). done.
      * rewrite decide_False; [done|].
        intros [Heq|Hin]%elem_of_cons; [congruence | done].
Qed.

End RawFacts.

(** On a database of strings and with ASCII names, resolution on the JSON
    values is the resolution of [Roster]. *)
Lemma raw_contains_of_strings (db : student_db) (key : string) :
  Raw.contains (Raw.of_strings db) key = Roster.contains db key.
Proof.
  unfold Raw.contains, Roster.contains, Raw.of_strings.
  induction db as [|[k i] rest IH]; [done|].
  rewrite fmap_cons. cbn [existsb fst]. by rewrite IH.
Qed.

Lemma raw_getitem_of_strings (db : student_db) (key : string) :
  Raw.getitem (Raw.of_strings db) key
  = match Roster.getitem db key with
    | Some i => Returns (JString <$> i)
    | None => Raises KeyError
    end.
Proof.
  unfold Raw.getitem, Roster.getitem, Raw.of_strings.
  induction db as [|[k i] rest IH]; [done|].
  rewrite fmap_cons. cbn [List.find fst].
  destruct (String.eqb k key); [done | exact IH].
Qed.

Lemma raw_search_of_strings (db : student_db) (person_name : string) :
  Raw.search_by_name PyStr.lower (Raw.of_strings db) person_name
  = Returns (fmap (M := gmap string) JString <$> Roster.search_by_name db person_name).
Proof.
  unfold Roster.search_by_name, Raw.of_strings.
  induction db as [|[k i] rest IH]; [done|].
  rewrite fmap_cons. cbn [Raw.search_by_name List.find fst snd].
  unfold Raw.name_matches, Roster.name_matches.
  rewrite lookup_fmap.
  destruct (i !! "name") as [n|]; cbn -[String.eqb PyStr.lower];
    (destruct (String.eqb _ _); [reflexivity | exact IH]).
Qed.

Lemma raw_placeholder_of_strings : JString <$> Roster.placeholder = Raw.placeholder.
Proof.
  unfold Roster.placeholder, Raw.placeholder.
  by rewrite !fmap_insert, fmap_empty.
Qed.

Lemma raw_resolve_of_strings (db : student_db) (person_name : string) :
  Raw.resolve PyStr.lower (Raw.of_strings db) person_name
  = match Roster.resolve db person_name with
    | Some i => Returns (JString <$> i)
    | None => Raises KeyError
    end.
Proof.
  unfold Raw.resolve, Roster.resolve, Roster.student_id_of.
  rewrite raw_contains_of_strings, raw_getitem_of_strings, raw_search_of_strings.
  destruct (Roster.contains db _); [done|].
  destruct (Roster.search_by_name db person_name); simpl; [done|].
  by rewrite raw_placeholder_of_strings.
Qed.

Lemma names_are_strings_of_strings (db : student_db) :
  Raw.names_are_strings (Raw.of_strings db) = true.
Proof.
  unfold Raw.names_are_strings, Raw.of_strings, Raw.string_name.
  induction db as [|[k i] rest IH]; [done|].
  rewrite fmap_cons. cbn [forallb snd].
  rewrite lookup_fmap, IH. by destruct (i !! "name").
Qed.

Module NullName.

(** A database with one record, whose name is [null], and a dataset with
    one folder, "Asha", that no key of the database matches. *)
Definition db : raw_db :=
  [("s1", <["name" := JNull]> (<["rollNo" := JString "CSEA001"]>
            (<["branch" := JString "CSE"]> (<["section" := JString "A"]> ∅))))].

Definition listing : list (string * bool) := [("Asha", true)].

End NullName.

(** C7, as stated, fails. For a folder name that is not in the database
    the name search reaches a record whose name is not a string, and
    [.lower()] raises [AttributeError] on it: no record is bound, and the
    roster loop, which is outside the [try], ends with that exception. *)
Lemma roster_lookup_raises_on_null_name :
  Raw.names_are_strings NullName.db = false ∧
  Raw.contains NullName.db (PyStr.replace_space_underscore (PyStr.lower "Asha"))
  = false ∧
  Raw.resolve PyStr.lower NullName.db "Asha" = Raises AttributeError ∧
  Raw.build PyStr.lower NullName.db NullName.listing = Raises AttributeError.
Proof. repeat split; vm_compute; reflexivity. Qed.

(** C7, amended. On a student database whose records have string names
    (what registration writes), roster resolution is total and ordered,
    for every dataset listing and every folder name and whatever the case
    mapping of [str.lower]: building the index does not raise and binds
    each folder of the listing to its record, and the record of a folder
    name is (a) the database entry stored under the name's key (the name
    lower-cased, blanks replaced by underscores) when that key is present;
    otherwise (b) the first entry, in database order, whose ['name']
    equals the folder name once both are lower-cased; otherwise, when no
    entry has that key or that name, (c) the placeholder with roll number
    "N/A" and branch and section "UNKNOWN". *)
Theorem roster_lookup_total (lower : string → string) (db : raw_db)
    (listing : list (string * bool)) (person_name : string) :
  Raw.names_are_strings db = true →
  let key := PyStr.replace_space_underscore (lower person_name) in
  ∃ i : raw_info,
    Raw.resolve lower db person_name = Returns i ∧
    ((∃ pre post, db = pre ++ (key, i) :: post ∧ key ∉ (pre.*1))
     ∨ ((key ∉ db.*1) ∧
        ∃ pre sid post,
          db = pre ++ (sid, i) :: post ∧ same_name lower person_name i ∧
          Forall (λ kv, ¬ same_name lower person_name kv.2) pre)
     ∨ ((key ∉ db.*1) ∧
        Forall (λ kv, ¬ same_name lower person_name kv.2) db ∧
        i = Raw.placeholder ∧
        i !! "rollNo" = Some (JString "N/A") ∧
        i !! "branch" = Some (JString "UNKNOWN") ∧
        i !! "section" = Some (JString "UNKNOWN"))) ∧
    ∃ ix, Raw.build lower db listing = Returns ix ∧
          Raw.name_to_info ix !! person_name
          = if decide ((person_name, true) ∈ listing) then Some i else None.
Proof.
  intros Hs key.
  assert (Hr : ∃ i, Raw.resolve lower db person_name = Returns i ∧
    ((∃ pre post, db = pre ++ (key, i) :: post ∧ key ∉ (pre.*1))
     ∨ ((key ∉ db.*1) ∧
        ∃ pre sid post,
          db = pre ++ (sid, i) :: post ∧ same_name lower person_name i ∧
          Forall (λ kv, ¬ same_name lower person_name kv.2) pre)
     ∨ ((key ∉ db.*1) ∧
        Forall (λ kv, ¬ same_name lower person_name kv.2) db ∧
        i = Raw.placeholder ∧
        i !! "rollNo" = Some (JString "N/A") ∧
        i !! "branch" = Some (JString "UNKNOWN") ∧
        i !! "section" = Some (JString "UNKNOWN")))).
  { unfold Raw.resolve. fold key.
    destruct (Raw.contains db key) eqn:Hc.
    - apply raw_contains_iff in Hc.
      destruct (raw_getitem_first db key Hc) as (pre & i & post & E & Hpre & ->).
      exists i. split; [done|]. left. exists pre, post. by split.
    - assert (Hk : key ∉ (db.*1)).
      { rewrite <- raw_contains_iff, Hc. discriminate. }
      destruct (raw_search_spec lower db person_name Hs)
        as [(pre & sid & i & post & E & Hi & Hpre & ->)|[Hall ->]].
      + exists i. split; [done|]. right. left. split; [done|].
        exists pre, sid, post. split; [done|]. by split.
      + exists Raw.placeholder. split; [done|]. right. right.
        split; [done|]. split; [done|]. by repeat split. }
  destruct Hr as (i & Hi & Hcases). exists i. split; [done|]. split; [done|].
  destruct (raw_build_from_binds lower db listing Hs Raw.empty_index)
    as (ix & Hb & Hbind).
  exists ix. split; [exact Hb|]. rewrite Hbind, Hi.
  destruct (decide _); [done | apply lookup_empty].
Qed.

Lemma roster_lookup_total_witness :
  Raw.names_are_strings (Raw.of_strings Sample.db) = true ∧
  ∃ i, Raw.resolve PyStr.lower (Raw.of_strings Sample.db) "Chitra" = Returns i ∧
       i !! "rollNo" = Some (JString "N/A").
Proof.
  split; [reflexivity|].
  destruct (roster_lookup_total PyStr.lower (Raw.of_strings Sample.db)
              (dataset_listing Sample.env) "Chitra" eq_refl)
    as (i & Hi & Hcases & _).
  exists i. split; [exact Hi|].
  assert (E : Raw.resolve PyStr.lower (Raw.of_strings Sample.db) "Chitra"
              = Returns Raw.placeholder) by (vm_compute; reflexivity).
  rewrite E in Hi. injection Hi as <-. reflexivity.
Defined.

(** ** The batched writer *)

Section WriterFacts.

Lemma wrote_cons (r : row) (rows : list row) (st : state) :
  wrote rows (wrote [r] st) = wrote (r :: rows) st.
Proof. unfold wrote. simpl. by rewrite <- !(assoc_L (++)). Qed.

Lemma write_rows_all (queue : list row) :
  ∀ st, Writer.write_rows None st queue = (wrote queue st, [], false).
Proof.
  induction queue as [|r rest IH]; intros st; simpl.
  - unfold wrote. simpl. rewrite !app_nil_r. by destruct st.
  - rewrite IH. by rewrite <- wrote_cons.
Qed.

Lemma write_rows_budget (queue : list row) :
  ∀ (k : nat) st,
    Writer.write_rows (Some k) st queue
    = (wrote (take k queue) st, drop (S k) queue, bool_decide (k < length queue)%nat).
Proof.
  induction queue as [|r rest IH]; intros k st; simpl.
  - unfold wrote. rewrite take_nil. simpl. rewrite !app_nil_r. by destruct st.
  - destruct k as [|k]; simpl.
    + unfold wrote. simpl. rewrite !app_nil_r, drop_0. by destruct st.
    + rewrite IH, <- wrote_cons. do 2 f_equal.
      apply bool_decide_ext. lia.
Qed.

Lemma written_app (t1 t2 : list effect) :
  written (t1 ++ t2) = written t1 ++ written t2.
Proof. apply omap_app. Qed.

Lemma written_WriteRow (rows : list row) : written (WriteRow <$> rows) = rows.
Proof.
  induction rows as [|r rows IH]; [done|].
  change (written (WriteRow <$> r :: rows)) with (r :: written (WriteRow <$> rows)).
  by rewrite IH.
Qed.

Lemma appended_app (t1 t2 : list effect) :
  appended (t1 ++ t2) = appended t1 ++ appended t2.
Proof. apply omap_app. Qed.

Lemma appended_WriteRow (rows : list row) : appended (WriteRow <$> rows) = [].
Proof. induction rows as [|r rows IH]; simpl; [done|]. exact IH. Qed.

Lemma detected_app (t1 t2 : list effect) :
  detected (t1 ++ t2) = detected t1 ++ detected t2.
Proof. apply omap_app. Qed.

Lemma detected_WriteRow (rows : list row) : detected (WriteRow <$> rows) = [].
Proof. induction rows as [|r rows IH]; simpl; [done|]. exact IH. Qed.

Lemma opens_app (t1 t2 : list effect) : opens (t1 ++ t2) = (opens t1 + opens t2)%nat.
Proof. unfold opens. by rewrite filter_app, length_app. Qed.

Lemma opens_WriteRow (rows : list row) : opens (WriteRow <$> rows) = 0%nat.
Proof.
  unfold opens. induction rows as [|r rows IH]; simpl; [done|].
  rewrite filter_cons_False by done. exact IH.
Qed.


(** The call in closed form, for a queue that is not empty. *)
Lemma batch_write_no_fault (st : state) :
  attendance_queue st ≠ [] →
  Writer.batch_write_attendance NoFault st
  = Writer.set_queue [] (wrote (attendance_queue st) (emit OpenAppend st)).
Proof.
  intros Hq. unfold Writer.batch_write_attendance.
  destruct (attendance_queue st) as [|r q] eqn:E; [done|].
  simpl attendance_queue. rewrite E, write_rows_all. reflexivity.
Qed.

Lemma batch_write_open_fails (st : state) :
  attendance_queue st ≠ [] →
  Writer.batch_write_attendance OpenFails st
  = print MsgErrorWriting (emit OpenAppend st).
Proof.
  intros Hq. unfold Writer.batch_write_attendance.
  by destruct (attendance_queue st).
Qed.

Lemma batch_write_write_fails (k : nat) (st : state) :
  attendance_queue st ≠ [] →
  Writer.batch_write_attendance (WriteFailsAt k) st
  = let st' := Writer.set_queue (drop (S k) (attendance_queue st))
                 (wrote (take k (attendance_queue st)) (emit OpenAppend st)) in
    if bool_decide (k < length (attendance_queue st))%nat
    then print MsgErrorWriting st' else st'.
Proof.
  intros Hq. unfold Writer.batch_write_attendance.
  destruct (attendance_queue st) as [|r q] eqn:E; [done|].
  simpl attendance_queue. rewrite E, write_rows_budget. reflexivity.
Qed.

Lemma batch_write_device_fails (calls durable : nat) (st : state) :
  attendance_queue st ≠ [] →
  Writer.batch_write_attendance (DeviceFails calls durable) st
  = print MsgErrorWriting
      (Writer.set_queue (drop (S calls) (attendance_queue st))
         (wrote (take (Nat.min durable calls) (attendance_queue st))
            (emit OpenAppend st))).
Proof.
  intros Hq. unfold Writer.batch_write_attendance.
  destruct (attendance_queue st) as [|r q] eqn:E; [done|].
  simpl attendance_queue. rewrite E. reflexivity.
Qed.

End WriterFacts.

Lemma batch_write_no_fault_queue (st : state) :
  attendance_queue (Writer.batch_write_attendance NoFault st) = [].
Proof.
  destruct (decide (attendance_queue st = [])) as [E|Hq].
  - unfold Writer.batch_write_attendance. by rewrite E.
  - by rewrite batch_write_no_fault.
Qed.

Lemma flush_moves_queue_to_log_aux (st : state) :
  let st' := Writer.batch_write_attendance NoFault st in
  attendance_queue st' = [] ∧
  csv_file st' = csv_file st ++ attendance_queue st ∧
  written (trace st') = written (trace st) ++ attendance_queue st.
Proof.
  destruct (attendance_queue st) as [|r q] eqn:E.
  - unfold Writer.batch_write_attendance. rewrite E. simpl.
    by rewrite E, !app_nil_r.
  - rewrite batch_write_no_fault by (rewrite E; done). simpl.
    rewrite E, !written_app, written_WriteRow.
    simpl. by rewrite ?app_nil_r.
Qed.

(** C3. With a file system that works, [batch_write_attendance] appends the
    whole queue to the CSV file, each row once and in queue order, opens
    the file once for that, and leaves the queue empty; on an empty queue
    it returns at once, whatever the file system would do: the file is
    neither opened nor written. *)
Theorem flush_moves_queue_to_log (st : state) (fault : io_fault) :
  (let st' := Writer.batch_write_attendance NoFault st in
   attendance_queue st' = [] ∧
   csv_file st' = csv_file st ++ attendance_queue st ∧
   written (trace st') = written (trace st) ++ attendance_queue st ∧
   opens (trace st')
   = (opens (trace st) + if attendance_queue st is [] then 0 else 1)%nat ∧
   marked_names st' = marked_names st)
  ∧ Writer.batch_write_attendance fault (Writer.set_queue [] st)
    = Writer.set_queue [] st.
Proof.
  split; [|reflexivity].
  destruct (attendance_queue st) as [|r q] eqn:E.
  - unfold Writer.batch_write_attendance. rewrite E. simpl.
    rewrite E, !app_nil_r. repeat split; lia || reflexivity.
  - rewrite batch_write_no_fault by (rewrite E; done). simpl.
    rewrite E, !written_app, !opens_app, written_WriteRow, opens_WriteRow.
    change (opens [OpenAppend]) with 1%nat.
    simpl. rewrite ?app_nil_r. repeat split; lia || reflexivity.
Qed.

Module FlushFailure.

Definition r1 : row := ["Asha Rao"; "CSEA001"; "CSE"; "A"; "2026-01-05"; "09:00:01"].
Definition r2 : row := ["Dev"; "CSEA002"; "CSE"; "A"; "2026-01-05"; "09:00:02"].

Definition pending : state := Writer.set_queue [r1; r2] Sample.st0.


End FlushFailure.


(** A failure at [close()] loses more: every row has been taken from the
    queue by then, and when nothing of the buffer was written out none of
    them is in the file. *)
Example failed_close_loses_the_batch :
  let st' := Writer.batch_write_attendance (DeviceFails 2 0) FlushFailure.pending in
  opens (trace st') = 1%nat ∧
  attendance_queue st' = [] ∧
  csv_file st' = [header] ∧
  trace st' = [OpenAppend; Print MsgErrorWriting].
Proof. repeat split; reflexivity. Qed.



(** ** The decision procedure *)

Lemma Qltb_lt (a b : Q) : Qltb a b = true ↔ (a < b)%Q.
Proof.
  unfold Qltb. rewrite negb_true_iff, <- not_true_iff_false, Qle_bool_iff.
  split; [apply Qnot_le_lt | apply Qlt_not_le].
Qed.

Lemma Qltb_not_lt (a b : Q) : Qltb a b = false ↔ ¬ (a < b)%Q.
Proof. rewrite <- Qltb_lt. symmetry. apply not_true_iff_false. Qed.

Section Decision.

Variable ss : session.
Variable current_time : datetime.

(** The detection resolves to the session's class. *)
Definition same_class (rc : Roster.record) : Prop :=
  Roster.rec_branch rc = branch ss ∧ Roster.rec_section rc = section ss.

Lemma same_class_eqb (rc : Roster.record) :
  (String.eqb (Roster.rec_branch rc) (branch ss)
   && String.eqb (Roster.rec_section rc) (section ss))%bool = true
  ↔ same_class rc.
Proof.
  unfold same_class. rewrite andb_true_iff, !String.eqb_eq. reflexivity.
Qed.

Definition unknown_result (f : face) (confidence : Q) : result :=
  {| res_bbox := bbox f; res_name := "Unknown"; res_roll_no := "";
     res_color := (0, 0, 255); res_status := unknown;
     res_confidence := confidence;
     res_marked := None; res_correct_class := None |}.

Definition wrong_class_result (f : face) (rc : Roster.record) (confidence : Q)
  : result :=
  {| res_bbox := bbox f; res_name := Roster.rec_name rc;
     res_roll_no := Roster.rec_roll_no rc;
     res_color := (0, 165, 255); res_status := wrong_class;
     res_confidence := confidence;
     res_marked := None;
     res_correct_class :=
       Some (Roster.rec_branch rc +:+ "-" +:+ Roster.rec_section rc) |}.

Definition correct_class_result (f : face) (rc : Roster.record) (confidence : Q)
  : result :=
  {| res_bbox := bbox f; res_name := Roster.rec_name rc;
     res_roll_no := Roster.rec_roll_no rc;
     res_color := (0, 255, 0); res_status := correct_class;
     res_confidence := confidence;
     res_marked := Some true;
     res_correct_class := None |}.

Lemma process_face_skipped (st : state) (f : face) :
  prediction f = None → Controller.process_face ss current_time st f = st.
Proof. intros H. unfold Controller.process_face. by rewrite H. Qed.

Lemma process_face_rejected (st : state) (f : face) (label : Z) (confidence : Q) :
  prediction f = Some (label, confidence) →
  ¬ (confidence < Config.RECOGNITION_CONFIDENCE_THRESHOLD)%Q →
  Controller.process_face ss current_time st f
  = Controller.add_result (unknown_result f confidence) st.
Proof.
  intros Hp Hc%Qltb_not_lt. unfold Controller.process_face.
  rewrite Hp, Hc. reflexivity.
Qed.

Lemma process_face_wrong_class (st : state) (f : face) (label : Z) (confidence : Q) :
  prediction f = Some (label, confidence) →
  (confidence < Config.RECOGNITION_CONFIDENCE_THRESHOLD)%Q →
  ¬ same_class (Roster.lookup (roster ss) label) →
  Controller.process_face ss current_time st f
  = Controller.add_result
      (wrong_class_result f (Roster.lookup (roster ss) label) confidence) st.
Proof.
  intros Hp Hc%Qltb_lt Hn. unfold Controller.process_face.
  rewrite Hp, Hc.
  destruct ((_ && _)%bool) eqn:E; [|reflexivity].
  by apply same_class_eqb in E.
Qed.

Lemma process_face_already_marked (st : state) (f : face) (label : Z)
    (confidence : Q) :
  prediction f = Some (label, confidence) →
  (confidence < Config.RECOGNITION_CONFIDENCE_THRESHOLD)%Q →
  same_class (Roster.lookup (roster ss) label) →
  Roster.rec_name (Roster.lookup (roster ss) label) ∈ marked_names st →
  Controller.process_face ss current_time st f
  = Controller.add_result
      (correct_class_result f (Roster.lookup (roster ss) label) confidence) st.
Proof.
  intros Hp Hc%Qltb_lt Hs%same_class_eqb Hm. unfold Controller.process_face.
  rewrite Hp, Hc, Hs. rewrite decide_True by done.
  unfold correct_class_result. by rewrite bool_decide_eq_true_2.
Qed.

Lemma process_face_newly_marked (st : state) (f : face) (label : Z)
    (confidence : Q) :
  prediction f = Some (label, confidence) →
  (confidence < Config.RECOGNITION_CONFIDENCE_THRESHOLD)%Q →
  same_class (Roster.lookup (roster ss) label) →
  Roster.rec_name (Roster.lookup (roster ss) label) ∉ marked_names st →
  Controller.process_face ss current_time st f
  = let rc := Roster.lookup (roster ss) label in
    Controller.add_result (correct_class_result f rc confidence)
      (Controller.mark ss (Roster.rec_name rc) (Roster.rec_roll_no rc)
         current_time (now f) st).
Proof.
  intros Hp Hc%Qltb_lt Hs%same_class_eqb Hm. unfold Controller.process_face.
  rewrite Hp, Hc, Hs. rewrite decide_False by done.
  unfold correct_class_result. simpl.
  rewrite bool_decide_eq_true_2 by set_solver. reflexivity.
Qed.

(** Every detection is a skip, a plain result, or one new mark. *)
Lemma process_face_cases (st : state) (f : face) :
  let st' := Controller.process_face ss current_time st f in
  st' = st
  ∨ (∃ r, st' = Controller.add_result r st)
  ∨ (∃ r name roll_no,
       (name ∉ marked_names st) ∧
       st' = Controller.add_result r
               (Controller.mark ss name roll_no current_time (now f) st)).
Proof.
  destruct (prediction f) as [[label confidence]|] eqn:Hp.
  2:{ left. by apply process_face_skipped. }
  destruct (Qltb confidence Config.RECOGNITION_CONFIDENCE_THRESHOLD) eqn:Hc.
  2:{ right. left. eexists. apply Qltb_not_lt in Hc.
      by eapply process_face_rejected. }
  apply Qltb_lt in Hc.
  destruct (decide (same_class (Roster.lookup (roster ss) label))) as [Hs|Hs].
  2:{ right. left. eexists. by eapply process_face_wrong_class. }
  destruct (decide (Roster.rec_name (Roster.lookup (roster ss) label)
                      ∈ marked_names st)) as [Hm|Hm].
  - right. left. eexists. by eapply process_face_already_marked.
  - right. right. do 3 eexists. split; [exact Hm|].
    by eapply process_face_newly_marked.
Qed.

End Decision.

(** ** Session invariants *)

(** What holds of every state the session reaches: no two queue appends
    carry the same name, the marked set is the set of appended names, and
    the rows written so far followed by the rows still queued are appended
    rows, in the order of their appending. *)
Record good (st : state) : Prop := {
  good_nodup : NoDup (row_name <$> appended (trace st));
  good_marked : marked_names st = list_to_set (row_name <$> appended (trace st));
  good_pending :
    (written (trace st) ++ attendance_queue st) `sublist_of` appended (trace st)
}.

(** When no write fails, nothing is lost: written and queued rows are
    exactly the appended ones, and the file is what it was plus the
    written rows. *)
Definition exact (base : list row) (st : state) : Prop :=
  written (trace st) ++ attendance_queue st = appended (trace st) ∧
  csv_file st = base ++ written (trace st).

(** A step that touches neither the marks nor the queue nor the file. *)
Definition silent (st st' : state) : Prop :=
  marked_names st' = marked_names st ∧
  attendance_queue st' = attendance_queue st ∧
  csv_file st' = csv_file st ∧
  appended (trace st') = appended (trace st) ∧
  written (trace st') = written (trace st).

Lemma silent_refl (st : state) : silent st st.
Proof. by repeat split. Qed.

Lemma silent_trans (st1 st2 st3 : state) :
  silent st1 st2 → silent st2 st3 → silent st1 st3.
Proof.
  intros (?&?&?&?&?) (?&?&?&?&?). repeat split; congruence.
Qed.

Lemma good_silent (st st' : state) : silent st st' → good st → good st'.
Proof.
  intros (Hm&Hq&_&Ha&Hw) [H1 H2 H3].
  split; rewrite ?Hm, ?Hq, ?Ha, ?Hw; assumption.
Qed.

Lemma exact_silent (base : list row) (st st' : state) :
  silent st st' → exact base st → exact base st'.
Proof.
  intros (Hm&Hq&Hc&Ha&Hw) [H1 H2].
  split; rewrite ?Hq, ?Hc, ?Ha, ?Hw; assumption.
Qed.

Lemma silent_emit (e : effect) (st : state) :
  (∀ r, e ≠ QueueAppend r) → (∀ r, e ≠ WriteRow r) → silent st (emit e st).
Proof.
  intros Ha Hw. repeat split; simpl.
  - rewrite appended_app. destruct e; simpl; try apply app_nil_r. by destruct (Ha r).
  - rewrite written_app. destruct e; simpl; try apply app_nil_r. by destruct (Hw r).
Qed.

Lemma silent_print (m : message) (st : state) : silent st (print m st).
Proof. by apply silent_emit. Qed.

Lemma silent_add_result (r : result) (st : state) :
  silent st (Controller.add_result r st).
Proof. by repeat split. Qed.

Lemma silent_set_frame_count (n : Z) (st : state) :
  silent st (Controller.set_frame_count n st).
Proof. by repeat split. Qed.

Lemma silent_clear_results (st : state) : silent st (Controller.clear_results st).
Proof. by repeat split. Qed.

Section Marking.

Variable ss : session.
Variables (name roll_no : string) (current_time at_ : datetime).

Definition marked_row : row :=
  [name; roll_no; branch ss; section ss; date_str at_; time_str at_].

Lemma appended_mark (st : state) :
  appended (trace (Controller.mark ss name roll_no current_time at_ st))
  = appended (trace st) ++ [marked_row].
Proof. simpl. by rewrite appended_app. Qed.

Lemma written_mark (st : state) :
  written (trace (Controller.mark ss name roll_no current_time at_ st))
  = written (trace st).
Proof. simpl. rewrite written_app. apply app_nil_r. Qed.

Lemma good_mark (st : state) :
  name ∉ marked_names st →
  good st → good (Controller.mark ss name roll_no current_time at_ st).
Proof.
  intros Hn [H1 H2 H3]. split.
  - rewrite appended_mark, fmap_app. apply NoDup_app. split; [done|].
    split; [|apply NoDup_singleton].
    intros x Hx Hx'. apply list_elem_of_singleton in Hx'. subst x.
    apply Hn. rewrite H2. by apply elem_of_list_to_set.
  - rewrite appended_mark, fmap_app, list_to_set_app_L. simpl.
    by rewrite <- H2, (right_id_L ∅ (∪)).
  - rewrite appended_mark, written_mark. simpl.
    rewrite (assoc_L (++)). by apply sublist_app.
Qed.

Lemma exact_mark (base : list row) (st : state) :
  exact base st → exact base (Controller.mark ss name roll_no current_time at_ st).
Proof.
  intros [H1 H2]. split.
  - rewrite appended_mark, written_mark. simpl.
    by rewrite (assoc_L (++)), H1.
  - rewrite written_mark. exact H2.
Qed.

End Marking.

Lemma good_process_face (ss : session) (ct : datetime) (st : state) (f : face) :
  good st → good (Controller.process_face ss ct st f).
Proof.
  intros Hg.
  destruct (process_face_cases ss ct st f) as [->|[[r ->]|(r&n&ro&Hn&->)]].
  - exact Hg.
  - eapply good_silent; [apply silent_add_result | exact Hg].
  - eapply good_silent; [apply silent_add_result|]. by apply good_mark.
Qed.

Lemma exact_process_face (base : list row) (ss : session) (ct : datetime)
    (st : state) (f : face) :
  exact base st → exact base (Controller.process_face ss ct st f).
Proof.
  intros Hg.
  destruct (process_face_cases ss ct st f) as [->|[[r ->]|(r&n&ro&Hn&->)]].
  - exact Hg.
  - eapply exact_silent; [apply silent_add_result | exact Hg].
  - eapply exact_silent; [apply silent_add_result|]. by apply exact_mark.
Qed.

Lemma take_drop_sublist {A} (m n : nat) (l : list A) :
  (m ≤ n)%nat → (take m l ++ drop n l) `sublist_of` l.
Proof.
  intros Hmn. rewrite <- (take_drop m l) at 3.
  apply sublist_app; [done|].
  replace (drop n l) with (drop (n - m) (drop m l)) by (rewrite drop_drop; f_equal; lia).
  apply sublist_drop.
Qed.

Lemma take_drop_S_sublist {A} (k : nat) (l : list A) :
  (take k l ++ drop (S k) l) `sublist_of` l.
Proof. apply take_drop_sublist. lia. Qed.

Lemma good_batch_write (fault : io_fault) (st : state) :
  good st → good (Writer.batch_write_attendance fault st).
Proof.
  intros Hg. destruct (decide (attendance_queue st = [])) as [E|Hq].
  { unfold Writer.batch_write_attendance. by rewrite E. }
  destruct Hg as [H1 H2 H3].
  destruct fault as [| |k|calls durable].
  - rewrite batch_write_no_fault by done.
    split; simpl; rewrite ?appended_app, ?written_app, ?appended_WriteRow,
      ?written_WriteRow, ?app_nil_r; simpl; rewrite ?app_nil_r; assumption.
  - rewrite batch_write_open_fails by done.
    eapply good_silent; [|by split].
    eapply silent_trans; [by apply (silent_emit OpenAppend) | apply silent_print].
  - rewrite batch_write_write_fails by done.
    assert (good (Writer.set_queue (drop (S k) (attendance_queue st))
                    (wrote (take k (attendance_queue st)) (emit OpenAppend st)))).
    { split; simpl; rewrite ?appended_app, ?written_app, ?appended_WriteRow,
        ?written_WriteRow, ?app_nil_r; simpl; rewrite ?app_nil_r; try assumption.
      etrans; [|exact H3]. rewrite <- (assoc_L (++)).
      apply sublist_app; [done | apply take_drop_S_sublist]. }
    simpl. destruct (bool_decide _); [|done].
    eapply good_silent; [apply silent_print | done].
  - rewrite batch_write_device_fails by done.
    eapply good_silent; [apply silent_print|].
    split; simpl; rewrite ?appended_app, ?written_app, ?appended_WriteRow,
      ?written_WriteRow, ?app_nil_r; simpl; rewrite ?app_nil_r; try assumption.
    etrans; [|exact H3]. rewrite <- (assoc_L (++)).
    apply sublist_app; [done | apply take_drop_sublist; lia].
Qed.

Lemma exact_batch_write (base : list row) (st : state) :
  exact base st → exact base (Writer.batch_write_attendance NoFault st).
Proof.
  intros Hg. destruct (decide (attendance_queue st = [])) as [E|Hq].
  { unfold Writer.batch_write_attendance. by rewrite E. }
  destruct Hg as [H1 H2].
  rewrite batch_write_no_fault by done.
  split; simpl; rewrite ?appended_app, ?written_app, ?appended_WriteRow,
    ?written_WriteRow, ?app_nil_r; simpl; rewrite ?app_nil_r.
  - exact H1.
  - by rewrite H2, (assoc_L (++)).
Qed.

Lemma good_faces (ss : session) (ct : datetime) (fs : list face) :
  ∀ st, good st → good (foldl (Controller.process_face ss ct) st fs).
Proof.
  induction fs as [|f fs IH]; intros st Hg; simpl; [done|].
  by apply IH, good_process_face.
Qed.

Lemma exact_faces (base : list row) (ss : session) (ct : datetime) (fs : list face) :
  ∀ st, exact base st → exact base (foldl (Controller.process_face ss ct) st fs).
Proof.
  induction fs as [|f fs IH]; intros st Hg; simpl; [done|].
  by apply IH, exact_process_face.
Qed.

Lemma silent_sample_start (n : Z) (st : state) :
  silent st (Controller.clear_results (emit (DetectFaces n) st)).
Proof.
  eapply silent_trans; [by apply (silent_emit (DetectFaces n))|].
  apply silent_clear_results.
Qed.

Lemma good_sample (ss : session) (fr : frame) (st : state) :
  good st → good (Controller.sample ss fr st).
Proof.
  intros Hg. unfold Controller.sample. apply good_faces.
  eapply good_silent; [apply silent_sample_start | exact Hg].
Qed.

Lemma exact_sample (base : list row) (ss : session) (fr : frame) (st : state) :
  exact base st → exact base (Controller.sample ss fr st).
Proof.
  intros Hg. unfold Controller.sample. apply exact_faces.
  eapply exact_silent; [apply silent_sample_start | exact Hg].
Qed.

(** The states of one iteration, as [loop] names them. *)
Lemma good_loop (ss : session) (frames : list frame) :
  ∀ st, good st → good (Controller.loop ss frames st).1.
Proof.
  induction frames as [|fr rest IH]; intros st Hg; cbn [Controller.loop].
  { simpl. eapply good_silent; [apply silent_print | exact Hg]. }
  set (st1 := Controller.set_frame_count _ st).
  assert (Hg1 : good st1).
  { eapply good_silent; [apply silent_set_frame_count | exact Hg]. }
  destruct (capture_raises fr); [exact Hg1|].
  destruct (process_every_n_frames ss =? 0)%Z; [exact Hg1|].
  set (st2 := if (_ =? 0)%Z then Controller.sample ss fr st1 else st1).
  assert (Hg2 : good st2).
  { unfold st2. destruct (_ =? 0)%Z; [by apply good_sample | done]. }
  destruct (display_raises fr); [exact Hg2|].
  set (st3 := emit (ShowFrame _) st2).
  assert (Hg3 : good st3).
  { eapply good_silent; [by apply silent_emit | exact Hg2]. }
  destruct (Controller.is_quit (key fr)).
  { simpl. eapply good_silent; [apply silent_print | exact Hg3]. }
  apply IH.
  destruct (frame_count st3 mod Config.BATCH_WRITE_INTERVAL =? 0)%Z; [|exact Hg3].
  destruct (attendance_queue st3) eqn:E; [exact Hg3|].
  by apply good_batch_write.
Qed.

Lemma exact_loop (base : list row) (ss : session) (frames : list frame) :
  Forall (λ fr, flush_fault fr = NoFault) frames →
  ∀ st, exact base st → exact base (Controller.loop ss frames st).1.
Proof.
  induction 1 as [|fr rest Hfr _ IH]; intros st Hg; cbn [Controller.loop].
  { simpl. eapply exact_silent; [apply silent_print | exact Hg]. }
  set (st1 := Controller.set_frame_count _ st).
  assert (Hg1 : exact base st1).
  { eapply exact_silent; [apply silent_set_frame_count | exact Hg]. }
  destruct (capture_raises fr); [exact Hg1|].
  destruct (process_every_n_frames ss =? 0)%Z; [exact Hg1|].
  set (st2 := if (_ =? 0)%Z then Controller.sample ss fr st1 else st1).
  assert (Hg2 : exact base st2).
  { unfold st2. destruct (_ =? 0)%Z; [by apply exact_sample | done]. }
  destruct (display_raises fr); [exact Hg2|].
  set (st3 := emit (ShowFrame _) st2).
  assert (Hg3 : exact base st3).
  { eapply exact_silent; [by apply silent_emit | exact Hg2]. }
  destruct (Controller.is_quit (key fr)).
  { simpl. eapply exact_silent; [apply silent_print | exact Hg3]. }
  apply IH. rewrite Hfr.
  destruct (frame_count st3 mod Config.BATCH_WRITE_INTERVAL =? 0)%Z; [|exact Hg3].
  destruct (attendance_queue st3) eqn:E; [exact Hg3|].
  by apply exact_batch_write.
Qed.

(** ** Sampling *)

(** A step that calls the detector on no frame and leaves the frame counter
    alone. *)
Definition quiet (st st' : state) : Prop :=
  detected (trace st') = detected (trace st) ∧ frame_count st' = frame_count st.

Lemma quiet_refl (st : state) : quiet st st.
Proof. by split. Qed.

Lemma quiet_trans (st1 st2 st3 : state) : quiet st1 st2 → quiet st2 st3 → quiet st1 st3.
Proof. intros [? ?] [? ?]. split; congruence. Qed.

Lemma quiet_emit (e : effect) (st : state) :
  (∀ n, e ≠ DetectFaces n) → quiet st (emit e st).
Proof.
  intros He. split; [|done]. simpl. rewrite detected_app.
  destruct e; simpl; try apply app_nil_r. by destruct (He frame_no).
Qed.

Lemma quiet_process_face (ss : session) (ct : datetime) (st : state) (f : face) :
  quiet st (Controller.process_face ss ct st f).
Proof.
  destruct (process_face_cases ss ct st f) as [->|[[r ->]|(r&n&ro&Hn&->)]].
  - by split.
  - by split.
  - split; [|done]. simpl. rewrite detected_app. apply app_nil_r.
Qed.

Lemma quiet_faces (ss : session) (ct : datetime) (fs : list face) :
  ∀ st, quiet st (foldl (Controller.process_face ss ct) st fs).
Proof.
  induction fs as [|f fs IH]; intros st; simpl; [by split|].
  eapply quiet_trans; [apply quiet_process_face | apply IH].
Qed.

Lemma quiet_batch_write (fault : io_fault) (st : state) :
  quiet st (Writer.batch_write_attendance fault st).
Proof.
  destruct (decide (attendance_queue st = [])) as [E|Hq].
  { unfold Writer.batch_write_attendance. rewrite E. by split. }
  destruct fault as [| |k|calls durable].
  - rewrite batch_write_no_fault by done. split; [|done]. simpl.
    by rewrite !detected_app, detected_WriteRow, !app_nil_r.
  - rewrite batch_write_open_fails by done. split; [|done]. simpl.
    by rewrite !detected_app, !app_nil_r.
  - rewrite batch_write_write_fails by done. simpl.
    destruct (bool_decide _); (split; [|done]); simpl;
      by rewrite !detected_app, detected_WriteRow, !app_nil_r.
  - rewrite batch_write_device_fails by done. split; [|done]. simpl.
    by rewrite !detected_app, detected_WriteRow, !app_nil_r.
Qed.

Lemma detected_sample (ss : session) (fr : frame) (st : state) :
  detected (trace (Controller.sample ss fr st)) = detected (trace st) ++ [frame_count st]
  ∧ frame_count (Controller.sample ss fr st) = frame_count st.
Proof.
  unfold Controller.sample.
  destruct (quiet_faces ss (current_time fr) (faces fr)
              (Controller.clear_results (emit (DetectFaces (frame_count st)) st)))
    as [Hd Hc].
  rewrite Hd, Hc. simpl. by rewrite detected_app.
Qed.

(** Nothing interrupts the frame: no exception, no quit key. *)
Definition uneventful (fr : frame) : Prop :=
  capture_raises fr = None ∧ display_raises fr = None ∧
  Controller.is_quit (key fr) = false.

Definition multiple_of (K n : Z) : Prop := n mod K = 0.

#[global] Instance multiple_of_dec (K n : Z) : Decision (multiple_of K n).
Proof. unfold multiple_of. apply _. Defined.

Lemma loop_uneventful (ss : session) (frames : list frame) :
  0 < process_every_n_frames ss →
  Forall uneventful frames →
  ∀ st,
    let out := Controller.loop ss frames st in
    detected (trace out.1)
    = detected (trace st)
      ++ filter (multiple_of (process_every_n_frames ss))
           (seqZ (frame_count st + 1) (Z.of_nat (length frames)))
    ∧ frame_count out.1 = frame_count st + Z.of_nat (length frames)
    ∧ out.2 = Controller.CameraReadFailed.
Proof.
  intros HK. induction 1 as [|fr rest (Hc&Hd&Hk) _ IH]; intros st;
    cbn [Controller.loop].
  { simpl. rewrite detected_app, !app_nil_r. split; [done|]. split; [lia|done]. }
  rewrite Hc, Hd, Hk.
  destruct (Z.eqb_spec (process_every_n_frames ss) 0) as [E|_]; [lia|].
  set (st1 := Controller.set_frame_count _ st).
  set (st2 := if (_ =? 0)%Z then Controller.sample ss fr st1 else st1).
  set (st3 := emit (ShowFrame _) st2).
  set (st4 := if (_ =? 0)%Z then _ else st3).
  assert (H2 : detected (trace st2)
               = detected (trace st)
                 ++ filter (multiple_of (process_every_n_frames ss)) [frame_count st + 1]
               ∧ frame_count st2 = frame_count st + 1).
  { unfold st2. change (frame_count st1) with (frame_count st + 1).
    destruct (Z.eqb_spec ((frame_count st + 1) mod process_every_n_frames ss) 0).
    - destruct (detected_sample ss fr st1) as [-> ->].
      by rewrite filter_cons_True.
    - rewrite filter_cons_False by done. simpl. by rewrite app_nil_r. }
  assert (H4 : quiet st2 st4).
  { eapply quiet_trans; [by apply (quiet_emit (ShowFrame (size (marked_names st2))))|].
    fold st3. unfold st4.
    destruct (frame_count st3 mod Config.BATCH_WRITE_INTERVAL =? 0)%Z;
      [|apply quiet_refl].
    destruct (attendance_queue st3) eqn:E; [apply quiet_refl|].
    apply quiet_batch_write. }
  destruct H2 as [H2d H2c], H4 as [H4d H4c].
  destruct (IH st4) as (IHd & IHc & IHr).
  simpl in IHd, IHc, IHr. simpl.
  rewrite IHd, IHc, IHr, H4d, H4c, H2d, H2c.
  rewrite (seqZ_cons (frame_count st + 1)) by lia.
  replace (Z.pred (Z.of_nat (S (length rest)))) with (Z.of_nat (length rest)) by lia.
  replace (Z.succ (frame_count st + 1)) with (frame_count st + 1 + 1) by lia.
  rewrite <- (assoc_L (++)).
  split; [|split; [lia|done]].
  f_equal. symmetry. apply (filter_app _ [_]).
Qed.

Lemma div_succ (K c : Z) :
  0 < K → 0 ≤ c →
  (c + 1) / K = c / K + (if ((c + 1) mod K =? 0)%Z then 1 else 0).
Proof.
  intros HK Hc.
  pose proof (Z.div_mod c K ltac:(lia)) as Hd.
  pose proof (Z.mod_pos_bound c K HK) as Hb.
  destruct (decide (c mod K = K - 1)) as [E|E].
  - assert (Hq : c + 1 = K * (c / K + 1) + 0) by lia.
    assert (Hr : 0 ≤ 0 < K) by lia.
    rewrite <- (Z.mod_unique_pos _ _ _ _ Hr Hq).
    rewrite <- (Z.div_unique_pos _ _ _ _ Hr Hq). reflexivity.
  - assert (Hq : c + 1 = K * (c / K) + (c mod K + 1)) by lia.
    assert (Hr : 0 ≤ c mod K + 1 < K) by lia.
    rewrite <- (Z.mod_unique_pos _ _ _ _ Hr Hq).
    rewrite <- (Z.div_unique_pos _ _ _ _ Hr Hq).
    destruct (Z.eqb_spec (c mod K + 1) 0); lia.
Qed.

Lemma count_multiples (K : Z) (T : nat) :
  0 < K →
  Z.of_nat (length (filter (multiple_of K) (seqZ 1 (Z.of_nat T)))) = Z.of_nat T / K.
Proof.
  intros HK. induction T as [|T IH].
  - simpl. by rewrite Z.div_0_l by lia.
  - rewrite seqZ_S, filter_app, length_app, Nat2Z.inj_add, IH.
    replace (Z.of_nat (S T)) with (Z.of_nat T + 1) by lia.
    rewrite div_succ by lia. f_equal.
    replace (1 + Z.of_nat T) with (Z.of_nat T + 1) by lia.
    destruct (Z.eqb_spec ((Z.of_nat T + 1) mod K) 0) as [E|E].
    + by rewrite filter_cons_True.
    + by rewrite filter_cons_False.
Qed.

(** ** What start-up hands to the loop *)

Definition initial_csv (env : environment) : list row :=
  match attendance_csv env with
  | Some rows => rows
  | None => [header]
  end.

Lemma startup_running (env : environment) (ss : session) (st : state) :
  startup env = Running ss st →
  marked_names st = ∅ ∧ attendance_queue st = [] ∧ frame_count st = 0 ∧
  csv_file st = initial_csv env ∧
  appended (trace st) = [] ∧ written (trace st) = [] ∧ detected (trace st) = [] ∧
  Forall (λ e, ∃ m, e = Print m) (trace st) ∧
  process_every_n_frames ss = 2.
Proof.
  unfold startup, initial_csv. intros H.
  destruct (argv env) as [|? [|? [|? ?]]]; try discriminate.
  destruct (trainer_model_exists env); try discriminate.
  destruct (recognizer_reads env); try discriminate.
  destruct (face_cascade_empty env); try discriminate.
  destruct (dataset_exists env); try discriminate.
  simpl in H. destruct (Roster.build _ _); try discriminate.
  destruct (attendance_csv env), (decide _), (camera_opens env);
    try discriminate; simpl in H; inversion H; subst; simpl;
    repeat split; eauto using Forall_nil, Forall_cons.
Qed.

Lemma startup_good (env : environment) (ss : session) (st : state) :
  startup env = Running ss st → good st ∧ exact (initial_csv env) st.
Proof.
  intros (Hm&Hq&_&Hc&Ha&Hw&_)%startup_running.
  split; [split|split]; rewrite ?Hm, ?Hq, ?Ha, ?Hw, ?Hc, ?app_nil_r; simpl; try done.
  apply NoDup_nil_2.
Qed.

(** ** Rejected and wrong-class detections *)

(** C6. A detection whose confidence is not below the threshold is shown as
    "Unknown", in red, with an empty roll number, whatever label the
    recognizer predicted; the only thing that changes is the list of boxes
    to draw: the queue, the marked set, the cooldown table, the file and
    the trace are as before. *)
Theorem rejected_confidence_is_unknown (ss : session) (ct : datetime) (st : state)
    (f : face) (label : Z) (confidence : Q) :
  prediction f = Some (label, confidence) →
  ¬ (confidence < Config.RECOGNITION_CONFIDENCE_THRESHOLD)%Q →
  let st' := Controller.process_face ss ct st f in
  last_detection_results st'
  = last_detection_results st ++ [unknown_result f confidence] ∧
  res_status (unknown_result f confidence) = unknown ∧
  res_name (unknown_result f confidence) = "Unknown" ∧
  attendance_queue st' = attendance_queue st ∧
  marked_names st' = marked_names st ∧
  recognition_cooldown st' = recognition_cooldown st ∧
  csv_file st' = csv_file st ∧
  trace st' = trace st ∧
  frame_count st' = frame_count st.
Proof.
  intros Hp Hc. simpl.
  rewrite (process_face_rejected ss ct st f label confidence Hp Hc).
  repeat split.
Qed.

Lemma rejected_confidence_is_unknown_witness :
  prediction (Sample.seen 0 80) = Some (0, 80%Q) ∧
  ¬ (80 < Config.RECOGNITION_CONFIDENCE_THRESHOLD)%Q ∧
  marked_names (Controller.process_face Sample.ss Sample.t0 Sample.st0 (Sample.seen 0 80))
  = marked_names Sample.st0.
Proof.
  assert (Hc : ¬ (80 < Config.RECOGNITION_CONFIDENCE_THRESHOLD)%Q)
    by (apply Qltb_not_lt; reflexivity).
  split; [reflexivity|]. split; [exact Hc|].
  apply (rejected_confidence_is_unknown Sample.ss Sample.t0 Sample.st0
           (Sample.seen 0 80) 0 80%Q eq_refl Hc).
Defined.

(** C5. A detection that resolves to a record whose branch or section is
    not the session's never marks: the queue, the marked set, the cooldown
    table, the file and the trace are as before; and when its confidence is
    accepted it is shown as "wrong class", in orange, with the class it
    belongs to. *)
Theorem wrong_class_never_marks (ss : session) (ct : datetime) (st : state)
    (f : face) (label : Z) (confidence : Q) :
  prediction f = Some (label, confidence) →
  Roster.rec_branch (Roster.lookup (roster ss) label) ≠ branch ss
  ∨ Roster.rec_section (Roster.lookup (roster ss) label) ≠ section ss →
  let st' := Controller.process_face ss ct st f in
  attendance_queue st' = attendance_queue st ∧
  marked_names st' = marked_names st ∧
  recognition_cooldown st' = recognition_cooldown st ∧
  csv_file st' = csv_file st ∧
  trace st' = trace st ∧
  ((confidence < Config.RECOGNITION_CONFIDENCE_THRESHOLD)%Q →
   last_detection_results st'
   = last_detection_results st
     ++ [wrong_class_result f (Roster.lookup (roster ss) label) confidence] ∧
   res_status (wrong_class_result f (Roster.lookup (roster ss) label) confidence)
   = wrong_class).
Proof.
  intros Hp Hd. simpl.
  assert (Hn : ¬ same_class ss (Roster.lookup (roster ss) label)).
  { intros [Hb Hs]. destruct Hd; contradiction. }
  destruct (Qltb confidence Config.RECOGNITION_CONFIDENCE_THRESHOLD) eqn:Hc.
  - apply Qltb_lt in Hc.
    rewrite (process_face_wrong_class ss ct st f label confidence Hp Hc Hn).
    repeat split.
  - apply Qltb_not_lt in Hc.
    rewrite (process_face_rejected ss ct st f label confidence Hp Hc).
    repeat split. contradiction.
Qed.

Lemma wrong_class_never_marks_witness :
  prediction (Sample.seen 1 40) = Some (1, 40%Q) ∧
  Roster.rec_branch (Roster.lookup (roster Sample.ss) 1) ≠ branch Sample.ss ∧
  attendance_queue
    (Controller.process_face Sample.ss Sample.t0 Sample.st0 (Sample.seen 1 40))
  = [].
Proof.
  assert (Hb : Roster.rec_branch (Roster.lookup (roster Sample.ss) 1)
               ≠ branch Sample.ss) by (vm_compute; discriminate).
  split; [reflexivity|]. split; [exact Hb|].
  apply (wrong_class_never_marks Sample.ss Sample.t0 Sample.st0
           (Sample.seen 1 40) 1 40%Q eq_refl (or_introl Hb)).
Defined.

(** ** Sampling interval *)

(** C8. With a positive sampling interval [K] and a camera that delivers
    [T] frames and then fails to read, none of them interrupted by an
    exception or the quit key, the detector is called on the frames whose
    1-based number is a multiple of [K], each once and in order: on
    [T / K] frames, rounded down. The loop then ends on the failed read. *)
Theorem detector_runs_every_kth_frame (ss : session) (frames : list frame)
    (st : state) :
  0 < process_every_n_frames ss →
  Forall uneventful frames →
  frame_count st = 0 →
  detected (trace st) = [] →
  let K := process_every_n_frames ss in
  let T := Z.of_nat (length frames) in
  let out := Controller.loop ss frames st in
  Z.of_nat (length (detected (trace out.1))) = T / K ∧
  detected (trace out.1) = filter (multiple_of K) (seqZ 1 T) ∧
  (∀ n, n ∈ detected (trace out.1) ↔ 1 ≤ n ≤ T ∧ n mod K = 0) ∧
  NoDup (detected (trace out.1)) ∧
  frame_count out.1 = T ∧
  out.2 = Controller.CameraReadFailed.
Proof.
  intros HK Hu Hc Hd. simpl.
  destruct (loop_uneventful ss frames HK Hu st) as (Ed & Ec & Er).
  simpl in Ed, Ec, Er. rewrite Hd, Hc in Ed. rewrite Hc in Ec. simpl in Ed.
  rewrite Ed, Ec, Er.
  split; [by apply count_multiples|]. split; [done|].
  split; [|split; [|split; [lia|done]]].
  - intros n. rewrite list_elem_of_filter, elem_of_seqZ. unfold multiple_of. lia.
  - apply NoDup_filter, NoDup_seqZ.
Qed.

Lemma detector_runs_every_kth_frame_witness :
  0 < process_every_n_frames Sample.ss ∧
  Forall uneventful (replicate 5 (Sample.quiet [])) ∧
  frame_count Sample.st0 = 0 ∧
  detected (trace Sample.st0) = [] ∧
  detected (trace (Controller.loop Sample.ss (replicate 5 (Sample.quiet []))
                     Sample.st0).1)
  = [2; 4].
Proof.
  assert (Hu : Forall uneventful (replicate 5 (Sample.quiet []))).
  { apply Forall_replicate. by repeat split. }
  split; [reflexivity|]. split; [exact Hu|].
  split; [reflexivity|]. split; [reflexivity|].
  pose proof (detector_runs_every_kth_frame Sample.ss
                (replicate 5 (Sample.quiet [])) Sample.st0
                eq_refl Hu eq_refl eq_refl) as (_ & -> & _).
  reflexivity.
Defined.

(** ** Counting marks *)

Lemma good_size (st : state) :
  good st → size (marked_names st) = length (appended (trace st)).
Proof.
  intros [H1 H2 _]. rewrite H2, size_list_to_set by done. apply length_fmap.
Qed.

Lemma filter_none {A} (P : A → Prop) `{∀ x, Decision (P x)} (l : list A) :
  (∀ z, z ∈ l → ¬ P z) → filter P l = [].
Proof.
  induction l as [|x l IH]; intros Hl; [done|].
  rewrite filter_cons_False by (apply Hl; left).
  apply IH. intros z Hz. apply Hl. by right.
Qed.

Lemma NoDup_fmap_count {A B} `{EqDecision B} (f : A → B) (l : list A) (y : B) :
  NoDup (f <$> l) → (length (filter (λ x, f x = y) l) ≤ 1)%nat.
Proof.
  induction l as [|x l IH]; simpl; [lia|].
  intros [Hx Hl]%NoDup_cons.
  destruct (decide (f x = y)) as [E|E].
  - rewrite filter_cons_True by done. simpl.
    assert (filter (λ x, f x = y) l = []) as ->; [|simpl; lia].
    apply filter_none. intros z Hz Hfz. apply Hx.
    rewrite E, <- Hfz. by apply list_elem_of_fmap_2.
  - rewrite filter_cons_False by done. auto.
Qed.

Lemma good_written_nodup (st : state) :
  good st → NoDup (row_name <$> written (trace st)).
Proof.
  intros [H1 _ H3]. eapply sublist_NoDup; [exact H1|].
  apply fmap_sublist. etrans; [|exact H3]. by apply sublist_inserts_r.
Qed.

(** The count drawn on a frame is the number of queue appends so far. *)
Fixpoint overlay_ok (count : nat) (t : list effect) : Prop :=
  match t with
  | [] => True
  | ShowFrame n :: t' => n = count ∧ overlay_ok count t'
  | QueueAppend _ :: t' => overlay_ok (S count) t'
  | _ :: t' => overlay_ok count t'
  end.

Definition no_show (e : effect) : Prop := ∀ n, e ≠ ShowFrame n.

Lemma overlay_ok_app (t1 t2 : list effect) :
  ∀ c, overlay_ok c (t1 ++ t2)
       ↔ overlay_ok c t1 ∧ overlay_ok (c + length (appended t1)) t2.
Proof.
  induction t1 as [|e t1 IH]; intros c; simpl.
  - rewrite Nat.add_0_r. tauto.
  - destruct e; simpl; rewrite ?IH, ?Nat.add_succ_r; simpl; tauto.
Qed.

Lemma overlay_ok_no_show (t : list effect) :
  Forall no_show t → ∀ c, overlay_ok c t.
Proof.
  induction 1 as [|e t He _ IH]; intros c; simpl; [done|].
  destruct e; auto. by destruct (He present).
Qed.

Lemma overlay_ok_shown (t pre post : list effect) (n : nat) :
  overlay_ok 0 t → t = pre ++ ShowFrame n :: post → n = length (appended pre).
Proof.
  intros H ->. apply overlay_ok_app in H as [_ H]. simpl in H. tauto.
Qed.

(** A step that extends the trace and draws nothing. *)
Definition grows (st st' : state) : Prop :=
  ∃ t', trace st' = trace st ++ t' ∧ Forall no_show t'.

Lemma grows_refl (st : state) : grows st st.
Proof. exists []. by rewrite app_nil_r. Qed.

Lemma grows_trans (st1 st2 st3 : state) : grows st1 st2 → grows st2 st3 → grows st1 st3.
Proof.
  intros (t1 & E1 & F1) (t2 & E2 & F2). exists (t1 ++ t2).
  rewrite E2, E1, (assoc_L (++)). split; [done | by apply Forall_app].
Qed.

Lemma grows_emit (e : effect) (st : state) : no_show e → grows st (emit e st).
Proof. intros He. exists [e]. split; [done | by apply Forall_singleton]. Qed.

Lemma grows_wrote (rows : list row) (st : state) : grows st (wrote rows st).
Proof.
  exists (WriteRow <$> rows). split; [done|].
  apply Forall_fmap, Forall_true. by intros r n.
Qed.

Lemma grows_mark (ss : session) (name roll_no : string) (ct at_ : datetime)
    (st : state) :
  grows st (Controller.mark ss name roll_no ct at_ st).
Proof.
  eexists. split; [reflexivity|]. repeat apply Forall_cons_2; [| |done]; by intros n.
Qed.

Lemma grows_process_face (ss : session) (ct : datetime) (st : state) (f : face) :
  grows st (Controller.process_face ss ct st f).
Proof.
  destruct (process_face_cases ss ct st f) as [->|[[r ->]|(r&n&ro&Hn&->)]].
  - apply grows_refl.
  - apply (grows_refl st).
  - apply (grows_mark ss n ro ct (now f) st).
Qed.

Lemma grows_faces (ss : session) (ct : datetime) (fs : list face) :
  ∀ st, grows st (foldl (Controller.process_face ss ct) st fs).
Proof.
  induction fs as [|f fs IH]; intros st; simpl; [apply grows_refl|].
  eapply grows_trans; [apply grows_process_face | apply IH].
Qed.

Lemma grows_sample (ss : session) (fr : frame) (st : state) :
  grows st (Controller.sample ss fr st).
Proof.
  unfold Controller.sample. eapply grows_trans; [|apply grows_faces].
  apply (grows_emit (DetectFaces (frame_count st))). by intros n.
Qed.

Lemma grows_batch_write (fault : io_fault) (st : state) :
  grows st (Writer.batch_write_attendance fault st).
Proof.
  destruct (decide (attendance_queue st = [])) as [E|Hq].
  { unfold Writer.batch_write_attendance. rewrite E. apply grows_refl. }
  assert (Ho : grows st (emit OpenAppend st)) by (apply grows_emit; by intros n).
  assert (Hp : ∀ s, grows s (print MsgErrorWriting s))
    by (intros s; apply grows_emit; by intros n).
  destruct fault as [| |k|calls durable].
  - rewrite batch_write_no_fault by done.
    eapply grows_trans; [exact Ho|]. apply (grows_wrote _ (emit OpenAppend st)).
  - rewrite batch_write_open_fails by done.
    eapply grows_trans; [exact Ho | apply Hp].
  - rewrite batch_write_write_fails by done. simpl.
    assert (grows st (Writer.set_queue (drop (S k) (attendance_queue st))
                        (wrote (take k (attendance_queue st)) (emit OpenAppend st)))).
    { eapply grows_trans; [exact Ho|]. apply (grows_wrote _ (emit OpenAppend st)). }
    destruct (bool_decide _); [|done].
    eapply grows_trans; [eassumption | apply Hp].
  - rewrite batch_write_device_fails by done.
    eapply grows_trans; [|apply Hp].
    eapply grows_trans; [exact Ho|]. apply (grows_wrote _ (emit OpenAppend st)).
Qed.

Lemma overlay_grows (st st' : state) :
  grows st st' → overlay_ok 0 (trace st) → overlay_ok 0 (trace st').
Proof.
  intros (t' & -> & Hf) H. apply overlay_ok_app. split; [done|].
  by apply overlay_ok_no_show.
Qed.

Lemma overlay_loop (ss : session) (frames : list frame) :
  ∀ st, good st → overlay_ok 0 (trace st) →
        overlay_ok 0 (trace (Controller.loop ss frames st).1).
Proof.
  induction frames as [|fr rest IH]; intros st Hg Ho; cbn [Controller.loop].
  { simpl. apply overlay_ok_app. by split. }
  set (st1 := Controller.set_frame_count _ st).
  assert (Hg1 : good st1).
  { eapply good_silent; [apply silent_set_frame_count | exact Hg]. }
  destruct (capture_raises fr); [exact Ho|].
  destruct (process_every_n_frames ss =? 0)%Z; [exact Ho|].
  set (st2 := if (_ =? 0)%Z then Controller.sample ss fr st1 else st1).
  assert (Hg2 : good st2).
  { unfold st2. destruct (_ =? 0)%Z; [by apply good_sample | done]. }
  assert (Ho2 : overlay_ok 0 (trace st2)).
  { unfold st2. destruct (_ =? 0)%Z; [|exact Ho].
    eapply overlay_grows; [apply grows_sample | exact Ho]. }
  destruct (display_raises fr); [exact Ho2|].
  set (st3 := emit (ShowFrame _) st2).
  assert (Hg3 : good st3).
  { eapply good_silent; [by apply silent_emit | exact Hg2]. }
  assert (Ho3 : overlay_ok 0 (trace st3)).
  { simpl. apply overlay_ok_app. split; [exact Ho2|]. simpl.
    split; [|done]. by apply good_size. }
  destruct (Controller.is_quit (key fr)).
  { simpl. apply overlay_ok_app. by split. }
  destruct (frame_count st3 mod Config.BATCH_WRITE_INTERVAL =? 0)%Z;
    [|by apply IH].
  destruct (attendance_queue st3) eqn:E; [by apply IH|].
  apply IH; [by apply good_batch_write|].
  eapply overlay_grows; [apply grows_batch_write | exact Ho3].
Qed.

(** ** Shutdown *)

Lemma run_unfold (ss : session) (frames : list frame) (fault : io_fault) (st : state) :
  Controller.run ss frames fault st
  = let out := Controller.loop ss frames st in
    (Controller.summary ss
       (Controller.finally fault (Controller.handlers out.2 out.1)), out.2).
Proof. unfold Controller.run. by destruct (Controller.loop ss frames st). Qed.

Lemma silent_handlers (reason : Controller.exit_reason) (st : state) :
  silent st (Controller.handlers reason st).
Proof.
  destruct reason as [| |[|]]; simpl;
    auto using silent_refl, silent_print.
Qed.

Lemma grows_handlers (reason : Controller.exit_reason) (st : state) :
  grows st (Controller.handlers reason st).
Proof.
  destruct reason as [| |[|]]; simpl; try apply grows_refl;
    apply grows_emit; by intros n.
Qed.

Definition flushed (fault : io_fault) (st : state) : state :=
  match attendance_queue st with
  | [] => st
  | _ :: _ => Writer.batch_write_attendance fault st
  end.

Lemma flushed_batch_write (fault : io_fault) (st : state) :
  flushed fault st = Writer.batch_write_attendance fault st.
Proof.
  unfold flushed, Writer.batch_write_attendance. by destruct (attendance_queue st).
Qed.

Lemma finally_unfold (fault : io_fault) (st : state) :
  Controller.finally fault st
  = emit DestroyAllWindows (emit CamRelease (Writer.batch_write_attendance fault st)).
Proof. unfold Controller.finally. fold (flushed fault st). by rewrite flushed_batch_write. Qed.

Lemma silent_release (st : state) :
  silent st (emit DestroyAllWindows (emit CamRelease st)).
Proof.
  eapply silent_trans; [by apply (silent_emit CamRelease)|].
  by apply (silent_emit DestroyAllWindows).
Qed.

Lemma good_finally (fault : io_fault) (st : state) :
  good st → good (Controller.finally fault st).
Proof.
  intros Hg. rewrite finally_unfold.
  eapply good_silent; [apply silent_release | by apply good_batch_write].
Qed.

Lemma grows_finally (fault : io_fault) (st : state) :
  grows st (Controller.finally fault st).
Proof.
  rewrite finally_unfold.
  eapply grows_trans; [apply grows_batch_write|].
  eapply grows_trans; apply grows_emit; by intros n.
Qed.

Definition summary_lines (ss : session) (st : state) : list effect :=
  [Print MsgSessionCompleted;
   Print (MsgTotalPresent (size (marked_names st)));
   Print (if decide (marked_names st = ∅) then MsgNoStudentsMarked
          else MsgStudentsPresent (Controller.present_list ss st))].

Lemma summary_unfold (ss : session) (st : state) :
  Controller.summary ss st
  = {| marked_names := marked_names st;
       recognition_cooldown := recognition_cooldown st;
       attendance_queue := attendance_queue st;
       frame_count := frame_count st;
       last_detection_results := last_detection_results st;
       csv_file := csv_file st;
       trace := trace st ++ summary_lines ss st |}.
Proof.
  unfold Controller.summary, summary_lines. simpl.
  destruct (decide (marked_names st = ∅)); unfold print, emit; simpl;
    by rewrite <- !(assoc_L (++)).
Qed.

Lemma silent_summary (ss : session) (st : state) :
  silent st (Controller.summary ss st).
Proof.
  rewrite summary_unfold. repeat split; simpl.
  - rewrite appended_app. apply app_nil_r.
  - rewrite written_app. apply app_nil_r.
Qed.

Lemma grows_summary (ss : session) (st : state) :
  grows st (Controller.summary ss st).
Proof.
  rewrite summary_unfold. eexists. split; [reflexivity|].
  repeat apply Forall_cons_2; [| | |done]; by intros n.
Qed.

Lemma good_run (ss : session) (frames : list frame) (fault : io_fault) (st : state) :
  good st → good (Controller.run ss frames fault st).1.
Proof.
  intros Hg. rewrite run_unfold. simpl.
  eapply good_silent; [apply silent_summary|].
  apply good_finally.
  eapply good_silent; [apply silent_handlers|].
  by apply good_loop.
Qed.

Lemma overlay_run (ss : session) (frames : list frame) (fault : io_fault) (st : state) :
  good st → overlay_ok 0 (trace st) →
  overlay_ok 0 (trace (Controller.run ss frames fault st).1).
Proof.
  intros Hg Ho. rewrite run_unfold. simpl.
  eapply overlay_grows; [apply grows_summary|].
  eapply overlay_grows; [apply grows_finally|].
  eapply overlay_grows; [apply grows_handlers|].
  by apply overlay_loop.
Qed.

Lemma exact_run (base : list row) (ss : session) (frames : list frame) (st : state) :
  Forall (λ fr, flush_fault fr = NoFault) frames →
  exact base st →
  let st' := (Controller.run ss frames NoFault st).1 in
  exact base st' ∧ attendance_queue st' = [].
Proof.
  intros Hf He. simpl. rewrite run_unfold. simpl.
  set (st1 := Controller.handlers _ _).
  assert (H1 : exact base st1).
  { eapply exact_silent; [apply silent_handlers|]. by apply exact_loop. }
  assert (H2 : exact base (Writer.batch_write_attendance NoFault st1))
    by (by apply exact_batch_write).
  split.
  - eapply exact_silent; [apply silent_summary|].
    rewrite finally_unfold.
    eapply exact_silent; [apply silent_release | exact H2].
  - rewrite summary_unfold, finally_unfold. simpl.
    apply batch_write_no_fault_queue.
Qed.

Lemma main_completed (env : environment) (frames : list frame) (fault : io_fault)
    (st : state) (reason : Controller.exit_reason) :
  main env frames fault = Completed st reason →
  ∃ ss st0, startup env = Running ss st0 ∧
            Controller.run ss frames fault st0 = (st, reason).
Proof.
  unfold main. destruct (startup env) as [| |ss st0]; try discriminate.
  destruct (Controller.run ss frames fault st0) as [st' r] eqn:E.
  intros [= <- <-]. eauto.
Qed.

Lemma quiet_handlers (reason : Controller.exit_reason) (st : state) :
  quiet st (Controller.handlers reason st).
Proof.
  destruct reason as [| |[|]]; simpl; try apply quiet_refl; by apply quiet_emit.
Qed.

Lemma quiet_finally (fault : io_fault) (st : state) :
  quiet st (Controller.finally fault st).
Proof.
  rewrite finally_unfold.
  eapply quiet_trans; [apply quiet_batch_write|].
  eapply quiet_trans; by apply quiet_emit.
Qed.

Lemma quiet_summary (ss : session) (st : state) :
  quiet st (Controller.summary ss st).
Proof.
  rewrite summary_unfold. split; [|done]. simpl.
  rewrite detected_app. apply app_nil_r.
Qed.

(** The script itself samples every second frame. *)
Lemma script_samples_every_second_frame (env : environment) (frames : list frame)
    (fault : io_fault) (st : state) (reason : Controller.exit_reason) :
  Forall uneventful frames →
  main env frames fault = Completed st reason →
  Z.of_nat (length (detected (trace st))) = Z.of_nat (length frames) / 2.
Proof.
  intros Hu Hm. unfold main in Hm.
  destruct (startup env) as [| |ss st0] eqn:Hs; try discriminate.
  destruct (startup_running env ss st0 Hs) as (_&_&Hc&_&_&_&Hd&_&HK).
  rewrite run_unfold in Hm. simpl in Hm. injection Hm as <- _.
  assert (HK' : 0 < process_every_n_frames ss) by lia.
  destruct (loop_uneventful ss frames HK' Hu st0) as (Ed & _ & _).
  simpl in Ed.
  assert (Hq : ∀ s s', quiet s s' → detected (trace s') = detected (trace s))
    by (by intros s s' [? _]).
  rewrite (Hq _ _ (quiet_summary ss _)), (Hq _ _ (quiet_finally fault _)),
    (Hq _ _ (quiet_handlers _ _)), Ed, Hd, Hc, HK. simpl.
  by apply (count_multiples 2).
Qed.

(** ** A recorded session *)

Module Recorded.

(** Asha (label 0, this class) is seen three times, Bala (label 1, another
    class) once, Chitra (label 2, not in the database) once, and one face
    is too far from any model. *)
Definition frames : list frame :=
  [Sample.quiet [Sample.seen 0 40];
   Sample.quiet [Sample.seen 0 40; Sample.seen 1 40];
   Sample.quiet [];
   Sample.quiet [Sample.seen 0 30; Sample.seen 2 50; Sample.seen 0 90]].

Definition asha : row :=
  ["Asha Rao"; "CSEA001"; "CSE"; "A"; "2026-01-05"; "09:00:01"].

Definition final : state :=
  match main Sample.env frames NoFault with
  | Completed st _ => st
  | NotStarted _ => Sample.st0
  end.

Lemma completes :
  main Sample.env frames NoFault = Completed final Controller.CameraReadFailed.
Proof. vm_compute. reflexivity. Qed.

Lemma outcome :
  appended (trace final) = [asha] ∧
  csv_file final = [header; asha] ∧
  attendance_queue final = [] ∧
  marked_names final = {[ "Asha Rao" ]} ∧
  detected (trace final) = [2; 4] ∧
  res_status <$> last_detection_results final
  = [correct_class; wrong_class; unknown].
Proof. vm_compute. repeat split; reflexivity. Qed.

End Recorded.

(** ** At most one event per student *)

(** C1. In every session, whatever the camera and the recognizer deliver
    and however the session ends, at most one row per name is appended to
    the queue, and at most one is written to the file. The accepted
    detection of a name of the session's class that is not yet marked
    appends exactly one row and adds the name to the marked set; a
    detection of a name already marked changes neither the queue nor the
    marked set, nor the cooldown table, the file or the trace. *)
Theorem one_event_per_label :
  (∀ env frames fault st reason name,
     main env frames fault = Completed st reason →
     (length (filter (λ r, row_name r = name) (appended (trace st))) ≤ 1)%nat ∧
     (length (filter (λ r, row_name r = name) (written (trace st))) ≤ 1)%nat)
  ∧
  (∀ ss ct st f label confidence,
     prediction f = Some (label, confidence) →
     (confidence < Config.RECOGNITION_CONFIDENCE_THRESHOLD)%Q →
     same_class ss (Roster.lookup (roster ss) label) →
     let rc := Roster.lookup (roster ss) label in
     let name := Roster.rec_name rc in
     let r := marked_row ss name (Roster.rec_roll_no rc) (now f) in
     let st' := Controller.process_face ss ct st f in
     (name ∉ marked_names st →
      attendance_queue st' = attendance_queue st ++ [r] ∧
      appended (trace st') = appended (trace st) ++ [r] ∧
      marked_names st' = marked_names st ∪ {[name]}) ∧
     (name ∈ marked_names st →
      attendance_queue st' = attendance_queue st ∧
      marked_names st' = marked_names st ∧
      recognition_cooldown st' = recognition_cooldown st ∧
      csv_file st' = csv_file st ∧
      trace st' = trace st)).
Proof.
  split.
  - intros env frames fault st reason name (ss & st0 & Hs & Hr)%main_completed.
    assert (Hg : good st).
    { replace st with (Controller.run ss frames fault st0).1 by (by rewrite Hr).
      apply good_run. by apply (startup_good env ss). }
    split; apply NoDup_fmap_count.
    + apply Hg.
    + by apply good_written_nodup.
  - intros ss ct st f label confidence Hp Hc Hs. simpl. split; intros Hm.
    + rewrite (process_face_newly_marked ss ct st f label confidence Hp Hc Hs Hm).
      simpl. rewrite appended_app. done.
    + rewrite (process_face_already_marked ss ct st f label confidence Hp Hc Hs Hm).
      done.
Qed.

Lemma one_event_per_label_witness :
  main Sample.env Recorded.frames NoFault
  = Completed Recorded.final Controller.CameraReadFailed ∧
  (length (filter (λ r, row_name r = "Asha Rao") (appended (trace Recorded.final)))
   ≤ 1)%nat.
Proof.
  split; [exact Recorded.completes|].
  destruct one_event_per_label as [Hsession _].
  exact (proj1 (Hsession Sample.env Recorded.frames NoFault Recorded.final
                  Controller.CameraReadFailed "Asha Rao" Recorded.completes)).
Defined.

(** ** The present count *)

(** C10. In every session the marked set is the set of names of the rows
    appended to the queue, one row per name, so its size is the number of
    appends; every frame shown carries, as its "Present" count, the number
    of rows appended before it; and the summary printed at the end reports
    the number of rows appended during the session. *)
Theorem present_count_is_enqueued_count (env : environment) (frames : list frame)
    (fault : io_fault) (st : state) (reason : Controller.exit_reason) :
  main env frames fault = Completed st reason →
  marked_names st = list_to_set (row_name <$> appended (trace st)) ∧
  size (marked_names st) = length (appended (trace st)) ∧
  (∀ pre n post,
     trace st = pre ++ ShowFrame n :: post → n = length (appended pre)) ∧
  ∃ pre listing,
    trace st = pre ++ [Print MsgSessionCompleted;
                       Print (MsgTotalPresent (length (appended pre)));
                       Print listing].
Proof.
  intros (ss & st0 & Hs & Hr)%main_completed.
  destruct (startup_good env ss st0 Hs) as [Hg0 _].
  destruct (startup_running env ss st0 Hs) as (_&_&_&_&_&_&_&Hprints&_).
  assert (Ho0 : overlay_ok 0 (trace st0)).
  { apply overlay_ok_no_show. eapply Forall_impl; [exact Hprints|].
    intros e [m ->] n. discriminate. }
  pose proof (good_run ss frames fault st0 Hg0) as Hg.
  pose proof (overlay_run ss frames fault st0 Hg0 Ho0) as Ho.
  rewrite Hr in Hg, Ho. simpl in Hg, Ho.
  split; [apply Hg|]. split; [by apply good_size|].
  split; [intros pre n post E; by eapply overlay_ok_shown|].
  rewrite run_unfold in Hr. simpl in Hr. injection Hr as Hst _.
  set (st2 := Controller.finally fault _) in Hst.
  assert (Hg2 : good st2).
  { apply good_finally. eapply good_silent; [apply silent_handlers|].
    by apply good_loop. }
  exists (trace st2). eexists.
  rewrite <- Hst, summary_unfold. simpl. unfold summary_lines.
  by rewrite (good_size st2 Hg2).
Qed.

Lemma present_count_is_enqueued_count_witness :
  main Sample.env Recorded.frames NoFault
  = Completed Recorded.final Controller.CameraReadFailed ∧
  size (marked_names Recorded.final) = length (appended (trace Recorded.final)).
Proof.
  split; [exact Recorded.completes|].
  exact (proj1 (proj2 (present_count_is_enqueued_count Sample.env Recorded.frames
                         NoFault Recorded.final Controller.CameraReadFailed
                         Recorded.completes))).
Defined.

(** ** The final flush *)

Module Exits.

Definition asha_seen : frame := Sample.quiet [Sample.seen 0 40].

Definition with_key (k : Z) (fr : frame) : frame :=
  {| current_time := current_time fr; faces := faces fr;
     capture_raises := capture_raises fr; display_raises := display_raises fr;
     key := k; flush_fault := flush_fault fr |}.

Definition raising_on_display (e : exn) (fr : frame) : frame :=
  {| current_time := current_time fr; faces := faces fr;
     capture_raises := capture_raises fr; display_raises := Some e;
     key := key fr; flush_fault := flush_fault fr |}.

(** Asha is marked on the second frame, and then the session ends in one
    of the four ways. *)
Definition read_failure : list frame := [Sample.quiet []; asha_seen].
Definition user_stop : list frame := [Sample.quiet []; with_key 113 asha_seen].
Definition ctrl_c : list frame :=
  [Sample.quiet []; raising_on_display KeyboardInterrupt asha_seen].
Definition crash : list frame :=
  [Sample.quiet []; raising_on_display OtherException asha_seen].

End Exits.

Lemma batch_write_opens_first (fault : io_fault) (st : state) :
  attendance_queue st ≠ [] →
  ∃ t, trace (Writer.batch_write_attendance fault st) = trace st ++ OpenAppend :: t.
Proof.
  intros Hq. destruct fault as [| |k|calls durable].
  - rewrite batch_write_no_fault by done. simpl.
    eexists. by rewrite <- (assoc_L (++)).
  - rewrite batch_write_open_fails by done. simpl.
    eexists. by rewrite <- (assoc_L (++)).
  - rewrite batch_write_write_fails by done. simpl.
    destruct (bool_decide _); simpl; eexists; by rewrite <- !(assoc_L (++)).
  - rewrite batch_write_device_fails by done. simpl.
    eexists. by rewrite <- !(assoc_L (++)).
Qed.

(** C9. However the loop is left (the camera fails to read, the user
    presses the quit key, [KeyboardInterrupt] or any other exception is
    raised), the state the handlers leave goes through the batch writer
    before the camera is released and before the summary is printed: the
    trace of the run is the trace at the exit, then the effects of that
    final write, then the release, then the summary. If rows are pending
    the file is opened for them, and when the file system works they are
    all appended to the file, in order, and the queue ends empty. *)
Theorem final_flush_on_every_exit (ss : session) (frames : list frame)
    (fault : io_fault) (st st_exit : state) (reason : Controller.exit_reason) :
  Controller.loop ss frames st = (st_exit, reason) →
  let st1 := Controller.handlers reason st_exit in
  let st2 := Writer.batch_write_attendance fault st1 in
  let st' := (Controller.run ss frames fault st).1 in
  (Controller.run ss frames fault st).2 = reason ∧
  trace st'
  = trace st2 ++ [CamRelease; DestroyAllWindows] ++ summary_lines ss st' ∧
  attendance_queue st1 = attendance_queue st_exit ∧
  (attendance_queue st_exit ≠ [] →
   ∃ t, trace st2 = trace st1 ++ OpenAppend :: t) ∧
  (fault = NoFault →
   attendance_queue st' = [] ∧
   csv_file st' = csv_file st_exit ++ attendance_queue st_exit ∧
   written (trace st') = written (trace st_exit) ++ attendance_queue st_exit).
Proof.
  intros Hl. simpl. rewrite run_unfold, Hl. simpl.
  set (st1 := Controller.handlers reason st_exit).
  destruct (silent_handlers reason st_exit) as (_ & Hq & Hc & _ & Hw).
  fold st1 in Hq, Hc, Hw.
  rewrite summary_unfold, finally_unfold. simpl.
  split; [done|]. split.
  { unfold summary_lines. simpl. by rewrite <- !(assoc_L (++)). }
  split; [exact Hq|]. split.
  { intros Hne. apply batch_write_opens_first. by rewrite Hq. }
  intros ->.
  destruct (flush_moves_queue_to_log_aux st1) as (E1 & E2 & E3).
  rewrite !written_app, !app_nil_r, E1, E2, E3, Hq, Hc, Hw. done.
Qed.

Lemma final_flush_on_every_exit_witness :
  let exit fs := Controller.loop Sample.ss fs Sample.st0 in
  let run fs := Controller.run Sample.ss fs NoFault Sample.st0 in
  (exit Exits.read_failure = ((exit Exits.read_failure).1, Controller.CameraReadFailed) ∧
   exit Exits.user_stop = ((exit Exits.user_stop).1, Controller.UserQuit) ∧
   exit Exits.ctrl_c = ((exit Exits.ctrl_c).1, Controller.Raised KeyboardInterrupt) ∧
   exit Exits.crash = ((exit Exits.crash).1, Controller.Raised OtherException)) ∧
  (attendance_queue (exit Exits.read_failure).1 = [Recorded.asha] ∧
   attendance_queue (exit Exits.user_stop).1 = [Recorded.asha] ∧
   attendance_queue (exit Exits.ctrl_c).1 = [Recorded.asha] ∧
   attendance_queue (exit Exits.crash).1 = [Recorded.asha]) ∧
  csv_file (run Exits.read_failure).1 = [header; Recorded.asha] ∧
  csv_file (run Exits.user_stop).1 = [header; Recorded.asha] ∧
  csv_file (run Exits.ctrl_c).1 = [header; Recorded.asha] ∧
  csv_file (run Exits.crash).1 = [header; Recorded.asha].
Proof.
  cbv zeta.
  assert (H1 : Controller.loop Sample.ss Exits.read_failure Sample.st0
               = ((Controller.loop Sample.ss Exits.read_failure Sample.st0).1,
                  Controller.CameraReadFailed)) by (vm_compute; reflexivity).
  assert (H2 : Controller.loop Sample.ss Exits.user_stop Sample.st0
               = ((Controller.loop Sample.ss Exits.user_stop Sample.st0).1,
                  Controller.UserQuit)) by (vm_compute; reflexivity).
  assert (H3 : Controller.loop Sample.ss Exits.ctrl_c Sample.st0
               = ((Controller.loop Sample.ss Exits.ctrl_c Sample.st0).1,
                  Controller.Raised KeyboardInterrupt)) by (vm_compute; reflexivity).
  assert (H4 : Controller.loop Sample.ss Exits.crash Sample.st0
               = ((Controller.loop Sample.ss Exits.crash Sample.st0).1,
                  Controller.Raised OtherException)) by (vm_compute; reflexivity).
  split; [exact (conj H1 (conj H2 (conj H3 H4)))|].
  pose proof (final_flush_on_every_exit Sample.ss Exits.read_failure NoFault
                Sample.st0 _ _ H1) as (_ & _ & _ & _ & F1).
  pose proof (final_flush_on_every_exit Sample.ss Exits.user_stop NoFault
                Sample.st0 _ _ H2) as (_ & _ & _ & _ & F2).
  pose proof (final_flush_on_every_exit Sample.ss Exits.ctrl_c NoFault
                Sample.st0 _ _ H3) as (_ & _ & _ & _ & F3).
  pose proof (final_flush_on_every_exit Sample.ss Exits.crash NoFault
                Sample.st0 _ _ H4) as (_ & _ & _ & _ & F4).
  pose proof (proj1 (proj2 (F1 eq_refl))) as E1.
  pose proof (proj1 (proj2 (F2 eq_refl))) as E2.
  pose proof (proj1 (proj2 (F3 eq_refl))) as E3.
  pose proof (proj1 (proj2 (F4 eq_refl))) as E4.
  clear H1 H2 H3 H4 F1 F2 F3 F4.
  split; [clear; vm_compute; repeat split; reflexivity|].
  split; [etrans; [exact E1 | clear; vm_compute; reflexivity]|].
  split; [etrans; [exact E2 | clear; vm_compute; reflexivity]|].
  split; [etrans; [exact E3 | clear; vm_compute; reflexivity]|].
  etrans; [exact E4 | clear; vm_compute; reflexivity].
Defined.

(** X4. When no write fails, every row ever appended to the queue is in the
    file when the script ends, however it ends: the queue is empty and the
    file is what start-up found followed by the marks of the session, in
    marking order. *)
Lemma session_log_complete (env : environment) (frames : list frame)
    (st : state) (reason : Controller.exit_reason) :
  Forall (λ fr, flush_fault fr = NoFault) frames →
  main env frames NoFault = Completed st reason →
  attendance_queue st = [] ∧
  csv_file st = initial_csv env ++ appended (trace st) ∧
  written (trace st) = appended (trace st).
Proof.
  intros Hf (ss & st0 & Hs & Hr)%main_completed.
  destruct (startup_good env ss st0 Hs) as [_ He0].
  destruct (exact_run (initial_csv env) ss frames st0 Hf He0) as [[H1 H2] Hq].
  rewrite Hr in H1, H2, Hq. simpl in H1, H2, Hq.
  rewrite Hq, app_nil_r in H1. by rewrite H2, H1.
Qed.

(** ** Starting with an empty class roster *)

Module EmptyClass.

(** The sample classroom, asked for MECH-A, where nobody is enrolled. *)
Definition env : environment :=
  {| argv := ["recognize_attendance.py"; "mech"; "a"];
     student_db_file := student_db_file Sample.env;
     trainer_model_exists := true;
     recognizer_reads := true;
     face_cascade_empty := false;
     dataset_exists := true;
     dataset_listing := dataset_listing Sample.env;
     attendance_csv := None;
     camera_opens := true |}.

Definition frames : list frame :=
  [Sample.quiet [Sample.seen 0 40]; Sample.quiet [Sample.seen 0 40]].

(** No dataset folder at all, and a session asked for UNKNOWN-UNKNOWN. *)
Definition nobody : environment :=
  {| argv := ["recognize_attendance.py"; "unknown"; "unknown"];
     student_db_file := DbMissing;
     trainer_model_exists := true;
     recognizer_reads := true;
     face_cascade_empty := false;
     dataset_exists := true;
     dataset_listing := [];
     attendance_csv := None;
     camera_opens := true |}.

End EmptyClass.

(** C2, as stated, fails. For a class without a single student the script
    prints a warning and goes on: the loop is entered, frames are read and
    handed to the detector, and the script runs to its summary. *)
Lemma empty_class_session_runs :
  size (Roster.class_students "MECH" "A" Sample.ix) = 0%nat ∧
  (∃ st, startup EmptyClass.env
         = Running {| branch := "MECH"; section := "A"; roster := Sample.ix;
                      process_every_n_frames := 2 |} st ∧
         trace st = [Print (MsgNoStudentsWarning "MECH" "A"); Print MsgCreatedCsv]) ∧
  (∃ st, main EmptyClass.env EmptyClass.frames NoFault
         = Completed st Controller.CameraReadFailed ∧
         frame_count st = 2 ∧
         detected (trace st) = [2] ∧
         res_status <$> last_detection_results st = [wrong_class]) ∧
  ¬ (∃ code out, startup EmptyClass.env = Exited code out).
Proof.
  split; [by vm_compute|]. split; [eexists; by vm_compute|].
  split; [eexists; by vm_compute|].
  intros (code & out & H). vm_compute in H. discriminate.
Qed.

(** With an empty class roster a row can even be appended: a label that the
    index does not know reads as UNKNOWN-UNKNOWN, which is the class of a
    session started for "unknown" "unknown". *)
Example empty_roster_can_still_mark :
  Roster.class_students "UNKNOWN" "UNKNOWN" Roster.empty_index = ∅ ∧
  startup EmptyClass.nobody
  = Running {| branch := "UNKNOWN"; section := "UNKNOWN";
               roster := Roster.empty_index; process_every_n_frames := 2 |}
            {| marked_names := ∅; recognition_cooldown := ∅;
               attendance_queue := []; frame_count := 0;
               last_detection_results := []; csv_file := [header];
               trace := [Print (MsgNoStudentsWarning "UNKNOWN" "UNKNOWN");
                         Print MsgCreatedCsv] |} ∧
  match main EmptyClass.nobody EmptyClass.frames NoFault with
  | Completed st _ => row_name <$> appended (trace st)
  | NotStarted _ => []
  end = ["Unknown"].
Proof. split; [|split]; vm_compute; reflexivity. Qed.

(** C2, amended. When the arguments, the model, the cascade, the dataset
    folder and the camera are in order, the script enters its loop for the
    class given on the command line (upper-cased) whatever the size of that
    class's roster; when the roster of the class is empty it prints a
    warning first. The loop starts with nothing marked, nothing queued and
    the frame counter at zero. *)
Theorem empty_class_roster_only_warns (env : environment) (a0 b s : string)
    (rest : list string) :
  argv env = a0 :: b :: s :: rest →
  trainer_model_exists env = true →
  recognizer_reads env = true →
  face_cascade_empty env = false →
  dataset_exists env = true →
  camera_opens env = true →
  ∃ ss st,
    startup env = Running ss st ∧
    branch ss = PyStr.upper b ∧ section ss = PyStr.upper s ∧
    Roster.build (load_student_database (student_db_file env)) (dataset_listing env)
    = Some (roster ss) ∧
    (Roster.class_students (branch ss) (section ss) (roster ss) = ∅ →
     Print (MsgNoStudentsWarning (branch ss) (section ss)) ∈ trace st) ∧
    marked_names st = ∅ ∧ attendance_queue st = [] ∧ frame_count st = 0.
Proof.
  intros Ha Ht Hr Hc Hd Hcam. unfold startup.
  rewrite Ha, Ht, Hr, Hc, Hd, Hcam. simpl.
  destruct (build_from_is_Some (load_student_database (student_db_file env))
              (dataset_listing env) Roster.empty_index) as [ix Hix].
  unfold Roster.build. rewrite Hix.
  destruct (attendance_csv env); eexists _, _; (split; [reflexivity|]); simpl;
    (repeat split; try done); intros E; rewrite decide_True by done;
    set_solver.
Qed.

Lemma empty_class_roster_only_warns_witness :
  argv EmptyClass.env = ["recognize_attendance.py"; "mech"; "a"] ∧
  trainer_model_exists EmptyClass.env = true ∧
  recognizer_reads EmptyClass.env = true ∧
  face_cascade_empty EmptyClass.env = false ∧
  dataset_exists EmptyClass.env = true ∧
  camera_opens EmptyClass.env = true ∧
  ∃ ss st, startup EmptyClass.env = Running ss st ∧
           branch ss = "MECH" ∧ section ss = "A".
Proof.
  do 6 (split; [reflexivity|]).
  destruct (empty_class_roster_only_warns EmptyClass.env
              "recognize_attendance.py" "mech" "a" []
              eq_refl eq_refl eq_refl eq_refl eq_refl eq_refl)
    as (ss & st & Hs & Hb & Hsec & _).
  exists ss, st. split; [exact Hs|]. split; [exact Hb | exact Hsec].
Defined.

(** * The session as a sequence of elementary steps *)

(** What the script can do to its state, one elementary action at a time.
    Every run of the loop, of the writer and of the shutdown code is a
    sequence of these, so a property kept by each of them holds at the end
    of every session. *)
Inductive step (ss : session) : state → state → Prop :=
| step_count st :
    step ss st (Controller.set_frame_count (frame_count st + 1) st)
| step_clear st :
    step ss st (Controller.clear_results st)
| step_result st r :
    step ss st (Controller.add_result r st)
| step_print st m :
    step ss st (print m st)
| step_detect st :
    step ss st (emit (DetectFaces (frame_count st)) st)
| step_show st :
    step ss st (emit (ShowFrame (size (marked_names st))) st)
| step_open st :
    step ss st (emit OpenAppend st)
| step_release st :
    step ss st (emit CamRelease st)
| step_destroy st :
    step ss st (emit DestroyAllWindows st)
| step_mark st ct f label confidence :
    prediction f = Some (label, confidence) →
    (confidence < Config.RECOGNITION_CONFIDENCE_THRESHOLD)%Q →
    same_class ss (Roster.lookup (roster ss) label) →
    Roster.rec_name (Roster.lookup (roster ss) label) ∉ marked_names st →
    step ss st
      (Controller.mark ss (Roster.rec_name (Roster.lookup (roster ss) label))
         (Roster.rec_roll_no (Roster.lookup (roster ss) label)) ct (now f) st)
| step_write st r q :
    attendance_queue st = r :: q →
    step ss st (Writer.set_queue q (wrote [r] st))
| step_lose st r q :
    attendance_queue st = r :: q →
    step ss st (Writer.set_queue q st).

Abbreviation steps ss := (rtc (step ss)).

Section Steps.

Variable ss : session.

Lemma steps_process_face (ct : datetime) (st : state) (f : face) :
  steps ss st (Controller.process_face ss ct st f).
Proof.
  destruct (prediction f) as [[label confidence]|] eqn:Hp.
  2:{ by rewrite process_face_skipped. }
  destruct (Qltb confidence Config.RECOGNITION_CONFIDENCE_THRESHOLD) eqn:Hc.
  2:{ apply Qltb_not_lt in Hc.
      rewrite (process_face_rejected ss ct st f label confidence Hp Hc).
      apply rtc_once, step_result. }
  apply Qltb_lt in Hc.
  destruct (decide (same_class ss (Roster.lookup (roster ss) label))) as [Hs|Hs].
  2:{ rewrite (process_face_wrong_class ss ct st f label confidence Hp Hc Hs).
      apply rtc_once, step_result. }
  destruct (decide (Roster.rec_name (Roster.lookup (roster ss) label)
                      ∈ marked_names st)) as [Hm|Hm].
  - rewrite (process_face_already_marked ss ct st f label confidence Hp Hc Hs Hm).
    apply rtc_once, step_result.
  - rewrite (process_face_newly_marked ss ct st f label confidence Hp Hc Hs Hm).
    simpl. eapply rtc_l; [by eapply step_mark|]. apply rtc_once, step_result.
Qed.

Lemma steps_faces (ct : datetime) (fs : list face) :
  ∀ st, steps ss st (foldl (Controller.process_face ss ct) st fs).
Proof.
  induction fs as [|f fs IH]; intros st; simpl; [done|].
  etrans; [apply steps_process_face | apply IH].
Qed.

Lemma steps_sample (fr : frame) (st : state) :
  steps ss st (Controller.sample ss fr st).
Proof.
  unfold Controller.sample.
  eapply rtc_l; [apply step_detect|].
  eapply rtc_l; [apply step_clear|]. apply steps_faces.
Qed.

Lemma steps_write (rows : list row) :
  ∀ st q, attendance_queue st = rows ++ q →
          steps ss st (Writer.set_queue q (wrote rows st)).
Proof.
  induction rows as [|r rows IH]; intros st q Hq; simpl in Hq.
  - replace (Writer.set_queue q (wrote [] st)) with st; [done|].
    unfold Writer.set_queue, wrote. simpl. rewrite !app_nil_r, <- Hq. by destruct st.
  - eapply rtc_l; [by eapply step_write|].
    replace (Writer.set_queue q (wrote (r :: rows) st))
      with (Writer.set_queue q
              (wrote rows (Writer.set_queue (rows ++ q) (wrote [r] st)))).
    + by apply IH.
    + unfold Writer.set_queue, wrote. simpl. by rewrite <- !(assoc_L (++)).
Qed.

Lemma steps_lose (n : nat) :
  ∀ st, steps ss st (Writer.set_queue (drop n (attendance_queue st)) st).
Proof.
  induction n as [|n IH]; intros st.
  - rewrite drop_0. by destruct st.
  - destruct (attendance_queue st) as [|r q] eqn:E.
    + simpl. rewrite <- E. by destruct st.
    + eapply rtc_l; [by eapply step_lose|].
      exact (IH (Writer.set_queue q st)).
Qed.

Lemma steps_batch_write (fault : io_fault) (st : state) :
  steps ss st (Writer.batch_write_attendance fault st).
Proof.
  destruct (decide (attendance_queue st = [])) as [E|Hq].
  { unfold Writer.batch_write_attendance. by rewrite E. }
  eapply rtc_l; [apply step_open|].
  set (st1 := emit OpenAppend st).
  destruct fault as [| |k|calls durable].
  - rewrite batch_write_no_fault by done. fold st1.
    apply steps_write. simpl. by rewrite app_nil_r.
  - rewrite batch_write_open_fails by done. apply rtc_once, step_print.
  - rewrite batch_write_write_fails by done. fold st1. simpl.
    destruct (decide (k < length (attendance_queue st))%nat) as [Hk|Hk].
    + rewrite bool_decide_eq_true_2 by done.
      destruct (drop k (attendance_queue st)) as [|r q'] eqn:Hd.
      { apply (f_equal length) in Hd. rewrite length_drop in Hd. simpl in Hd. lia. }
      assert (Hq' : drop (S k) (attendance_queue st) = q').
      { replace (S k) with (k + 1)%nat by lia.
        by rewrite <- drop_drop, Hd. }
      rewrite Hq'.
      etrans; [apply (steps_write (take k (attendance_queue st)) st1 (r :: q'))|].
      { simpl. by rewrite <- Hd, take_drop. }
      eapply rtc_l; [by eapply step_lose|]. apply rtc_once, step_print.
    + rewrite bool_decide_eq_false_2 by done.
      apply steps_write. simpl.
      by rewrite take_ge, drop_ge, app_nil_r by lia.
  - rewrite batch_write_device_fails by done. fold st1.
    set (m := Nat.min durable calls).
    etrans; [apply (steps_write (take m (attendance_queue st)) st1
                      (drop m (attendance_queue st)))|].
    { simpl. by rewrite take_drop. }
    etrans; [apply (steps_lose (S calls - m))|]. simpl.
    rewrite drop_drop. replace (m + (S calls - m))%nat with (S calls) by lia.
    apply rtc_once, step_print.
Qed.

Lemma steps_loop (frames : list frame) :
  ∀ st, steps ss st (Controller.loop ss frames st).1.
Proof.
  induction frames as [|fr rest IH]; intros st; cbn [Controller.loop].
  { apply rtc_once, step_print. }
  eapply rtc_l; [apply step_count|].
  set (st1 := Controller.set_frame_count _ st).
  destruct (capture_raises fr); [done|].
  destruct (process_every_n_frames ss =? 0)%Z; [done|].
  set (st2 := if (_ =? 0)%Z then Controller.sample ss fr st1 else st1).
  assert (H2 : steps ss st1 st2).
  { unfold st2. destruct (_ =? 0)%Z; [apply steps_sample | done]. }
  etrans; [exact H2|].
  destruct (display_raises fr); [done|].
  eapply rtc_l; [apply step_show|].
  set (st3 := emit (ShowFrame _) st2).
  destruct (Controller.is_quit (key fr)); [apply rtc_once, step_print|].
  etrans; [|apply IH].
  destruct (frame_count st3 mod Config.BATCH_WRITE_INTERVAL =? 0)%Z; [|done].
  destruct (attendance_queue st3) eqn:E; [done|]. apply steps_batch_write.
Qed.

Lemma steps_handlers (reason : Controller.exit_reason) (st : state) :
  steps ss st (Controller.handlers reason st).
Proof. destruct reason as [| |[|]]; simpl; try done; apply rtc_once, step_print. Qed.

Lemma steps_finally (fault : io_fault) (st : state) :
  steps ss st (Controller.finally fault st).
Proof.
  rewrite finally_unfold. etrans; [apply steps_batch_write|].
  eapply rtc_l; [apply step_release|]. apply rtc_once, step_destroy.
Qed.

Lemma steps_summary (st : state) : steps ss st (Controller.summary ss st).
Proof.
  unfold Controller.summary.
  eapply rtc_l; [apply (step_print ss st MsgSessionCompleted)|].
  eapply rtc_l; [apply step_print|].
  destruct (decide _); apply rtc_once, step_print.
Qed.

Lemma steps_run (frames : list frame) (fault : io_fault) (st : state) :
  steps ss st (Controller.run ss frames fault st).1.
Proof.
  rewrite run_unfold. simpl.
  etrans; [apply steps_loop|]. etrans; [apply steps_handlers|].
  etrans; [apply steps_finally|]. apply steps_summary.
Qed.

(** A property kept by every elementary step holds after any number of
    them. *)
Lemma steps_invariant (I : state → Prop) :
  (∀ st st', step ss st st' → I st → I st') →
  ∀ st st', steps ss st st' → I st → I st'.
Proof. intros Hstep st st' Hs. induction Hs; eauto. Qed.

End Steps.

Lemma main_steps (env : environment) (frames : list frame) (fault : io_fault)
    (st : state) (reason : Controller.exit_reason) :
  main env frames fault = Completed st reason →
  ∃ ss st0, startup env = Running ss st0 ∧ steps ss st0 st.
Proof.
  intros (ss & st0 & Hs & Hr)%main_completed. exists ss, st0. split; [done|].
  replace st with (Controller.run ss frames fault st0).1 by (by rewrite Hr).
  apply steps_run.
Qed.

(** * Further properties of the recognition script *)

(** ** Start-up *)

(** Everything start-up checks before the loop. *)
Definition checks_pass (env : environment) : Prop :=
  (3 ≤ length (argv env))%nat ∧
  trainer_model_exists env = true ∧
  recognizer_reads env = true ∧
  face_cascade_empty env = false ∧
  dataset_exists env = true ∧
  camera_opens env = true.

#[global] Instance checks_pass_dec (env : environment) : Decision (checks_pass env).
Proof. unfold checks_pass. apply _. Defined.

(** With a database of strings the loop is reached exactly when every
    check passes. *)
Lemma startup_running_iff (env : environment) :
  (∃ ss st, startup env = Running ss st) ↔ checks_pass env.
Proof.
  unfold checks_pass, startup.
  destruct (build_from_is_Some (load_student_database (student_db_file env))
              (dataset_listing env) Roster.empty_index) as [ix Hix].
  unfold Roster.build. rewrite Hix.
  destruct (argv env) as [|a0 [|b [|s rest]]]; simpl;
    try (split; [intros (?&?&?); discriminate | lia]).
  destruct (trainer_model_exists env), (recognizer_reads env),
    (face_cascade_empty env), (dataset_exists env), (attendance_csv env),
    (camera_opens env); simpl;
    split;
    try (intros (?&?&?); discriminate);
    try (intros (?&?&?&?&?&?); discriminate);
    try (intros; eauto; fail);
    try (intros _; repeat split; lia).
Qed.

(** The checks made before the dataset folder is listed. *)
Definition early_checks_pass (env : environment) : Prop :=
  (3 ≤ length (argv env))%nat ∧
  trainer_model_exists env = true ∧
  recognizer_reads env = true ∧
  face_cascade_empty env = false ∧
  dataset_exists env = true.

#[global] Instance early_checks_pass_dec (env : environment) :
  Decision (early_checks_pass env).
Proof. unfold early_checks_pass. apply _. Defined.


Section StartupOutcomes.

Variables lower upper : string → string.
Variable w : Raw.world.

Lemma raw_startup_early_fail :
  ¬ early_checks_pass (Raw.facts w) → Raw.startup lower upper w = Raw.Exits 1.
Proof.
  unfold early_checks_pass, Raw.startup. intros H.
  destruct (argv (Raw.facts w)) as [|a0 [|b [|s rest]]]; try done.
  destruct (trainer_model_exists (Raw.facts w)); [|done].
  destruct (recognizer_reads (Raw.facts w)); [|done].
  destruct (face_cascade_empty (Raw.facts w)); [done|].
  destruct (dataset_exists (Raw.facts w)); [|done].
  exfalso. apply H. simpl. repeat split; lia || done.
Qed.

Lemma raw_startup_early_pass :
  early_checks_pass (Raw.facts w) →
  ∃ a0 b s rest,
    argv (Raw.facts w) = a0 :: b :: s :: rest ∧
    Raw.startup lower upper w
    = match Raw.build lower (Raw.database w) (dataset_listing (Raw.facts w)) with
      | Raises e => Raw.Dies e
      | Returns ix =>
        match attendance_csv (Raw.facts w), Raw.csv_creatable w with
        | None, false => Raw.Dies OSError
        | _, _ =>
          if camera_opens (Raw.facts w) then Raw.Enters (upper b) (upper s) ix
          else Raw.Exits 1
        end
      end.
Proof.
  unfold early_checks_pass, Raw.startup. intros (Ha & Ht & Hr & Hc & Hd).
  destruct (argv (Raw.facts w)) as [|a0 [|b [|s rest]]]; simpl in Ha; try lia.
  exists a0, b, s, rest. split; [done|]. rewrite Ht, Hr, Hc, Hd. simpl.
  destruct (Raw.build _ _ _); [|done].
  destruct (attendance_csv (Raw.facts w)), (Raw.csv_creatable w),
    (camera_opens (Raw.facts w)); done.
Qed.

End StartupOutcomes.


(** On a database of strings both descriptions of start-up reach the loop
    in the same cases, for the same class. *)
Lemma typed_startup_agrees (env : environment) :
  (∃ b s ix, Raw.startup PyStr.lower PyStr.upper (Raw.typed env) = Raw.Enters b s ix)
  ↔ (∃ ss st, startup env = Running ss st).
Proof.
  rewrite startup_running_iff. unfold checks_pass. split.
  - intros (b & s & ix & H).
    destruct (decide (early_checks_pass env)) as [He|He].
    2:{ rewrite (raw_startup_early_fail _ _ (Raw.typed env) He) in H. discriminate. }
    destruct (raw_startup_early_pass PyStr.lower PyStr.upper (Raw.typed env) He)
      as (a0 & b0 & s0 & rest & Ha & E).
    rewrite E in H. simpl in H.
    destruct (Raw.build _ _ _); [|discriminate].
    destruct He as (? & ? & ? & ? & ?).
    destruct (attendance_csv env), (camera_opens env); try discriminate;
      repeat split; done.
  - intros (Ha & Ht & Hr & Hc & Hd & Hcam).
    assert (He : early_checks_pass env) by (by repeat split).
    destruct (raw_startup_early_pass PyStr.lower PyStr.upper (Raw.typed env) He)
      as (a0 & b0 & s0 & rest & _ & E).
    rewrite E. simpl.
    destruct (raw_build_from_binds PyStr.lower
                (Raw.of_strings (load_student_database (student_db_file env)))
                (dataset_listing env) (names_are_strings_of_strings _)
                Raw.empty_index) as (ix & Hb & _).
    unfold Raw.build. rewrite Hb, Hcam.
    destruct (attendance_csv env); eauto.
Qed.

Module Malformed.

(** The classroom of the examples, with a database whose one record has
    the name [null]. *)
Definition world : Raw.world :=
  {| Raw.facts := Sample.env;
     Raw.database := NullName.db;
     Raw.csv_creatable := true |}.

End Malformed.

Example startup_dies_on_null_name :
  Raw.startup PyStr.lower PyStr.upper Malformed.world = Raw.Dies AttributeError.
Proof. vm_compute. reflexivity. Qed.


(** ** The attendance file *)

Lemma step_csv_tracks (ss : session) (base : list row) (st st' : state) :
  step ss st st' →
  csv_file st = base ++ written (trace st) →
  csv_file st' = base ++ written (trace st').
Proof.
  intros Hs H. destruct Hs; simpl; rewrite ?written_app; simpl;
    rewrite ?app_nil_r, ?H, ?(assoc_L (++)); done.
Qed.

Lemma log_rows_are_marks (env : environment) (frames : list frame)
    (fault : io_fault) (st : state) (reason : Controller.exit_reason) :
  main env frames fault = Completed st reason →
  (written (trace st) ++ attendance_queue st) `sublist_of` appended (trace st) ∧
  NoDup (row_name <$> written (trace st)).
Proof.
  intros (ss & st0 & Hs & Hr)%main_completed.
  assert (Hg : good st).
  { replace st with (Controller.run ss frames fault st0).1 by (by rewrite Hr).
    apply good_run. by apply (startup_good env ss). }
  split; [apply Hg | by apply good_written_nodup].
Qed.

(** A session whose final write fails at [close()] with nothing written
    out: the mark of Asha is lost and the file is the header alone. *)
Module Lost.

Definition final : state :=
  match main Sample.env Recorded.frames (DeviceFails 5 0) with
  | Completed st _ => st
  | NotStarted _ => Sample.st0
  end.


Lemma lost_session_outcome :
  appended (trace final) = [Recorded.asha] ∧
  written (trace final) = [] ∧
  attendance_queue final = [] ∧
  csv_file final = [header].
Proof. vm_compute. repeat split; reflexivity. Qed.

End Lost.



(** ** The cooldown table *)

Lemma step_cooldown (ss : session) (st st' : state) :
  step ss st st' →
  dom (recognition_cooldown st) = marked_names st →
  dom (recognition_cooldown st') = marked_names st'.
Proof.
  intros Hs H. destruct Hs; simpl; try done.
  rewrite dom_insert_L, H. apply (comm_L (∪)).
Qed.

(** X3. At the end of every session the cooldown table holds a time stamp
    for exactly the names that were marked: a name is marked if and only if
    it has a cooldown entry. *)
Theorem cooldown_entries_are_the_marked_names (env : environment)
    (frames : list frame) (fault : io_fault) (st : state)
    (reason : Controller.exit_reason) :
  main env frames fault = Completed st reason →
  dom (recognition_cooldown st) = marked_names st ∧
  ∀ name, name ∈ marked_names st ↔ is_Some (recognition_cooldown st !! name).
Proof.
  intros Hm. destruct (main_steps _ _ _ _ _ Hm) as (ss & st0 & Hs & Hsteps).
  assert (Hd : dom (recognition_cooldown st) = marked_names st).
  { eapply (steps_invariant ss
              (λ s, dom (recognition_cooldown s) = marked_names s));
      [apply step_cooldown | exact Hsteps |].
    unfold startup in Hs.
    repeat (match type of Hs with
            | context [match ?x with _ => _ end] => destruct x; try discriminate
            end).
    all: injection Hs as <- <-; simpl; apply dom_empty_L. }
  split; [exact Hd|]. intros name. by rewrite <- Hd, elem_of_dom.
Qed.

Lemma cooldown_entries_are_the_marked_names_witness :
  main Sample.env Recorded.frames NoFault
  = Completed Recorded.final Controller.CameraReadFailed ∧
  dom (recognition_cooldown Recorded.final) = marked_names Recorded.final.
Proof.
  split; [exact Recorded.completes|].
  exact (proj1 (cooldown_entries_are_the_marked_names Sample.env Recorded.frames
                  NoFault Recorded.final Controller.CameraReadFailed
                  Recorded.completes)).
Defined.

(** ** The rows of a session *)

(** A row as the session writes it: six fields, the name and roll number
    of a roster record that resolves to the session's class, then that
    class. *)
Definition session_row (ss : session) (r : row) : Prop :=
  ∃ label d t,
    same_class ss (Roster.lookup (roster ss) label) ∧
    r = [Roster.rec_name (Roster.lookup (roster ss) label);
         Roster.rec_roll_no (Roster.lookup (roster ss) label);
         branch ss; section ss; d; t].

Lemma step_session_rows (ss : session) (st st' : state) :
  step ss st st' →
  Forall (session_row ss) (appended (trace st)) →
  Forall (session_row ss) (appended (trace st')).
Proof.
  intros Hs H. destruct Hs; simpl; rewrite ?appended_app; simpl;
    rewrite ?app_nil_r; try done.
  apply Forall_app. split; [done|]. apply Forall_singleton.
  by exists label, (date_str (now f)), (time_str (now f)).
Qed.

Lemma main_session_rows (env : environment) (frames : list frame)
    (fault : io_fault) (ss : session) (st0 st : state)
    (reason : Controller.exit_reason) :
  startup env = Running ss st0 →
  main env frames fault = Completed st reason →
  Forall (session_row ss) (appended (trace st)).
Proof.
  intros Hs Hm.
  destruct (main_steps _ _ _ _ _ Hm) as (ss' & st0' & Hs' & Hsteps).
  rewrite Hs in Hs'. injection Hs' as <- <-.
  destruct (startup_running env ss st0 Hs) as (_&_&_&_&Ha&_).
  eapply (steps_invariant ss (λ s, Forall (session_row ss) (appended (trace s))));
    [apply step_session_rows | exact Hsteps |]. by rewrite Ha.
Qed.

Lemma main_csv_tracks (env : environment) (frames : list frame)
    (fault : io_fault) (st : state) (reason : Controller.exit_reason) :
  main env frames fault = Completed st reason →
  csv_file st = initial_csv env ++ written (trace st).
Proof.
  intros Hm. destruct (main_steps _ _ _ _ _ Hm) as (ss & st0 & Hs & Hsteps).
  destruct (startup_running env ss st0 Hs) as (_&_&_&Hc&_&Hw&_).
  eapply (steps_invariant ss (λ s, csv_file s = initial_csv env ++ written (trace s)));
    [apply step_csv_tracks | exact Hsteps |].
  by rewrite Hc, Hw, app_nil_r.
Qed.

(** X5. Every row a session adds to the attendance file has the six fields
    of the header; its branch and section are the session's class, and its
    name and roll number are those of one roster record that resolves to
    that class. *)
Theorem written_rows_carry_the_session_class (env : environment)
    (frames : list frame) (fault : io_fault) (ss : session) (st0 st : state)
    (reason : Controller.exit_reason) (r : row) :
  startup env = Running ss st0 →
  main env frames fault = Completed st reason →
  r ∈ written (trace st) →
  length r = length header ∧
  r !! 2%nat = Some (branch ss) ∧ r !! 3%nat = Some (section ss) ∧
  ∃ label,
    same_class ss (Roster.lookup (roster ss) label) ∧
    r !! 0%nat = Some (Roster.rec_name (Roster.lookup (roster ss) label)) ∧
    r !! 1%nat = Some (Roster.rec_roll_no (Roster.lookup (roster ss) label)).
Proof.
  intros Hs Hm Hr.
  pose proof (main_session_rows env frames fault ss st0 st reason Hs Hm) as Hrows.
  destruct (log_rows_are_marks env frames fault st reason Hm) as [Hsub _].
  assert (Hin : r ∈ appended (trace st)).
  { eapply elem_of_sublist; [|exact Hsub]. apply elem_of_app. by left. }
  rewrite Forall_forall in Hrows.
  destruct (Hrows r Hin) as (label & d & t & Hc & ->).
  repeat split. by exists label.
Qed.

Lemma written_rows_carry_the_session_class_witness :
  startup Sample.env = Running Sample.ss
    {| marked_names := ∅; recognition_cooldown := ∅; attendance_queue := [];
       frame_count := 0; last_detection_results := []; csv_file := [header];
       trace := [Print (MsgClassSize 1 "CSE" "A"); Print MsgCreatedCsv] |} ∧
  main Sample.env Recorded.frames NoFault
  = Completed Recorded.final Controller.CameraReadFailed ∧
  Recorded.asha ∈ written (trace Recorded.final) ∧
  Recorded.asha !! 2%nat = Some "CSE".
Proof.
  assert (Hin : Recorded.asha ∈ written (trace Recorded.final))
    by (vm_compute; left).
  split; [exact sample_startup_runs|]. split; [exact Recorded.completes|].
  split; [exact Hin|].
  exact (proj1 (proj2 (written_rows_carry_the_session_class Sample.env
                         Recorded.frames NoFault Sample.ss _ Recorded.final
                         Controller.CameraReadFailed Recorded.asha
                         sample_startup_runs Recorded.completes Hin))).
Defined.

(** ** The class roster and the loop's class test *)

Lemma class_students_lookup (b s : string) (ix : Roster.index) (name : string)
    (i : info) :
  Roster.class_students b s ix !! name = Some i
  ↔ Roster.name_to_info ix !! name = Some i ∧ Roster.in_class b s i.
Proof. unfold Roster.class_students. by rewrite map_lookup_filter_Some. Qed.

Lemma on_roster_same_class (ss : session) (label : Z) :
  is_Some (Roster.class_students (branch ss) (section ss) (roster ss)
             !! Roster.rec_name (Roster.lookup (roster ss) label)) →
  same_class ss (Roster.lookup (roster ss) label).
Proof.
  intros [i [Hi [Hb Hs]]%class_students_lookup].
  unfold same_class, Roster.lookup in *. simpl in *.
  by rewrite Hi; simpl; rewrite Hb, Hs.
Qed.

Lemma same_class_on_roster (ss : session) (label : Z) :
  branch ss ≠ "UNKNOWN" → section ss ≠ "UNKNOWN" →
  same_class ss (Roster.lookup (roster ss) label) →
  is_Some (Roster.class_students (branch ss) (section ss) (roster ss)
             !! Roster.rec_name (Roster.lookup (roster ss) label)).
Proof.
  intros Hb Hs [Eb Es]. unfold Roster.lookup in *. simpl in *.
  destruct (Roster.name_to_info (roster ss) !! _) as [i|] eqn:Hi; simpl in *.
  - exists i. apply class_students_lookup. split; [done|]. split.
    + destruct (i !! "branch"); simpl in *; congruence.
    + destruct (i !! "section"); simpl in *; congruence.
  - by destruct Hb.
Qed.

(** Both conditions on the class are needed below: in a session for
    UNKNOWN-A a record without ['branch'] and with section "A" is treated
    as "correct class" by the loop, which reads a missing branch as
    "UNKNOWN", and is not on the class roster, whose filter reads it as
    [None]. *)
Example unknown_branch_is_marked_off_roster :
  let ix := {| Roster.label_map := {[ 0 := "X" ]};
               Roster.name_to_info := {[ "X" := {[ "section" := "A" ]} ]};
               Roster.label_id := 1 |} in
  let ss := {| branch := "UNKNOWN"; section := "A"; roster := ix;
               process_every_n_frames := 2 |} in
  same_class ss (Roster.lookup (roster ss) 0) ∧
  Roster.class_students (branch ss) (section ss) (roster ss) !! "X" = None.
Proof. split; vm_compute; [split|]; reflexivity. Qed.

(** X6. The roster filter of start-up and the class test of the loop
    agree: a detection whose name is on the class roster is always treated
    as "correct class", and for a session whose branch is not "UNKNOWN"
    and whose section is not "UNKNOWN" those are the only ones. *)
Theorem correct_class_iff_on_class_roster (ss : session) (label : Z) :
  let name := Roster.rec_name (Roster.lookup (roster ss) label) in
  let class_students :=
    Roster.class_students (branch ss) (section ss) (roster ss) in
  (is_Some (class_students !! name) →
   same_class ss (Roster.lookup (roster ss) label)) ∧
  (branch ss ≠ "UNKNOWN" → section ss ≠ "UNKNOWN" →
   (same_class ss (Roster.lookup (roster ss) label)
    ↔ is_Some (class_students !! name))).
Proof.
  simpl. split; [apply on_roster_same_class|].
  intros Hb Hs. split; [by apply same_class_on_roster | apply on_roster_same_class].
Qed.

Lemma correct_class_iff_on_class_roster_witness :
  branch Sample.ss ≠ "UNKNOWN" ∧ section Sample.ss ≠ "UNKNOWN" ∧
  (same_class Sample.ss (Roster.lookup (roster Sample.ss) 0)
   ↔ is_Some (Roster.class_students "CSE" "A" Sample.ix !! "Asha Rao")).
Proof.
  assert (Hb : branch Sample.ss ≠ "UNKNOWN") by discriminate.
  assert (Hs : section Sample.ss ≠ "UNKNOWN") by discriminate.
  split; [exact Hb|]. split; [exact Hs|].
  exact (proj2 (correct_class_iff_on_class_roster Sample.ss 0) Hb Hs).
Defined.

Module Absent.

Definition final : state :=
  match main EmptyClass.env EmptyClass.frames NoFault with
  | Completed st _ => st
  | NotStarted _ => Sample.st0
  end.

Definition ss : session :=
  {| branch := "MECH"; section := "A"; roster := Sample.ix;
     process_every_n_frames := 2 |}.

Definition st0 : state :=
  {| marked_names := ∅; recognition_cooldown := ∅; attendance_queue := [];
     frame_count := 0; last_detection_results := []; csv_file := [header];
     trace := [Print (MsgNoStudentsWarning "MECH" "A"); Print MsgCreatedCsv] |}.

Lemma empty_class_starts : startup EmptyClass.env = Running ss st0.
Proof. vm_compute. reflexivity. Qed.

Lemma empty_class_completes :
  main EmptyClass.env EmptyClass.frames NoFault
  = Completed final Controller.CameraReadFailed.
Proof. vm_compute. reflexivity. Qed.

Lemma nobody : Roster.class_students (branch ss) (section ss) (roster ss) = ∅.
Proof. vm_compute. reflexivity. Qed.

End Absent.

(** X7. A session started for a class with an empty roster, its branch
    not being "UNKNOWN" and its section not being "UNKNOWN", marks nobody:
    whatever the recognizer answers, no row is queued, the marked set
    stays empty and the attendance file ends as start-up left it. *)
Theorem empty_class_roster_marks_nobody (env : environment) (frames : list frame)
    (fault : io_fault) (ss : session) (st0 st : state)
    (reason : Controller.exit_reason) :
  startup env = Running ss st0 →
  main env frames fault = Completed st reason →
  Roster.class_students (branch ss) (section ss) (roster ss) = ∅ →
  branch ss ≠ "UNKNOWN" → section ss ≠ "UNKNOWN" →
  appended (trace st) = [] ∧ marked_names st = ∅ ∧
  attendance_queue st = [] ∧ csv_file st = initial_csv env.
Proof.
  intros Hs Hm He Hb Hsec.
  pose proof (main_session_rows env frames fault ss st0 st reason Hs Hm) as Hrows.
  assert (Ha : appended (trace st) = []).
  { destruct (appended (trace st)) as [|r rows]; [done|].
    apply Forall_cons in Hrows as [(label & _ & _ & Hc & _) _].
    apply (same_class_on_roster ss label Hb Hsec) in Hc as [i Hi].
    by rewrite He, lookup_empty in Hi. }
  destruct (log_rows_are_marks env frames fault st reason Hm) as [Hsub _].
  rewrite Ha in Hsub. apply sublist_nil_r, app_eq_nil in Hsub as [Hw Hq].
  destruct (main_completed _ _ _ _ _ Hm) as (ss' & st0' & Hs' & Hr).
  assert (Hg : good st).
  { replace st with (Controller.run ss' frames fault st0').1 by (by rewrite Hr).
    apply good_run. by apply (startup_good env ss'). }
  split; [done|]. split; [by rewrite (good_marked st Hg), Ha|].
  split; [done|].
  by rewrite (main_csv_tracks env frames fault st reason Hm), Hw, app_nil_r.
Qed.

Lemma empty_class_roster_marks_nobody_witness :
  startup EmptyClass.env = Running Absent.ss Absent.st0 ∧
  main EmptyClass.env EmptyClass.frames NoFault
  = Completed Absent.final Controller.CameraReadFailed ∧
  Roster.class_students (branch Absent.ss) (section Absent.ss) (roster Absent.ss)
  = ∅ ∧
  branch Absent.ss ≠ "UNKNOWN" ∧ section Absent.ss ≠ "UNKNOWN" ∧
  csv_file Absent.final = [header].
Proof.
  assert (Hb : branch Absent.ss ≠ "UNKNOWN") by discriminate.
  assert (Hs : section Absent.ss ≠ "UNKNOWN") by discriminate.
  split; [exact Absent.empty_class_starts|]. split; [exact Absent.empty_class_completes|].
  split; [exact Absent.nobody|]. split; [exact Hb|]. split; [exact Hs|].
  exact (proj2 (proj2 (proj2 (empty_class_roster_marks_nobody EmptyClass.env
           EmptyClass.frames NoFault Absent.ss Absent.st0 Absent.final
           Controller.CameraReadFailed Absent.empty_class_starts Absent.empty_class_completes
           Absent.nobody Hb Hs)))).
Defined.

(** ** The periodic batch write *)

Lemma frame_count_iteration (ss : session) (fr : frame) (st : state) :
  let st1 := Controller.set_frame_count (frame_count st + 1) st in
  let st2 := if (frame_count st1 mod process_every_n_frames ss =? 0)%Z
             then Controller.sample ss fr st1 else st1 in
  frame_count (emit (ShowFrame (size (marked_names st2))) st2) = frame_count st + 1.
Proof.
  simpl. destruct (_ =? 0)%Z; [|done].
  by destruct (detected_sample ss fr
                 (Controller.set_frame_count (frame_count st + 1) st)) as [_ ->].
Qed.

(** X8. With a working file system, after every frame whose number is a
    multiple of the batch interval (10) nothing is left in the queue: when
    the loop is left right after such a frame, all the rows queued so far
    have gone to the file, without waiting for the final flush. *)
Theorem queue_empty_after_every_tenth_frame (ss : session) (frames : list frame) :
  process_every_n_frames ss ≠ 0 →
  Forall uneventful frames →
  Forall (λ fr, flush_fault fr = NoFault) frames →
  frames ≠ [] →
  ∀ st,
    (frame_count st + Z.of_nat (length frames)) mod Config.BATCH_WRITE_INTERVAL = 0 →
    attendance_queue (Controller.loop ss frames st).1 = [].
Proof.
  intros HK Hu Hf. induction frames as [|fr rest IH]; intros Hne st Hc; [done|].
  apply Forall_cons in Hu as [(Hcr & Hdr & Hk) Hu].
  apply Forall_cons in Hf as [Hfr Hf].
  cbn [Controller.loop]. rewrite Hcr, Hdr, Hk, Hfr.
  destruct (Z.eqb_spec (process_every_n_frames ss) 0) as [|_]; [done|].
  pose proof (frame_count_iteration ss fr st) as Hfc. cbv zeta in Hfc.
  set (st1 := Controller.set_frame_count _ st) in *.
  set (st2 := if (_ =? 0)%Z then Controller.sample ss fr st1 else st1) in *.
  set (st3 := emit (ShowFrame _) st2) in *.
  set (st4 := if (frame_count st3 mod Config.BATCH_WRITE_INTERVAL =? 0)%Z
              then _ else st3).
  assert (H4 : frame_count st4 = frame_count st + 1).
  { unfold st4.
    destruct (frame_count st3 mod Config.BATCH_WRITE_INTERVAL =? 0)%Z;
      [|exact Hfc].
    destruct (attendance_queue st3) eqn:E; [exact Hfc|].
    destruct (quiet_batch_write NoFault st3) as [_ ->]. exact Hfc. }
  destruct rest as [|fr' rest'].
  - simpl. unfold st4. rewrite Hfc. change (Z.of_nat (length [fr])) with 1 in Hc.
    rewrite Hc. cbn [Z.eqb fst].
    destruct (attendance_queue st3) eqn:E; [exact E|].
    apply batch_write_no_fault_queue.
  - apply (IH Hu Hf); [done|]. rewrite H4. simpl length in *. rewrite <- Hc.
    f_equal. lia.
Qed.

Module Interval.

Definition ten : list frame :=
  replicate 9 (Sample.quiet [Sample.seen 0 40]) ++ [Sample.quiet []].

End Interval.

Lemma queue_empty_after_every_tenth_frame_witness :
  process_every_n_frames Sample.ss ≠ 0 ∧
  Forall uneventful Interval.ten ∧
  Forall (λ fr, flush_fault fr = NoFault) Interval.ten ∧
  Interval.ten ≠ [] ∧
  (frame_count Sample.st0 + Z.of_nat (length Interval.ten))
    mod Config.BATCH_WRITE_INTERVAL = 0 ∧
  attendance_queue (Controller.loop Sample.ss Interval.ten Sample.st0).1 = [].
Proof.
  assert (HK : process_every_n_frames Sample.ss ≠ 0) by discriminate.
  assert (Hu : Forall uneventful Interval.ten).
  { apply Forall_app. split; [apply Forall_replicate | apply Forall_singleton];
      by repeat split. }
  assert (Hf : Forall (λ fr, flush_fault fr = NoFault) Interval.ten).
  { apply Forall_app. split; [apply Forall_replicate | apply Forall_singleton];
      reflexivity. }
  assert (Hne : Interval.ten ≠ []) by discriminate.
  split; [exact HK|]. split; [exact Hu|]. split; [exact Hf|]. split; [exact Hne|].
  split; [reflexivity|].
  exact (queue_empty_after_every_tenth_frame Sample.ss Interval.ten
           HK Hu Hf Hne Sample.st0 eq_refl).
Defined.

(** ** Faces the recognizer fails on, and what is drawn *)

Definition with_faces (fs : list face) (fr : frame) : frame :=
  {| current_time := current_time fr; faces := fs;
     capture_raises := capture_raises fr; display_raises := display_raises fr;
     key := key fr; flush_fault := flush_fault fr |}.

Definition predicted (f : face) : Prop := is_Some (prediction f).

#[global] Instance predicted_dec (f : face) : Decision (predicted f).
Proof. unfold predicted. apply _. Defined.

Lemma faces_predicted_only (ss : session) (ct : datetime) (fs : list face) :
  ∀ st, foldl (Controller.process_face ss ct) st (filter predicted fs)
        = foldl (Controller.process_face ss ct) st fs.
Proof.
  induction fs as [|f fs IH]; intros st; [done|].
  destruct (decide (predicted f)) as [Hp|Hp].
  - rewrite filter_cons_True by done. simpl. apply IH.
  - rewrite filter_cons_False by done. simpl.
    rewrite (process_face_skipped ss ct st f); [apply IH|].
    destruct (prediction f) eqn:E; [|done]. destruct Hp. by eexists.
Qed.

(** X9. A face on which [recognizer.predict] raises is dropped and the
    frame goes on with the remaining faces: sampling a frame gives the same
    state as sampling it with those faces taken out. *)
Theorem failed_predictions_are_skipped (ss : session) (fr : frame) (st : state) :
  Controller.sample ss (with_faces (filter predicted (faces fr)) fr) st
  = Controller.sample ss fr st.
Proof. unfold Controller.sample. simpl. apply faces_predicted_only. Qed.

Lemma results_process_face (ss : session) (ct : datetime) (st : state) (f : face) :
  res_bbox <$> last_detection_results (Controller.process_face ss ct st f)
  = (res_bbox <$> last_detection_results st)
    ++ (if decide (predicted f) then [bbox f] else []).
Proof.
  destruct (prediction f) as [[label confidence]|] eqn:Hp.
  2:{ rewrite process_face_skipped by done.
      rewrite decide_False; [by rewrite app_nil_r|].
      unfold predicted. rewrite Hp. by intros [? ?]. }
  rewrite decide_True by (unfold predicted; rewrite Hp; by eexists).
  destruct (Qltb confidence Config.RECOGNITION_CONFIDENCE_THRESHOLD) eqn:Hc.
  2:{ apply Qltb_not_lt in Hc.
      rewrite (process_face_rejected ss ct st f label confidence Hp Hc).
      simpl. by rewrite fmap_app. }
  apply Qltb_lt in Hc.
  destruct (decide (same_class ss (Roster.lookup (roster ss) label))) as [Hs|Hs].
  2:{ rewrite (process_face_wrong_class ss ct st f label confidence Hp Hc Hs).
      simpl. by rewrite fmap_app. }
  destruct (decide (Roster.rec_name (Roster.lookup (roster ss) label)
                      ∈ marked_names st)) as [Hm|Hm].
  - rewrite (process_face_already_marked ss ct st f label confidence Hp Hc Hs Hm).
    simpl. by rewrite fmap_app.
  - rewrite (process_face_newly_marked ss ct st f label confidence Hp Hc Hs Hm).
    simpl. by rewrite fmap_app.
Qed.

Lemma results_faces (ss : session) (ct : datetime) (fs : list face) :
  ∀ st,
    res_bbox <$> last_detection_results (foldl (Controller.process_face ss ct) st fs)
    = (res_bbox <$> last_detection_results st) ++ (bbox <$> filter predicted fs).
Proof.
  induction fs as [|f fs IH]; intros st; simpl; [by rewrite app_nil_r|].
  rewrite IH, results_process_face, <- (assoc_L (++)). f_equal.
  destruct (decide (predicted f)).
  - by rewrite filter_cons_True.
  - by rewrite filter_cons_False.
Qed.

(** X10. After a frame is sampled, the boxes to draw are exactly the boxes
    of the faces of that frame on which the recognizer answered, in the
    order of detection: the results of earlier frames are discarded, not
    accumulated. *)
Theorem sampled_results_are_this_frames_faces (ss : session) (fr : frame)
    (st : state) :
  res_bbox <$> last_detection_results (Controller.sample ss fr st)
  = bbox <$> filter predicted (faces fr).
Proof. unfold Controller.sample. by rewrite results_faces. Qed.

(** ** Label numbers *)

(** The folders of a listing, in listing order. *)
Definition directories (listing : list (string * bool)) : list string :=
  (filter (λ e, e.2 = true) listing).*1.

Lemma directories_folder (n : string) (rest : list (string * bool)) :
  directories ((n, true) :: rest) = n :: directories rest.
Proof. unfold directories. by rewrite filter_cons_True. Qed.

Lemma directories_file (n : string) (rest : list (string * bool)) :
  directories ((n, false) :: rest) = directories rest.
Proof. unfold directories. by rewrite filter_cons_False. Qed.

Lemma build_from_labels (db : student_db) (listing : list (string * bool)) :
  ∀ ix ix',
    Roster.build_from db ix listing = Some ix' →
    Roster.label_id ix'
    = Roster.label_id ix + Z.of_nat (length (directories listing)) ∧
    ∀ z, Roster.label_map ix' !! z
         = if decide (Roster.label_id ix ≤ z
                      < Roster.label_id ix + Z.of_nat (length (directories listing)))
           then directories listing !! Z.to_nat (z - Roster.label_id ix)
           else Roster.label_map ix !! z.
Proof.
  induction listing as [|[n d] rest IH]; intros ix ix'.
  - intros [= <-]. split; [simpl; lia|]. intros z.
    rewrite decide_False; [done | simpl; lia].
  - destruct d.
    + rewrite directories_folder. cbn [Roster.build_from Roster.add_entry].
      destruct (resolve_is_Some db n) as [i Hi]. rewrite Hi.
      cbn [mbind option_bind].
      intros Hb. destruct (IH _ _ Hb) as [Hid Hmap].
      cbn [Roster.label_id Roster.label_map] in Hid, Hmap.
      rewrite length_cons.
      split; [lia|]. intros z. rewrite Hmap.
      destruct (decide (z = Roster.label_id ix)) as [->|Hz].
      * rewrite decide_False by lia. rewrite decide_True by lia.
        rewrite lookup_insert_eq. by replace (_ - _) with 0 by lia.
      * rewrite lookup_insert_ne by done.
        destruct (decide (Roster.label_id ix + 1 ≤ z < _)).
        -- rewrite decide_True by lia.
           replace (Z.to_nat (z - Roster.label_id ix))
             with (S (Z.to_nat (z - (Roster.label_id ix + 1)))) by lia.
           done.
        -- rewrite decide_False by lia. done.
    + rewrite directories_file. cbn [Roster.build_from Roster.add_entry].
      cbn [mbind option_bind]. intros Hb. apply (IH _ _ Hb).
Qed.

(** X11. The roster index numbers the folders of the dataset in listing
    order, from 0: label [i] is the [i]-th folder (plain files are not
    counted), no other label is known, and every known label has a roster
    record, so the empty-record default of the loop is only read for
    labels the index does not know. *)
Theorem labels_number_the_folders (db : student_db)
    (listing : list (string * bool)) (ix : Roster.index) :
  Roster.build db listing = Some ix →
  Roster.label_id ix = Z.of_nat (length (directories listing)) ∧
  (∀ i : nat, Roster.label_map ix !! Z.of_nat i = directories listing !! i) ∧
  (∀ z, z < 0 → Roster.label_map ix !! z = None) ∧
  (∀ z name, Roster.label_map ix !! z = Some name →
             Roster.name_to_info ix !! name = Roster.resolve db name ∧
             is_Some (Roster.name_to_info ix !! name)).
Proof.
  intros Hb. unfold Roster.build in Hb.
  destruct (build_from_labels db listing _ _ Hb) as [Hid Hmap]. simpl in Hid, Hmap.
  assert (Hnat : ∀ i : nat, Roster.label_map ix !! Z.of_nat i = directories listing !! i).
  { intros i. rewrite Hmap.
    destruct (decide (0 ≤ Z.of_nat i < 0 + Z.of_nat (length (directories listing)))).
    - by rewrite Z.sub_0_r, Nat2Z.id.
    - rewrite lookup_empty. symmetry. apply lookup_ge_None. lia. }
  assert (Hneg : ∀ z, z < 0 → Roster.label_map ix !! z = None).
  { intros z Hz. rewrite Hmap, decide_False by lia. apply lookup_empty. }
  split; [lia|]. split; [exact Hnat|]. split; [exact Hneg|].
  intros z name Hz.
  assert (Hin : (name, true) ∈ listing).
  { destruct (decide (z < 0)) as [Hlt|Hge]; [by rewrite Hneg in Hz|].
    rewrite <- (Z2Nat.id z), Hnat in Hz by lia.
    apply list_elem_of_lookup_2 in Hz. unfold directories in Hz.
    apply list_elem_of_fmap in Hz as ([n d] & -> & Hnd).
    apply list_elem_of_filter in Hnd as [Hd Hnd]. simpl in Hd. by subst d. }
  rewrite (build_from_binds db listing _ _ name Hb), decide_True by done.
  split; [done | apply resolve_is_Some].
Qed.

Lemma labels_number_the_folders_witness :
  Roster.build Sample.db (dataset_listing Sample.env) = Some Sample.ix ∧
  Roster.label_map Sample.ix !! 2 = Some "Chitra" ∧
  Roster.label_id Sample.ix = 3.
Proof.
  assert (Hb : Roster.build Sample.db (dataset_listing Sample.env) = Some Sample.ix)
    by (vm_compute; reflexivity).
  destruct (labels_number_the_folders Sample.db (dataset_listing Sample.env)
              Sample.ix Hb) as (Hid & Hmap & _).
  split; [exact Hb|]. split; [exact (Hmap 2%nat) | exact Hid].
Defined.

(** ** The summary *)

(** X12. The list of students printed at the end names every marked
    student exactly once, in ascending order of name, each with the roll
    number the roster has for that name ("N/A" when it has none). *)
Theorem summary_lists_marked_names_in_order (ss : session) (st : state) :
  let present := Controller.present_list ss st in
  Sorted String.le present.*1 ∧
  present.*1 ≡ₚ elements (marked_names st) ∧
  NoDup present.*1 ∧
  (∀ name, name ∈ present.*1 ↔ name ∈ marked_names st) ∧
  (∀ name roll_no,
     (name, roll_no) ∈ present →
     roll_no = default "N/A"
                 (default (∅ : info) (Roster.name_to_info (roster ss) !! name)
                    !! "rollNo")).
Proof.
  simpl. unfold Controller.present_list.
  set (sorted := merge_sort String.le (elements (marked_names st))).
  assert (Hfst : ((λ name, (name, default "N/A"
                     (default (∅ : info) (Roster.name_to_info (roster ss) !! name)
                        !! "rollNo"))) <$> sorted).*1 = sorted).
  { rewrite <- list_fmap_compose. apply list_fmap_id. }
  assert (Hperm : sorted ≡ₚ elements (marked_names st))
    by apply merge_sort_Permutation.
  rewrite Hfst. split; [apply (Sorted_merge_sort String.le)|].
  split; [exact Hperm|]. split; [rewrite Hperm; apply NoDup_elements|].
  split.
  - intros name. by rewrite Hperm, elem_of_elements.
  - intros name roll_no (n & [= -> ->] & _)%list_elem_of_fmap. done.
Qed.

(** * Starting a session through the API
      ([backend/app.py], [backend/validators.py], [backend/config.py]) *)

(** ** Classes the configuration allows *)

Module Academics.

Definition ALLOWED_BRANCHES : list string :=
  ["CSE"; "AIML"; "ECE"; "EEE"; "MECH"; "CIVIL"].
Definition ALLOWED_SECTIONS : list string := ["A"; "B"].

Inductive verdict := InvalidBranch | InvalidSection | Valid.

(** [Config.validate_branch_section(branch, section)]; the boolean of the
    pair the method returns is [true] for [Valid] only. *)
Definition validate_branch_section (branch section : string) : verdict :=
  if negb (bool_decide (branch ∈ ALLOWED_BRANCHES)) then InvalidBranch
  else if negb (bool_decide (section ∈ ALLOWED_SECTIONS)) then InvalidSection
  else Valid.

End Academics.

(** ** Validators *)

Inductive ValidationError :=
| BothMustBeSelected
| InvalidClass (why : Academics.verdict)
| NoStudentsRegistered (branch section : string).

Module AttendanceValidator.

(** [validate_class_selection(branch, section)]: [inr] is the exception
    raised. An empty string is what [not branch] tests. *)
Definition validate_class_selection (branch section : string)
  : bool + ValidationError :=
  if (String.eqb branch "" || String.eqb section "")%bool then inr BothMustBeSelected
  else
    match Academics.validate_branch_section branch section with
    | Academics.Valid => inl true
    | why => inr (InvalidClass why)
    end.

(** [sum(1 for info in db.values() if ...)] *)
Definition registered (db : student_db) (branch section : string) : nat :=
  sum_list ((λ _, 1%nat) <$> filter (λ kv, Roster.in_class branch section kv.2) db).

(** [check_students_registered(branch, section)], on the database it
    loads. *)
Definition check_students_registered (db : student_db) (branch section : string)
  : nat + ValidationError :=
  let count := registered db branch section in
  if (count =? 0)%nat then inr (NoStudentsRegistered branch section)
  else inl count.

End AttendanceValidator.

(** ** The start and stop routes *)

Module Api.

(** [count_students_in_class(branch, section)] of [app.py], on the
    database it loads: the loop with its counter. *)
Definition count_students_in_class (db : student_db) (branch section : string)
  : nat :=
  foldl (λ count kv,
           if decide (Roster.in_class branch section kv.2)
           then (count + 1)%nat else count)
        0%nat db.

(** What the server finds on its machine. *)
Record server := {
  database : db_file;
  trainer_model : bool;        (* [os.path.exists(Config.TRAINER_MODEL)] *)
  win32 : bool;                (* [sys.platform == 'win32'] *)
  batch_file_writable : bool;  (* [open(batch_file, 'w')] does not raise *)
  popen_works : bool           (* [subprocess.Popen] does not raise *)
}.

(** The global [attendance_running], the recognition scripts launched so
    far (each by its [sys.argv]) and the batch file last written (by the
    two arguments of its command line). *)
Record state := {
  attendance_running : bool;
  launched : list (list string);
  batch_file : option (string * string)
}.

Inductive reply :=
| Rejected (e : ValidationError)
| AlreadyRunning
| ModelNotTrained
| ServerError
| Started (branch section : string) (studentCount : nat)
| Stopped.

Record response := {
  status : Z;
  success : bool;
  body : reply
}.

Definition fail (code : Z) (r : reply) : response :=
  {| status := code; success := false; body := r |}.

(** The [sys.argv] of the script that the [Popen] of either platform ends
    up running: directly, or through the command line of the batch file. *)
Definition script_argv (branch section : string) : list string :=
  ["recognize_attendance.py"; branch; section].

(** [start_attendance()]. The request body is [request.json]; [None] is a
    request without one, on which [data.get] raises. *)
Definition start_attendance (srv : server) (data : option info) (st : state)
  : response * state :=
  match data with
  | None => (fail 500 ServerError, st)
  | Some data =>
    let branch := PyStr.upper (default "" (data !! "branch")) in
    let section := PyStr.upper (default "" (data !! "section")) in
    match AttendanceValidator.validate_class_selection branch section with
    | inr e => (fail 400 (Rejected e), st)
    | inl _ =>
      match AttendanceValidator.check_students_registered
              (load_student_database (database srv)) branch section with
      | inr e => (fail 400 (Rejected e), st)
      | inl student_count =>
        if attendance_running st then (fail 400 AlreadyRunning, st)
        else if negb (trainer_model srv) then (fail 400 ModelNotTrained, st)
        else if negb (batch_file_writable srv) then (fail 500 ServerError, st)
        else
          let st1 := {| attendance_running := attendance_running st;
                        launched := launched st;
                        batch_file := Some (branch, section) |} in
          if negb (popen_works srv) then (fail 500 ServerError, st1)
          else
            ({| status := 200; success := true;
                body := Started branch section student_count |},
             {| attendance_running := true;
                launched := launched st1 ++ [script_argv branch section];
                batch_file := batch_file st1 |})
      end
    end
  end.

(** [start_attendance()] from the validation on, for the upper-cased
    branch and section. *)
Definition launch (srv : server) (branch section : string) (st : state)
  : response * state :=
  match AttendanceValidator.validate_class_selection branch section with
  | inr e => (fail 400 (Rejected e), st)
  | inl _ =>
    match AttendanceValidator.check_students_registered
            (load_student_database (database srv)) branch section with
    | inr e => (fail 400 (Rejected e), st)
    | inl student_count =>
      if attendance_running st then (fail 400 AlreadyRunning, st)
      else if negb (trainer_model srv) then (fail 400 ModelNotTrained, st)
      else if negb (batch_file_writable srv) then (fail 500 ServerError, st)
      else
        let st1 := {| attendance_running := attendance_running st;
                      launched := launched st;
                      batch_file := Some (branch, section) |} in
        if negb (popen_works srv) then (fail 500 ServerError, st1)
        else
          ({| status := 200; success := true;
              body := Started branch section student_count |},
           {| attendance_running := true;
              launched := launched st1 ++ [script_argv branch section];
              batch_file := batch_file st1 |})
    end
  end.

(** [start_attendance()] on the request body as [request.json] gives it, a
    dictionary of JSON values ([None]: no body), and with [str.upper] as a
    parameter. [.upper()] raises [AttributeError] on a value that is not a
    string, and the [except Exception] of the route answers 500. *)
Definition start_attendance_on (upper : string → string) (srv : server)
    (data : option raw_info) (st : state) : response * state :=
  match data with
  | None => (fail 500 ServerError, st)
  | Some data =>
    match default (JString "") (data !! "branch") with
    | JString b =>
      match default (JString "") (data !! "section") with
      | JString s => launch srv (upper b) (upper s) st
      | _ => (fail 500 ServerError, st)
      end
    | _ => (fail 500 ServerError, st)
    end
  end.

(** [stop_attendance()] *)
Definition stop_attendance (st : state) : response * state :=
  ({| status := 200; success := true; body := Stopped |},
   {| attendance_running := false;
      launched := launched st;
      batch_file := batch_file st |}).

End Api.

(** ** Properties of the start route *)

Lemma upper_listed_branch (b : string) :
  b ∈ Academics.ALLOWED_BRANCHES → PyStr.upper b = b ∧ b ≠ "UNKNOWN" ∧ b ≠ "".
Proof.
  unfold Academics.ALLOWED_BRANCHES. rewrite !elem_of_cons, elem_of_nil.
  intros [->|[->|[->|[->|[->|[->|[]]]]]]]; by repeat split.
Qed.

Lemma upper_listed_section (s : string) :
  s ∈ Academics.ALLOWED_SECTIONS → PyStr.upper s = s ∧ s ≠ "UNKNOWN" ∧ s ≠ "".
Proof.
  unfold Academics.ALLOWED_SECTIONS. rewrite !elem_of_cons, elem_of_nil.
  intros [->|[->|[]]]; by repeat split.
Qed.

Lemma validate_class_selection_ok (b s : string) :
  (∃ v, AttendanceValidator.validate_class_selection b s = inl v)
  ↔ b ∈ Academics.ALLOWED_BRANCHES ∧ s ∈ Academics.ALLOWED_SECTIONS.
Proof.
  unfold AttendanceValidator.validate_class_selection,
    Academics.validate_branch_section.
  split.
  - intros [v Hv].
    destruct (String.eqb b "" || String.eqb s "")%bool; [discriminate|].
    destruct (bool_decide_reflect (b ∈ Academics.ALLOWED_BRANCHES));
      simpl in Hv; [|discriminate].
    destruct (bool_decide_reflect (s ∈ Academics.ALLOWED_SECTIONS));
      simpl in Hv; [done | discriminate].
  - intros [Hb Hs].
    destruct (upper_listed_branch b Hb) as (_ & _ & Hb0).
    destruct (upper_listed_section s Hs) as (_ & _ & Hs0).
    apply String.eqb_neq in Hb0, Hs0. rewrite Hb0, Hs0. simpl.
    rewrite !bool_decide_eq_true_2 by done. simpl. eauto.
Qed.

Lemma registered_length (db : student_db) (b s : string) :
  AttendanceValidator.registered db b s
  = length (filter (λ kv, Roster.in_class b s kv.2) db).
Proof.
  unfold AttendanceValidator.registered.
  induction (filter _ db) as [|kv l IH]; [done|].
  cbn [fmap list_fmap sum_list sum_list_with length] in *. by f_equal.
Qed.

Lemma count_students_length (db : student_db) (b s : string) :
  Api.count_students_in_class db b s
  = length (filter (λ kv, Roster.in_class b s kv.2) db).
Proof.
  unfold Api.count_students_in_class.
  assert (H : ∀ (l : student_db) (n : nat),
            foldl (λ count kv,
                     if decide (Roster.in_class b s kv.2)
                     then (count + 1)%nat else count) n l
            = (n + length (filter (λ kv, Roster.in_class b s kv.2) l))%nat).
  { induction l as [|kv l IH]; intros n; simpl; [lia|].
    rewrite IH. destruct (decide (Roster.in_class b s kv.2)).
    - rewrite filter_cons_True by done. simpl. lia.
    - by rewrite filter_cons_False. }
  by rewrite H.
Qed.

Lemma student_counters_agree_aux (db : student_db) (b s : string) :
  (0 < Api.count_students_in_class db b s)%nat →
  ∃ n, AttendanceValidator.check_students_registered db b s = inl n ∧
       n = Api.count_students_in_class db b s.
Proof.
  intros Hn. unfold AttendanceValidator.check_students_registered.
  rewrite registered_length, <- count_students_length.
  destruct (Nat.eqb_spec (Api.count_students_in_class db b s) 0); [lia|].
  eauto.
Qed.

(** X13. The two counters of registered students, the generator sum of
    [check_students_registered] and the loop of [count_students_in_class],
    agree on every database; the check returns that count when it is
    positive and raises exactly when it is zero. *)
Theorem student_counters_agree (db : student_db) (b s : string) :
  AttendanceValidator.registered db b s = Api.count_students_in_class db b s ∧
  (∀ n, AttendanceValidator.check_students_registered db b s = inl n
        ↔ n = Api.count_students_in_class db b s ∧ (0 < n)%nat) ∧
  (∀ e, AttendanceValidator.check_students_registered db b s = inr e
        ↔ Api.count_students_in_class db b s = 0%nat ∧
          e = NoStudentsRegistered b s).
Proof.
  assert (E : AttendanceValidator.registered db b s
              = Api.count_students_in_class db b s)
    by (by rewrite registered_length, count_students_length).
  split; [exact E|].
  unfold AttendanceValidator.check_students_registered. rewrite E.
  destruct (Nat.eqb_spec (Api.count_students_in_class db b s) 0) as [H0|H0].
  - split.
    + intros n. split; [discriminate | lia].
    + intros e. split; [by intros [= <-] | by intros [_ ->]].
  - split.
    + intros n. split; [intros [= <-]; lia | by intros [-> _]].
    + intros e. split; [discriminate | lia].
Qed.

(** The conditions under which [start_attendance] launches the script. *)
Definition start_accepted (srv : Api.server) (data : option info)
    (st : Api.state) (b s : string) : Prop :=
  (∃ d, data = Some d ∧
        b = PyStr.upper (default "" (d !! "branch")) ∧
        s = PyStr.upper (default "" (d !! "section"))) ∧
  b ∈ Academics.ALLOWED_BRANCHES ∧ s ∈ Academics.ALLOWED_SECTIONS ∧
  (0 < Api.count_students_in_class (load_student_database (Api.database srv)) b s)%nat ∧
  Api.attendance_running st = false ∧
  Api.trainer_model srv = true ∧
  Api.batch_file_writable srv = true ∧
  Api.popen_works srv = true.

Lemma start_attendance_accepted (srv : Api.server) (data : option info)
    (st : Api.state) (b s : string) :
  start_accepted srv data st b s →
  Api.start_attendance srv data st
  = ({| Api.status := 200; Api.success := true;
        Api.body := Api.Started b s
                      (Api.count_students_in_class
                         (load_student_database (Api.database srv)) b s) |},
     {| Api.attendance_running := true;
        Api.launched := Api.launched st ++ [Api.script_argv b s];
        Api.batch_file := Some (b, s) |}).
Proof.
  intros ((d & -> & Eb & Es) & Hb & Hs & Hn & Hr & Ht & Hw & Hp).
  unfold Api.start_attendance. rewrite <- Eb, <- Es.
  destruct (proj2 (validate_class_selection_ok b s) (conj Hb Hs)) as [v ->].
  destruct (student_counters_agree_aux (load_student_database (Api.database srv)) b s)
    as [n Hn'] ; [exact Hn|].
  rewrite (proj1 Hn'), Hr, Ht, Hw, Hp. simpl. by rewrite (proj2 Hn').
Qed.

Lemma start_attendance_refused (srv : Api.server) (data : option info)
    (st : Api.state) :
  (∀ b s, ¬ start_accepted srv data st b s) →
  Api.success (Api.start_attendance srv data st).1 = false ∧
  Api.attendance_running (Api.start_attendance srv data st).2
  = Api.attendance_running st ∧
  Api.launched (Api.start_attendance srv data st).2 = Api.launched st.
Proof.
  intros Hno. unfold Api.start_attendance.
  destruct data as [d|]; [|done].
  set (b := PyStr.upper (default "" (d !! "branch"))).
  set (s := PyStr.upper (default "" (d !! "section"))).
  destruct (AttendanceValidator.validate_class_selection b s) as [v|e] eqn:Hv;
    [|done].
  destruct (proj1 (validate_class_selection_ok b s) (ex_intro _ v Hv)) as [Hb Hs].
  destruct (AttendanceValidator.check_students_registered _ b s) as [n|e] eqn:Hc;
    [|done].
  destruct (Api.attendance_running st) eqn:Hr; [done|].
  destruct (Api.trainer_model srv) eqn:Ht; [|done].
  destruct (Api.batch_file_writable srv) eqn:Hw; [|done].
  destruct (Api.popen_works srv) eqn:Hp; [|done].
  exfalso. apply (Hno b s). unfold start_accepted.
  split; [by exists d|]. repeat split; try done.
  unfold AttendanceValidator.check_students_registered in Hc.
  rewrite registered_length, <- count_students_length in Hc.
  destruct (Nat.eqb_spec (Api.count_students_in_class
                            (load_student_database (Api.database srv)) b s) 0);
    [discriminate | lia].
Qed.

Lemma classic_accept (srv : Api.server) (data : option info) (st : Api.state) :
  (∃ b s, start_accepted srv data st b s) ∨ (∀ b s, ¬ start_accepted srv data st b s).
Proof.
  destruct data as [d|].
  2:{ right. intros b s ((d & Hd & _) & _). discriminate. }
  set (b := PyStr.upper (default "" (d !! "branch"))).
  set (s := PyStr.upper (default "" (d !! "section"))).
  assert (Hdec : Decision
            (b ∈ Academics.ALLOWED_BRANCHES ∧ s ∈ Academics.ALLOWED_SECTIONS ∧
             (0 < Api.count_students_in_class
                    (load_student_database (Api.database srv)) b s)%nat ∧
             Api.attendance_running st = false ∧
             Api.trainer_model srv = true ∧
             Api.batch_file_writable srv = true ∧
             Api.popen_works srv = true)) by apply _.
  destruct Hdec as [H|H].
  - left. exists b, s. split; [by exists d | exact H].
  - right. intros b' s' ((d' & [= <-] & -> & ->) & H'). by apply H.
Qed.

(** On a request whose fields are strings, and with ASCII letters, the
    route on JSON values is [Api.start_attendance]. *)
Lemma start_attendance_of_strings (srv : Api.server) (data : option info)
    (st : Api.state) :
  Api.start_attendance_on PyStr.upper srv (fmap (M := gmap string) JString <$> data) st
  = Api.start_attendance srv data st.
Proof.
  destruct data as [d|]; [|done].
  unfold Api.start_attendance_on, Api.start_attendance.
  cbn [fmap option_fmap option_map]. rewrite !lookup_fmap.
  destruct (d !! "branch"), (d !! "section"); reflexivity.
Qed.

(** The conditions under which the route launches the script, on the
    request as [request.json] gives it. *)
Definition request_accepted (upper : string → string) (srv : Api.server)
    (data : option raw_info) (st : Api.state) (b s : string) : Prop :=
  (∃ d b0 s0, data = Some d ∧
        default (JString "") (d !! "branch") = JString b0 ∧
        default (JString "") (d !! "section") = JString s0 ∧
        b = upper b0 ∧ s = upper s0) ∧
  b ∈ Academics.ALLOWED_BRANCHES ∧ s ∈ Academics.ALLOWED_SECTIONS ∧
  (0 < Api.count_students_in_class (load_student_database (Api.database srv)) b s)%nat ∧
  Api.attendance_running st = false ∧
  Api.trainer_model srv = true ∧
  Api.batch_file_writable srv = true ∧
  Api.popen_works srv = true.

Definition launch_allowed (srv : Api.server) (st : Api.state) (b s : string)
  : Prop :=
  b ∈ Academics.ALLOWED_BRANCHES ∧ s ∈ Academics.ALLOWED_SECTIONS ∧
  (0 < Api.count_students_in_class (load_student_database (Api.database srv)) b s)%nat ∧
  Api.attendance_running st = false ∧
  Api.trainer_model srv = true ∧
  Api.batch_file_writable srv = true ∧
  Api.popen_works srv = true.

#[global] Instance launch_allowed_dec (srv : Api.server) (st : Api.state)
    (b s : string) : Decision (launch_allowed srv st b s).
Proof. unfold launch_allowed. apply _. Defined.

Lemma launch_accepted (srv : Api.server) (st : Api.state) (b s : string) :
  launch_allowed srv st b s →
  Api.launch srv b s st
  = ({| Api.status := 200; Api.success := true;
        Api.body := Api.Started b s
                      (Api.count_students_in_class
                         (load_student_database (Api.database srv)) b s) |},
     {| Api.attendance_running := true;
        Api.launched := Api.launched st ++ [Api.script_argv b s];
        Api.batch_file := Some (b, s) |}).
Proof.
  intros (Hb & Hs & Hn & Hr & Ht & Hw & Hp). unfold Api.launch.
  destruct (proj2 (validate_class_selection_ok b s) (conj Hb Hs)) as [v ->].
  destruct (student_counters_agree_aux (load_student_database (Api.database srv)) b s)
    as [n Hn'] ; [exact Hn|].
  rewrite (proj1 Hn'), Hr, Ht, Hw, Hp. simpl. by rewrite (proj2 Hn').
Qed.

Lemma launch_refused (srv : Api.server) (st : Api.state) (b s : string) :
  ¬ launch_allowed srv st b s →
  Api.success (Api.launch srv b s st).1 = false ∧
  Api.status (Api.launch srv b s st).1 ≠ 200 ∧
  Api.attendance_running (Api.launch srv b s st).2 = Api.attendance_running st ∧
  Api.launched (Api.launch srv b s st).2 = Api.launched st.
Proof.
  intros Hno. unfold Api.launch.
  destruct (AttendanceValidator.validate_class_selection b s) as [v|e] eqn:Hv;
    [|done].
  destruct (proj1 (validate_class_selection_ok b s) (ex_intro _ v Hv)) as [Hb Hs].
  destruct (AttendanceValidator.check_students_registered _ b s) as [n|e] eqn:Hc;
    [|done].
  destruct (Api.attendance_running st) eqn:Hr; [done|].
  destruct (Api.trainer_model srv) eqn:Ht; [|done].
  destruct (Api.batch_file_writable srv) eqn:Hw; [|done].
  destruct (Api.popen_works srv) eqn:Hp; [|done].
  exfalso. apply Hno. unfold launch_allowed.
  repeat split; try done.
  unfold AttendanceValidator.check_students_registered in Hc.
  rewrite registered_length, <- count_students_length in Hc.
  destruct (Nat.eqb_spec (Api.count_students_in_class
                            (load_student_database (Api.database srv)) b s) 0);
    [discriminate | lia].
Qed.

Module Desk.

Definition srv : Api.server :=
  {| Api.database := DbLoaded Sample.db; Api.trainer_model := true;
     Api.win32 := false; Api.batch_file_writable := true;
     Api.popen_works := true |}.

Definition request : option info :=
  Some (<["branch" := "cse"]> (<["section" := "a"]> ∅)).

Definition idle : Api.state :=
  {| Api.attendance_running := false; Api.launched := [];
     Api.batch_file := None |}.

Lemma accepted : start_accepted srv request idle "CSE" "A".
Proof.
  split.
  { eexists. split; [reflexivity|]. split; vm_compute; reflexivity. }
  split; [apply list_elem_of_here|]. split; [apply list_elem_of_here|].
  split; [vm_compute; lia|]. by repeat split.
Qed.

(** The same request as [request.json] gives it, and one whose branch is a
    number. *)
Definition json_request : option raw_info :=
  Some (<["branch" := JString "cse"]> (<["section" := JString "a"]> ∅)).

Definition number_request : option raw_info :=
  Some (<["branch" := JNumber 5]> (<["section" := JString "a"]> ∅)).

Lemma json_accepted : request_accepted PyStr.upper srv json_request idle "CSE" "A".
Proof.
  split.
  { exists (<["branch" := JString "cse"]> (<["section" := JString "a"]> ∅)),
      "cse", "a".
    split; [reflexivity|]. split; [reflexivity|]. split; [reflexivity|].
    split; vm_compute; reflexivity. }
  split; [apply list_elem_of_here|]. split; [apply list_elem_of_here|].
  split; [vm_compute; lia|]. by repeat split.
Qed.

End Desk.

Example number_branch_answers_500 :
  Api.start_attendance_on PyStr.upper Desk.srv Desk.number_request Desk.idle
  = (Api.fail 500 Api.ServerError, Desk.idle).
Proof. vm_compute. reflexivity. Qed.

(** With a case mapping that takes the long s to "S", as [str.upper]
    does, the branch "cſe" is accepted as CSE. *)
Example long_s_branch_is_accepted (upper : string → string) :
  upper "cſe" = "CSE" → upper "a" = "A" →
  Api.launched
    (Api.start_attendance_on upper Desk.srv
       (Some (<["branch" := JString "cſe"]> (<["section" := JString "a"]> ∅)))
       Desk.idle).2
  = [["recognize_attendance.py"; "CSE"; "A"]].
Proof.
  intros Hb Hs. unfold Api.start_attendance_on.
  rewrite lookup_insert_eq. cbn [default from_option id].
  rewrite lookup_insert_ne by done. rewrite lookup_insert_eq.
  cbn [default from_option id].
  rewrite Hb, Hs. vm_compute. reflexivity.
Qed.

(** X14. [start_attendance], on the request body as [request.json] gives
    it and whatever the case mapping of [str.upper], launches the
    recognition script in exactly one situation: the request has a body,
    its branch and section are strings that, upper-cased, are on the
    configured lists, at least one student of that class is registered, no
    session is flagged as running, the model file exists, and the batch
    file and the process can be created. It then launches one script for
    that class, answers with the student count and raises the running
    flag. In every other situation it answers without success, launches
    nothing and leaves the flag as it was. *)
Theorem start_attendance_gate (upper : string → string) (srv : Api.server)
    (data : option raw_info) (st : Api.state) :
  let out := Api.start_attendance_on upper srv data st in
  (Api.success out.1 = true ↔ ∃ b s, request_accepted upper srv data st b s) ∧
  (∀ b s, request_accepted upper srv data st b s →
          Api.status out.1 = 200 ∧
          Api.body out.1
          = Api.Started b s
              (Api.count_students_in_class
                 (load_student_database (Api.database srv)) b s) ∧
          Api.attendance_running out.2 = true ∧
          Api.launched out.2 = Api.launched st ++ [Api.script_argv b s]) ∧
  (Api.success out.1 = false →
   Api.status out.1 ≠ 200 ∧
   Api.attendance_running out.2 = Api.attendance_running st ∧
   Api.launched out.2 = Api.launched st).
Proof.
  simpl.
  assert (Hfail : ¬ (∃ b s, request_accepted upper srv data st b s) →
    Api.start_attendance_on upper srv data st = (Api.fail 500 Api.ServerError, st) →
    (Api.success (Api.start_attendance_on upper srv data st).1 = true
     ↔ ∃ b s, request_accepted upper srv data st b s) ∧
    (∀ b s, request_accepted upper srv data st b s →
       Api.status (Api.start_attendance_on upper srv data st).1 = 200 ∧
       Api.body (Api.start_attendance_on upper srv data st).1
       = Api.Started b s
           (Api.count_students_in_class
              (load_student_database (Api.database srv)) b s) ∧
       Api.attendance_running (Api.start_attendance_on upper srv data st).2 = true ∧
       Api.launched (Api.start_attendance_on upper srv data st).2
       = Api.launched st ++ [Api.script_argv b s]) ∧
    (Api.success (Api.start_attendance_on upper srv data st).1 = false →
     Api.status (Api.start_attendance_on upper srv data st).1 ≠ 200 ∧
     Api.attendance_running (Api.start_attendance_on upper srv data st).2
     = Api.attendance_running st ∧
     Api.launched (Api.start_attendance_on upper srv data st).2 = Api.launched st)).
  { intros Hno ->. simpl. split; [split; [discriminate | done]|].
    split; [intros b s Ha; destruct Hno; eauto | done]. }
  destruct data as [d|].
  2:{ apply Hfail; [|done]. intros (b & s & (d & ? & ? & ? & _) & _). discriminate. }
  destruct (default (JString "") (d !! "branch")) as [b0|nb|bb| |] eqn:Eb.
  2-5: apply Hfail;
    [intros (b & s & (d' & b1 & s1 & [= <-] & E & _) & _); congruence
    |unfold Api.start_attendance_on; by rewrite Eb].
  destruct (default (JString "") (d !! "section")) as [s0|ns|bs| |] eqn:Es.
  2-5: apply Hfail;
    [intros (b & s & (d' & b1 & s1 & [= <-] & _ & E & _) & _); congruence
    |unfold Api.start_attendance_on; by rewrite Eb, Es].
  clear Hfail.
  assert (Hacc : ∀ b s, request_accepted upper srv (Some d) st b s
                        ↔ b = upper b0 ∧ s = upper s0 ∧ launch_allowed srv st b s).
  { intros b s. split.
    - intros ((d' & b1 & s1 & [= <-] & E1 & E2 & -> & ->) & Hl).
      rewrite Eb in E1. rewrite Es in E2.
      injection E1 as <-. injection E2 as <-. done.
    - intros (-> & -> & Hl). split; [|exact Hl]. by exists d, b0, s0. }
  unfold Api.start_attendance_on. rewrite Eb, Es.
  destruct (decide (launch_allowed srv st (upper b0) (upper s0))) as [Hok|Hno].
  - rewrite (launch_accepted srv st _ _ Hok). simpl.
    split; [split; [|done]|].
    { intros _. exists (upper b0), (upper s0). by apply Hacc. }
    split; [|discriminate].
    by intros b s (-> & -> & _)%Hacc.
  - destruct (launch_refused srv st _ _ Hno) as (Hf & Hs & Hr & Hl).
    split; [split|].
    + by rewrite Hf.
    + intros (b & s & (-> & -> & H)%Hacc). done.
    + split; [by intros b s (-> & -> & H)%Hacc | done].
Qed.

Lemma start_attendance_gate_witness :
  request_accepted PyStr.upper Desk.srv Desk.json_request Desk.idle "CSE" "A" ∧
  Api.launched
    (Api.start_attendance_on PyStr.upper Desk.srv Desk.json_request Desk.idle).2
  = [["recognize_attendance.py"; "CSE"; "A"]].
Proof.
  split; [exact Desk.json_accepted|].
  exact (proj2 (proj2 (proj2
           (proj1 (proj2 (start_attendance_gate PyStr.upper Desk.srv
                            Desk.json_request Desk.idle))
              "CSE" "A" Desk.json_accepted)))).
Defined.

(** ** From the API to the script *)

Lemma startup_class (env : environment) (ss : session) (st : state) :
  startup env = Running ss st →
  ∃ a0 b s rest,
    argv env = a0 :: b :: s :: rest ∧
    branch ss = PyStr.upper b ∧ section ss = PyStr.upper s ∧
    Roster.build (load_student_database (student_db_file env)) (dataset_listing env)
    = Some (roster ss).
Proof.
  unfold startup. intros H.
  destruct (argv env) as [|a0 [|b [|s rest]]]; try discriminate.
  destruct (trainer_model_exists env); try discriminate.
  destruct (recognizer_reads env); try discriminate.
  destruct (face_cascade_empty env); try discriminate.
  destruct (dataset_exists env); try discriminate.
  simpl in H. destruct (Roster.build _ _) as [ix|]; try discriminate.
  exists a0, b, s, rest.
  destruct (attendance_csv env), (decide _), (camera_opens env);
    try discriminate; simpl in H; injection H as <- <-; done.
Qed.

(** X15. A script launched by an accepted [start_attendance] request runs
    for the class of the request: it is given its two arguments, so it
    cannot stop on the usage error, and if it reaches its loop the
    session's branch and section are the validated ones, both on the
    configured lists. For such a session a detection is treated as
    "correct class" exactly when its name is on the class roster built at
    start-up. *)
Theorem api_launched_session_class (srv : Api.server) (data : option info)
    (st : Api.state) (b s : string) (env : environment) (ss : session)
    (st0 : state) :
  start_accepted srv data st b s →
  argv env = Api.script_argv b s →
  startup env = Running ss st0 →
  (3 ≤ length (argv env))%nat ∧
  branch ss = b ∧ section ss = s ∧
  branch ss ∈ Academics.ALLOWED_BRANCHES ∧
  section ss ∈ Academics.ALLOWED_SECTIONS ∧
  ∀ label,
    same_class ss (Roster.lookup (roster ss) label)
    ↔ is_Some (Roster.class_students (branch ss) (section ss) (roster ss)
                 !! Roster.rec_name (Roster.lookup (roster ss) label)).
Proof.
  intros (_ & Hb & Hs & _) Hargv Hrun.
  destruct (startup_class env ss st0 Hrun) as (a0 & b' & s' & rest & Ha & Eb & Es & _).
  rewrite Hargv in Ha. injection Ha as _ <- <- _.
  destruct (upper_listed_branch b Hb) as (Ub & Nb & _).
  destruct (upper_listed_section s Hs) as (Us & Ns & _).
  rewrite Ub in Eb. rewrite Us in Es.
  split; [rewrite Hargv; simpl; lia|].
  split; [done|]. split; [done|]. rewrite Eb, Es.
  split; [done|]. split; [done|].
  intros label. rewrite <- Eb, <- Es. split.
  - apply same_class_on_roster; congruence.
  - apply on_roster_same_class.
Qed.

Module Launched.

Definition env : environment :=
  {| argv := Api.script_argv "CSE" "A";
     student_db_file := student_db_file Sample.env;
     trainer_model_exists := true;
     recognizer_reads := true;
     face_cascade_empty := false;
     dataset_exists := true;
     dataset_listing := dataset_listing Sample.env;
     attendance_csv := None;
     camera_opens := true |}.

Definition st0 : state :=
  {| marked_names := ∅; recognition_cooldown := ∅; attendance_queue := [];
     frame_count := 0; last_detection_results := []; csv_file := [header];
     trace := [Print (MsgClassSize 1 "CSE" "A"); Print MsgCreatedCsv] |}.

Lemma launched_starts : startup env = Running Sample.ss st0.
Proof. vm_compute. reflexivity. Qed.

End Launched.

Lemma api_launched_session_class_witness :
  start_accepted Desk.srv Desk.request Desk.idle "CSE" "A" ∧
  argv Launched.env = Api.script_argv "CSE" "A" ∧
  startup Launched.env = Running Sample.ss Launched.st0 ∧
  branch Sample.ss = "CSE" ∧ section Sample.ss = "A".
Proof.
  split; [exact Desk.accepted|]. split; [reflexivity|].
  split; [exact Launched.launched_starts|].
  destruct (api_launched_session_class Desk.srv Desk.request Desk.idle "CSE" "A"
              Launched.env Sample.ss Launched.st0 Desk.accepted eq_refl
              Launched.launched_starts) as (_ & Hb & Hs & _).
  split; [exact Hb | exact Hs].
Defined.

Lemma resolve_origin (db : student_db) (name : string) (i : info) :
  Roster.resolve db name = Some i →
  i = Roster.placeholder ∨ ∃ k, (k, i) ∈ db.
Proof.
  unfold Roster.resolve.
  destruct (Roster.contains db (Roster.student_id_of name)).
  - intros H%getitem_elem. right. eauto.
  - unfold Roster.search_by_name.
    destruct (List.find _ db) as [[k j]|] eqn:Hf; simpl.
    + intros [= <-]. right. exists k.
      apply List.find_some in Hf as [Hin _]. by apply list_elem_of_In.
    + intros [= <-]. by left.
Qed.

Lemma placeholder_class (b s : string) :
  Roster.in_class b s Roster.placeholder → b = "UNKNOWN" ∧ s = "UNKNOWN".
Proof.
  unfold Roster.in_class, Roster.placeholder. intros [Hb Hs].
  rewrite lookup_insert_ne, lookup_insert_eq in Hb by done.
  rewrite !lookup_insert_ne, lookup_insert_eq in Hs by done.
  split; congruence.
Qed.

(** X16. The API's student count and the script's class roster are tied:
    for any class other than UNKNOWN-UNKNOWN, if no record of the student
    database belongs to the class (the case in which the API refuses to
    start) then the class roster the script builds is empty, whatever
    folders the dataset holds. *)
Theorem no_registered_student_no_class_roster (db : student_db)
    (listing : list (string * bool)) (ix : Roster.index) (b s : string) :
  Roster.build db listing = Some ix →
  b ≠ "UNKNOWN" ∨ s ≠ "UNKNOWN" →
  Api.count_students_in_class db b s = 0%nat →
  Roster.class_students b s ix = ∅.
Proof.
  intros Hb Hreal Hcount. apply map_empty. intros name.
  destruct (Roster.class_students b s ix !! name) as [i|] eqn:Hi; [|done].
  exfalso. apply class_students_lookup in Hi as [Hn Hc].
  rewrite (build_from_binds db listing _ _ name Hb) in Hn.
  destruct (decide _);
    [|by cbn [Roster.name_to_info Roster.empty_index] in Hn;
         rewrite lookup_empty in Hn].
  destruct (resolve_origin db name i Hn) as [->|[k Hk]].
  - apply placeholder_class in Hc as [-> ->]. by destruct Hreal.
  - rewrite count_students_length in Hcount.
    apply length_zero_iff_nil in Hcount.
    assert (Hin : (k, i) ∈ filter (λ kv, Roster.in_class b s kv.2) db)
      by (by apply list_elem_of_filter).
    rewrite Hcount in Hin. inversion Hin.
Qed.

Lemma no_registered_student_no_class_roster_witness :
  Roster.build Sample.db (dataset_listing Sample.env) = Some Sample.ix ∧
  ("MECH" ≠ "UNKNOWN" ∨ "A" ≠ "UNKNOWN") ∧
  Api.count_students_in_class Sample.db "MECH" "A" = 0%nat ∧
  Roster.class_students "MECH" "A" Sample.ix = ∅.
Proof.
  assert (Hb : Roster.build Sample.db (dataset_listing Sample.env) = Some Sample.ix)
    by (vm_compute; reflexivity).
  assert (Hr : "MECH" ≠ "UNKNOWN" ∨ "A" ≠ "UNKNOWN") by (left; discriminate).
  assert (Hc : Api.count_students_in_class Sample.db "MECH" "A" = 0%nat)
    by (vm_compute; reflexivity).
  split; [exact Hb|]. split; [exact Hr|]. split; [exact Hc|].
  exact (no_registered_student_no_class_roster Sample.db
           (dataset_listing Sample.env) Sample.ix "MECH" "A" Hb Hr Hc).
Defined.

(** * Training and recognition label numbers ([backend/train_model.py]) *)

Module Train.

(** [os.path.isdir] of an entry of the dataset folder. *)
Definition is_dir (listing : list (string * bool)) (name : string) : bool :=
  default false (snd <$> List.find (λ e, String.eqb e.1 name) listing).

(** [sorted(os.listdir(Config.DATASET_PATH))], each name with whether it is
    a folder. *)
Definition sorted_listing (listing : list (string * bool)) : list (string * bool) :=
  (λ name, (name, is_dir listing name)) <$> merge_sort String.le listing.*1.

(** The numbering loop of lines 38-64: entries that are not folders are
    skipped, a folder takes the next label. *)
Fixpoint number (entries : list (string * bool)) (label_map : gmap Z string)
    (label_id : Z) : gmap Z string * Z :=
  match entries with
  | [] => (label_map, label_id)
  | (person_name, is_folder) :: rest =>
    if negb is_folder then number rest label_map label_id
    else number rest (<[label_id := person_name]> label_map) (label_id + 1)
  end.

Definition label_map (listing : list (string * bool)) : gmap Z string :=
  (number (sorted_listing listing) ∅ 0).1.

End Train.

Lemma number_build_from (db : student_db) (entries : list (string * bool)) :
  ∀ ix ix',
    Roster.build_from db ix entries = Some ix' →
    Train.number entries (Roster.label_map ix) (Roster.label_id ix)
    = (Roster.label_map ix', Roster.label_id ix').
Proof.
  induction entries as [|[n d] rest IH]; intros ix ix';
    cbn [Roster.build_from Roster.add_entry Train.number].
  - by intros [= <-].
  - destruct d; cbn [negb].
    + destruct (resolve_is_Some db n) as [i Hi]. rewrite Hi.
      cbn [mbind option_bind]. intros Hb. by rewrite <- (IH _ _ Hb).
    + cbn [mbind option_bind]. apply IH.
Qed.

Lemma is_dir_unique (listing : list (string * bool)) :
  NoDup listing.*1 →
  (λ name, (name, Train.is_dir listing name)) <$> listing.*1 = listing.
Proof.
  induction listing as [|[n d] rest IH]; [done|].
  intros [Hn Hrest]%NoDup_cons. cbn [fmap list_fmap fst].
  f_equal.
  - unfold Train.is_dir. simpl. by rewrite String.eqb_refl.
  - rewrite <- (IH Hrest) at 2. apply list_fmap_ext.
    intros k name Hk. f_equal. unfold Train.is_dir. simpl.
    destruct (String.eqb_spec n name) as [->|]; [|done].
    destruct Hn. by eapply list_elem_of_lookup_2.
Qed.

(** X17. The recognition script numbers the dataset folders in the order
    [os.listdir] gives them, the training script in sorted order. When the
    listing is in ascending order of name (names being distinct) the two
    label maps are the same, so a label predicted by the trained model
    names the student it was trained on. *)
Theorem recognition_labels_match_training (db : student_db)
    (listing : list (string * bool)) (ix : Roster.index) :
  Roster.build db listing = Some ix →
  NoDup listing.*1 →
  Sorted String.le listing.*1 →
  Train.label_map listing = Roster.label_map ix.
Proof.
  intros Hb Hnd Hs. unfold Train.label_map, Train.sorted_listing.
  assert (E : merge_sort String.le listing.*1 = listing.*1).
  { apply (Sorted_unique String.le); [| done |apply merge_sort_Permutation].
    apply (Sorted_merge_sort String.le). }
  rewrite E, (is_dir_unique listing Hnd).
  pose proof (number_build_from db listing Roster.empty_index ix Hb) as Hn.
  cbn [Roster.label_map Roster.label_id Roster.empty_index] in Hn.
  by rewrite Hn.
Qed.

Module Shelf.

Definition sorted : list (string * bool) :=
  [("Asha Rao", true); ("Chitra", true); ("bala", true); ("notes.txt", false)].

Definition unsorted : list (string * bool) :=
  [("bala", true); ("Asha Rao", true)].

End Shelf.

Lemma recognition_labels_match_training_witness :
  NoDup Shelf.sorted.*1 ∧ Sorted String.le Shelf.sorted.*1 ∧
  match Roster.build Sample.db Shelf.sorted with
  | Some ix => Train.label_map Shelf.sorted = Roster.label_map ix
  | None => False
  end.
Proof.
  assert (Hnd : NoDup Shelf.sorted.*1)
    by (apply (bool_decide_unpack _); vm_compute; exact I).
  assert (Hs : Sorted String.le Shelf.sorted.*1)
    by (repeat constructor; vm_compute; exact I).
  split; [exact Hnd|]. split; [exact Hs|].
  destruct (Roster.build Sample.db Shelf.sorted) as [ix|] eqn:Hb.
  - exact (recognition_labels_match_training Sample.db Shelf.sorted ix Hb Hnd Hs).
  - by destruct (build_from_is_Some Sample.db Shelf.sorted Roster.empty_index)
      as [ix Hix]; unfold Roster.build in Hb; rewrite Hix in Hb.
Defined.

(** When the listing is not sorted the numbers differ: label 0 is "bala"
    for recognition and "Asha Rao" for training. *)
Example unsorted_listing_swaps_labels :
  (Roster.label_map <$> Roster.build Sample.db Shelf.unsorted) ≫= (.!! 0)
  = Some "bala" ∧
  Train.label_map Shelf.unsorted !! 0 = Some "Asha Rao".
Proof. split; vm_compute; reflexivity. Qed.

(** * Registration keys ([backend/validators.py]) *)


Module Registration.

(** ASCII white space, as [str.strip()] sees it. *)
Definition is_space (c : ascii) : bool :=
  let n := nat_of_ascii c in
  (((9 <=? n)%nat && (n <=? 13)%nat) || ((28 <=? n)%nat && (n <=? 32)%nat))%bool.

Fixpoint lstrip (s : string) : string :=
  match s with
  | EmptyString => EmptyString
  | String c r => if is_space c then lstrip r else s
  end.

Fixpoint rstrip (s : string) : string :=
  match s with
  | EmptyString => EmptyString
  | String c r =>
    match rstrip r with
    | EmptyString => if is_space c then EmptyString else String c EmptyString
    | r' => String c r'
    end
  end.

(** [s.strip()] *)
Definition strip (s : string) : string := rstrip (lstrip s).

(** The characters [re.sub(r'[^a-z0-9_]', '', s)] keeps. *)
Definition is_id_char (c : ascii) : bool :=
  let n := nat_of_ascii c in
  (((97 <=? n)%nat && (n <=? 122)%nat) || ((48 <=? n)%nat && (n <=? 57)%nat)
   || (n =? 95)%nat)%bool.

Fixpoint keep (p : ascii → bool) (s : string) : string :=
  match s with
  | EmptyString => EmptyString
  | String c r => if p c then String c (keep p r) else keep p r
  end.

(** Lines 177-178 of [generate_unique_student_id]. *)
Definition base_id (name : string) : string :=
  keep is_id_char (PyStr.replace_space_underscore (strip (PyStr.lower name))).

(** [f"{base_id}_{counter}"] *)
Definition candidate (base : string) (counter : nat) : string :=
  base +:+ "_" +:+ pretty counter.

(** The [while f"{base_id}_{counter}" in db: counter += 1] loop; [fuel]
    bounds the number of increments. *)
Fixpoint search (fuel : nat) (db : student_db) (base : string) (counter : nat)
  : option string :=
  if Roster.contains db (candidate base counter) then
    match fuel with
    | O => None
    | S fuel' => search fuel' db base (S counter)
    end
  else Some (candidate base counter).

(** [StudentValidator.generate_unique_student_id(name)] on the database it
    loads. The database has [length db] keys, so that many increments are
    enough; [None] would be a loop that has not ended by then. *)
Definition generate_unique_student_id (db : student_db) (name : string)
  : option string :=
  let base := base_id name in
  if negb (Roster.contains db base) then Some base
  else search (length db) db base 1.

(** The string fields of the record [validate_and_add_student] stores. *)
Definition record (name roll_no branch section registered dataset_path : string)
  : info :=
  <["name" := name]> (<["rollNo" := roll_no]> (<["branch" := branch]>
    (<["section" := section]> (<["registeredDate" := registered]>
      (<["datasetPath" := dataset_path]> ∅))))).

(** [db[student_id] = {...}] for a key the database does not hold: the new
    item comes last. *)
Definition add (db : student_db) (student_id : string) (r : info) : student_db :=
  db ++ [(student_id, r)].

(** A name made of letters, digits, underscores and blanks that neither
    starts nor ends with a blank. *)
Definition plain_char (c : ascii) : bool :=
  let n := nat_of_ascii c in
  (((65 <=? n)%nat && (n <=? 90)%nat) || ((97 <=? n)%nat && (n <=? 122)%nat)
   || ((48 <=? n)%nat && (n <=? 57)%nat) || (n =? 95)%nat || (n =? 32)%nat)%bool.

Fixpoint all_chars (p : ascii → bool) (s : string) : bool :=
  match s with
  | EmptyString => true
  | String c r => (p c && all_chars p r)%bool
  end.

Definition first_char (s : string) : option ascii :=
  match s with EmptyString => None | String c _ => Some c end.

Fixpoint last_char (s : string) : option ascii :=
  match s with
  | EmptyString => None
  | String c EmptyString => Some c
  | String _ r => last_char r
  end.

Definition plain_name (name : string) : bool :=
  (all_chars plain_char name
   && negb (bool_decide (first_char name = Some " "%char))
   && negb (bool_decide (last_char name = Some " "%char)))%bool.

End Registration.

Section FreshKeys.

Variable db : student_db.

Lemma contains_keys (key : string) :
  Roster.contains db key = true ↔ key ∈ (db.*1).
Proof.
  unfold Roster.contains. induction db as [|[k i] rest IH]; simpl.
  - split; [discriminate | intros H; inversion H].
  - rewrite orb_true_iff, IH, elem_of_cons, String.eqb_eq.
    split; (intros [->|H]; [by left | by right]).
Qed.

Lemma candidate_inj (base : string) : Inj (=) (=) (Registration.candidate base).
Proof.
  intros c1 c2 H. unfold Registration.candidate in H.
  by apply (inj (String.app base)), (inj (String.app "_")), (inj pretty) in H.
Qed.

(** Among the first [length db + 1] candidates one is not a key. *)
Lemma free_candidate (base : string) :
  ∃ c, (1 ≤ c ≤ S (length db))%nat ∧
       Roster.contains db (Registration.candidate base c) = false.
Proof.
  set (cands := Registration.candidate base <$> seq 1 (S (length db))).
  destruct (decide (Forall (λ k, k ∈ db.*1) cands)) as [Hall|Hex].
  - exfalso.
    assert (Hnd : NoDup cands).
    { apply (NoDup_fmap_2 (Registration.candidate base)), NoDup_seq. }
    assert (Hsub : cands ⊆+ db.*1).
    { apply NoDup_submseteq; [done|]. by apply Forall_forall. }
    apply submseteq_length in Hsub.
    unfold cands in Hsub. rewrite !length_fmap, length_seq in Hsub. lia.
  - apply not_Forall_Exists in Hex; [|apply _].
    apply Exists_exists in Hex as (k & Hk & Hnot).
    apply list_elem_of_fmap in Hk as (c & -> & Hc).
    apply elem_of_seq in Hc. exists c. split; [lia|].
    apply not_true_is_false. by rewrite contains_keys.
Qed.

Lemma search_finds (base : string) (fuel : nat) :
  ∀ counter,
    (∃ c, (counter ≤ c ≤ counter + fuel)%nat ∧
          Roster.contains db (Registration.candidate base c) = false) →
    ∃ c, Registration.search fuel db base counter
         = Some (Registration.candidate base c) ∧
         Roster.contains db (Registration.candidate base c) = false ∧
         (counter ≤ c)%nat ∧
         ∀ c', (counter ≤ c' < c)%nat →
               Roster.contains db (Registration.candidate base c') = true.
Proof.
  induction fuel as [|fuel IH]; intros counter (c & Hc & Hfree); simpl.
  - assert (c = counter) as -> by lia. rewrite Hfree.
    exists counter. repeat split; [done | lia | intros; lia].
  - destruct (Roster.contains db (Registration.candidate base counter)) eqn:E.
    + destruct (IH (S counter)) as (c0 & Hs & Hf & Hle & Hmin).
      { exists c. split; [|done].
        destruct (decide (c = counter)) as [->|]; [congruence | lia]. }
      exists c0. split; [done|]. split; [done|]. split; [lia|].
      intros c' Hc'. destruct (decide (c' = counter)) as [->|]; [done|].
      apply Hmin. lia.
    + exists counter. repeat split; [done | lia | intros; lia].
Qed.

End FreshKeys.

(** X18. [generate_unique_student_id] always ends, and the key it returns
    is not in the database, so registering under it never replaces an
    existing student. The key is the base id derived from the name when
    that is free; otherwise it is the base id followed by the smallest
    counter, from 1 up, whose key is free. *)
Theorem generated_student_id_is_fresh (db : student_db) (name : string) :
  ∃ id,
    Registration.generate_unique_student_id db name = Some id ∧
    (id ∉ db.*1) ∧
    let base := Registration.base_id name in
    (base ∉ db.*1 → id = base) ∧
    (base ∈ db.*1 →
     ∃ c, (1 ≤ c)%nat ∧ id = Registration.candidate base c ∧
          ∀ c', (1 ≤ c' < c)%nat → Registration.candidate base c' ∈ db.*1).
Proof.
  unfold Registration.generate_unique_student_id.
  destruct (Roster.contains db (Registration.base_id name)) eqn:E; simpl.
  - destruct (search_finds db (Registration.base_id name) (length db) 1)
      as (c & Hs & Hf & Hle & Hmin).
    { destruct (free_candidate db (Registration.base_id name)) as (c & Hc & Hf).
      exists c. split; [lia | done]. }
    exists (Registration.candidate (Registration.base_id name) c).
    split; [done|]. split.
    { rewrite <- contains_keys. by rewrite Hf. }
    split.
    + intros Hn. apply contains_keys in E. contradiction.
    + intros _. exists c. split; [done|]. split; [done|].
      intros c' Hc'. apply contains_keys. by apply Hmin.
  - exists (Registration.base_id name). split; [done|]. split.
    { rewrite <- contains_keys. by rewrite E. }
    split; [done|]. intros Hin. apply contains_keys in Hin. congruence.
Qed.

(** ** A registered student, as the recognition script finds them *)

Lemma plain_char_id (c : ascii) :
  Registration.plain_char c = true →
  Registration.is_id_char
    ((λ c, if Ascii.eqb c " " then "_"%char else c) (PyStr.lower_char c)) = true.
Proof. destruct c as [[] [] [] [] [] [] [] []]; vm_compute; congruence. Qed.

Lemma lower_char_space (c : ascii) :
  Registration.plain_char c = true →
  Registration.is_space (PyStr.lower_char c) = true → c = " "%char.
Proof. destruct c as [[] [] [] [] [] [] [] []]; vm_compute; congruence. Qed.

Lemma keep_replace_lower (s : string) :
  Registration.all_chars Registration.plain_char s = true →
  Registration.keep Registration.is_id_char
    (PyStr.replace_space_underscore (PyStr.lower s))
  = PyStr.replace_space_underscore (PyStr.lower s).
Proof.
  induction s as [|c r IH]; [done|]. simpl.
  intros [Hc Hr]%andb_true_iff.
  pose proof (plain_char_id c Hc) as Hid. simpl in Hid.
  unfold PyStr.replace_space_underscore, PyStr.lower in *. simpl.
  rewrite Hid. f_equal. by apply IH.
Qed.

Lemma lstrip_id (s : string) :
  Registration.all_chars Registration.plain_char s = true →
  Registration.first_char s ≠ Some " "%char →
  Registration.lstrip (PyStr.lower s) = PyStr.lower s.
Proof.
  destruct s as [|c r]; [done|]. simpl. intros [Hc _]%andb_true_iff Hf.
  destruct (Registration.is_space (PyStr.lower_char c)) eqn:E; [|done].
  apply (lower_char_space c Hc) in E. congruence.
Qed.

Lemma rstrip_id (s : string) :
  Registration.all_chars Registration.plain_char s = true →
  Registration.last_char s ≠ Some " "%char →
  Registration.rstrip (PyStr.lower s) = PyStr.lower s.
Proof.
  induction s as [|c r IH]; [done|].
  intros [Hc Hr]%andb_true_iff Hl.
  change (PyStr.lower (String c r))
    with (String (PyStr.lower_char c) (PyStr.lower r)).
  cbn [Registration.rstrip].
  destruct r as [|c' r'].
  - simpl. destruct (Registration.is_space (PyStr.lower_char c)) eqn:E; [|done].
    apply (lower_char_space c Hc) in E. subst c. by destruct Hl.
  - rewrite (IH Hr Hl).
    by change (PyStr.lower (String c' r'))
      with (String (PyStr.lower_char c') (PyStr.lower r')).
Qed.

Lemma plain_name_key (name : string) :
  Registration.plain_name name = true →
  Registration.base_id name = Roster.student_id_of name.
Proof.
  unfold Registration.plain_name.
  intros [[Hall Hf%negb_true_iff]%andb_true_iff Hl%negb_true_iff]%andb_true_iff.
  apply bool_decide_eq_false in Hf, Hl.
  unfold Registration.base_id, Roster.student_id_of, Registration.strip.
  rewrite (lstrip_id name Hall Hf), (rstrip_id name Hall Hl).
  by apply keep_replace_lower.
Qed.

Lemma getitem_add_new (db : student_db) (key : string) (r : info) :
  key ∉ (db.*1) →
  Roster.contains (Registration.add db key r) key = true ∧
  Roster.getitem (Registration.add db key r) key = Some r.
Proof.
  intros Hn. unfold Registration.add, Roster.contains, Roster.getitem.
  induction db as [|[k i] rest IH]; simpl.
  - by rewrite String.eqb_refl.
  - apply not_elem_of_cons in Hn as [Hk Hn].
    apply not_eq_sym, String.eqb_neq in Hk. simpl in Hk. rewrite Hk. simpl.
    by apply IH.
Qed.

(** X19. A student registered under a plain name (letters, digits,
    underscores and inner blanks) whose base id was free is found again by
    the recognition script: the key registration stores the record under is
    the key the script derives from the dataset folder of that name, and
    the script binds the folder to the record just stored, with its roll
    number, branch and section. *)
Theorem registered_student_is_resolved (db : student_db)
    (name roll_no branch section registered dataset_path : string) :
  Registration.plain_name name = true →
  Registration.base_id name ∉ db.*1 →
  let r := Registration.record name roll_no branch section registered dataset_path in
  ∃ id,
    Registration.generate_unique_student_id db name = Some id ∧
    id = Roster.student_id_of name ∧
    Roster.resolve (Registration.add db id r) name = Some r ∧
    r !! "rollNo" = Some roll_no ∧ r !! "branch" = Some branch ∧
    r !! "section" = Some section.
Proof.
  intros Hp Hfree. simpl.
  exists (Registration.base_id name). split.
  { unfold Registration.generate_unique_student_id.
    destruct (Roster.contains db (Registration.base_id name)) eqn:E; [|done].
    by apply contains_keys in E. }
  split; [by apply plain_name_key|].
  split; [|done].
  destruct (getitem_add_new db (Registration.base_id name)
              (Registration.record name roll_no branch section registered
                 dataset_path) Hfree) as [Hc Hg].
  unfold Roster.resolve. rewrite <- (plain_name_key name Hp). by rewrite Hc.
Qed.

Lemma registered_student_is_resolved_witness :
  Registration.plain_name "Dev Anand" = true ∧
  (Registration.base_id "Dev Anand" ∉ Sample.db.*1) ∧
  Registration.generate_unique_student_id Sample.db "Dev Anand" = Some "dev_anand".
Proof.
  assert (Hf : Registration.base_id "Dev Anand" ∉ Sample.db.*1).
  { apply (bool_decide_unpack _). vm_compute. exact I. }
  split; [reflexivity|]. split; [exact Hf|].
  destruct (registered_student_is_resolved Sample.db "Dev Anand" "CSEA002" "CSE"
              "A" "2026-01-05 09:00:00" "dataset/Dev Anand" eq_refl Hf)
    as (id & Hg & -> & _).
  exact Hg.
Defined.

(** A name with a hyphen is stored under a key the script does not derive;
    the script then falls back on the name search. *)
Example hyphenated_name_keys_differ :
  Registration.base_id "Anne-Marie" = "annemarie" ∧
  Roster.student_id_of "Anne-Marie" = "anne-marie".
Proof. split; reflexivity. Qed.

Lemma session_log_complete_witness :
  Forall (λ fr, flush_fault fr = NoFault) Recorded.frames ∧
  main Sample.env Recorded.frames NoFault
  = Completed Recorded.final Controller.CameraReadFailed ∧
  attendance_queue Recorded.final = [] ∧
  written (trace Recorded.final) = appended (trace Recorded.final).
Proof.
  assert (Hf : Forall (λ fr, flush_fault fr = NoFault) Recorded.frames)
    by (repeat constructor).
  split; [exact Hf|]. split; [exact Recorded.completes|].
  destruct (session_log_complete Sample.env Recorded.frames Recorded.final
              Controller.CameraReadFailed Hf Recorded.completes) as (Hq & _ & Hw).
  split; [exact Hq | exact Hw].
Defined.

(** ** The running flag *)

Lemma start_attendance_running (srv : Api.server) (data : option info)
    (st st' : Api.state) (b s : string) :
  start_accepted srv data st b s →
  Api.attendance_running st' = true →
  Api.start_attendance srv data st' = (Api.fail 400 Api.AlreadyRunning, st').
Proof.
  intros ((d & -> & Eb & Es) & Hb & Hs & Hn & _) Hr.
  unfold Api.start_attendance. rewrite <- Eb, <- Es.
  destruct (proj2 (validate_class_selection_ok b s) (conj Hb Hs)) as [v ->].
  destruct (student_counters_agree_aux (load_student_database (Api.database srv)) b s Hn)
    as [n [-> _]].
  by rewrite Hr.
Qed.

(** X20. The running flag is all the API knows of a session. While it is
    raised a second start request is refused with status 400 and changes
    nothing. A stop request always succeeds and only lowers the flag: the
    scripts launched so far stay on record, none is ended. After it the same
    start request is accepted again and launches a second script for the
    same class. *)
Theorem stop_only_lowers_the_flag (srv : Api.server) (data : option info)
    (st : Api.state) (b s : string) :
  start_accepted srv data st b s →
  let started := (Api.start_attendance srv data st).2 in
  let again := Api.start_attendance srv data started in
  let stopped := (Api.stop_attendance started).2 in
  let restarted := Api.start_attendance srv data stopped in
  (Api.status again.1 = 400 ∧ Api.body again.1 = Api.AlreadyRunning ∧
   again.2 = started) ∧
  (Api.success (Api.stop_attendance started).1 = true ∧
   Api.attendance_running stopped = false ∧
   Api.launched stopped = Api.launched started) ∧
  (Api.success restarted.1 = true ∧
   Api.launched restarted.2
   = Api.launched st ++ [Api.script_argv b s; Api.script_argv b s]).
Proof.
  intros Ha. simpl.
  rewrite (start_attendance_accepted srv data st b s Ha). simpl.
  split.
  { by rewrite (start_attendance_running srv data st _ b s Ha). }
  split; [done|].
  assert (Ha' : start_accepted srv data
                  {| Api.attendance_running := false;
                     Api.launched := Api.launched st ++ [Api.script_argv b s];
                     Api.batch_file := Some (b, s) |} b s).
  { destruct Ha as (Hd & Hb & Hs & Hn & _ & Ht & Hw & Hp).
    by repeat split. }
  rewrite (start_attendance_accepted srv data _ b s Ha'). simpl.
  split; [done|]. by rewrite <- (assoc_L (++)).
Qed.

Lemma stop_only_lowers_the_flag_witness :
  start_accepted Desk.srv Desk.request Desk.idle "CSE" "A" ∧
  Api.launched
    (Api.start_attendance Desk.srv Desk.request
       (Api.stop_attendance
          (Api.start_attendance Desk.srv Desk.request Desk.idle).2).2).2
  = [Api.script_argv "CSE" "A"; Api.script_argv "CSE" "A"].
Proof.
  split; [exact Desk.accepted|].
  exact (proj2 (proj2 (proj2
           (stop_only_lowers_the_flag Desk.srv Desk.request Desk.idle "CSE" "A"
              Desk.accepted)))).
Defined.
